(** * NRTWsim platform generator: the JSON platform loader

    A shallow embedding of [json_platform_loader.cpp].  The loader walks a
    parsed JSON document and drives the SimGrid engine and the file system
    module through their C++ interfaces; it keeps three global name
    registries ([zone_map], [link_map], [storage_map]).

    - The JSON tree is an inductive type; the accessors below follow the
      behaviour of nlohmann::json that the loader relies on.
    - The engine and the file system module are external: the model records
      every entity that the loader asks them to create, with the attributes
      it passes, and performs none of their own validation.
    - Object handles (C++ pointers) are allocation indices into the
      recorded entity lists; a null pointer is [None].
    - The registries are [gmap]s from names to handles.  [std::map]'s
      [operator[]] inserts a default (null) entry when the key is absent,
      and so does the model.

    The model ends with the walk of the zone tree by which
    [platform_summary.cpp] counts the hosts and the disks of a platform
    once it is loaded. *)

From Stdlib Require Import ZArith String Ascii List Lia.
From stdpp Require Import base option list gmap strings.

Local Open Scope string_scope.
Local Open Scope list_scope.
Local Open Scope Z_scope.

(** ** Results *)

(** What aborts a compile pass.  [type_error_302]: a JSON value is
    converted to a C++ type it does not hold.  [type_error_305]:
    [operator[]] with a key on a value that is not an object.
    [key_absent]: the const [operator[]] on a key that the object does not
    have; nlohmann::json asserts there (the behaviour is otherwise
    undefined), so the pass does not continue.  [cannot_open_config]: the
    [std::runtime_error] of [load_platform]. *)
Inductive error : Type :=
  | type_error_302
  | type_error_305
  | key_absent
  | cannot_open_config.

(** [Ok a]: normal completion.  [Err e]: an exception leaves the loader.
    [Timeout]: a loop was cut off by the fuel of the model. *)
Inductive result (A : Type) : Type :=
  | Ok (a : A)
  | Err (e : error)
  | Timeout.
Arguments Ok {A} a.
Arguments Err {A} e.
Arguments Timeout {A}.

(** ** JSON values

    The parsed document.  Numbers are integers: no member that the loader
    reads as a number is meant to hold a fraction. *)

#[warnings="-register-all"]
Inductive json : Type :=
  | JNull
  | JBool (b : bool)
  | JInt (z : Z)
  | JStr (s : string)
  | JArr (items : list json)
  | JObj (members : list (string * json)).

(** An object is its list of members in iteration order, one member per
    key. *)
Fixpoint assoc (key : string) (members : list (string * json)) : option json :=
  match members with
  | [] => None
  | (k, v) :: rest => if String.eqb k key then Some v else assoc key rest
  end.

(** [j[key]] on a [const json&]. *)
Definition at_key (j : json) (key : string) : result json :=
  match j with
  | JObj members =>
      match assoc key members with
      | Some v => Ok v
      | None => Err key_absent
      end
  | _ => Err type_error_305
  end.

(** [j[key]] on a non-const [json]: a null value becomes an empty object,
    and an absent key is inserted with a null value.  Returns the member
    and the modified value (the loader only looks members of the modified
    value up, so the place of the new member does not matter). *)
Definition at_key_mut (j : json) (key : string) : result (json * json) :=
  match j with
  | JNull => Ok (JNull, JObj [(key, JNull)])
  | JObj members =>
      match assoc key members with
      | Some v => Ok (v, j)
      | None => Ok (JNull, JObj (members ++ [(key, JNull)]))
      end
  | _ => Err type_error_305
  end.

(** [j.contains(key)]. *)
Definition contains (j : json) (key : string) : bool :=
  match j with
  | JObj members => bool_decide (is_Some (assoc key members))
  | _ => false
  end.

(** Conversion to [std::string]. *)
Definition get_string (j : json) : result string :=
  match j with
  | JStr s => Ok s
  | _ => Err type_error_302
  end.

(** A 64-bit JSON integer narrowed to the 32-bit [int]. *)
Definition wrap_int (z : Z) : Z :=
  (z + 2147483648) mod 4294967296 - 2147483648.

(** Conversion to [int]: numbers are narrowed, booleans become 0 or 1. *)
Definition get_int (j : json) : result Z :=
  match j with
  | JInt z => Ok (wrap_int z)
  | JBool b => Ok (if b then 1 else 0)
  | _ => Err type_error_302
  end.

(** The values a range-based [for] visits: the elements of an array, the
    member values of an object, nothing for null, the value itself
    otherwise. *)
Definition items (j : json) : list json :=
  match j with
  | JArr l => l
  | JObj members => map snd members
  | JNull => []
  | _ => [j]
  end.

(** [j == s] for a string [s]. *)
Definition json_eq_string (j : json) (s : string) : bool :=
  match j with
  | JStr t => String.eqb t s
  | _ => false
  end.

(** [std::to_string] on a non-negative [int]. *)
Fixpoint digits (fuel n : nat) (acc : string) : string :=
  match fuel with
  | O => acc
  | S fuel' =>
      let acc' := String (ascii_of_nat (48 + n mod 10)) acc in
      if (n / 10 =? 0)%nat then acc' else digits fuel' (n / 10)%nat acc'
  end.

Definition to_string (n : nat) : string := digits (S n) n "".

(** ** What the engine and the file system module are asked to build *)

Inductive routing : Type := Full | Floyd | Star | Empty.

(** The zone a new zone is added to: the root zone of the engine or a zone
    created earlier. *)
Inductive zone_ref : Type := RootZone | ZoneAt (z : nat).

Inductive sharing_policy : Type := SHARED | FATPIPE.

Inductive storage_kind : Type := OneDisk | JBOD.

(** The two families of [add_route] the loader calls: between hosts (a
    null host stands for the gateway of the zone) and between zones. *)
Inductive endpoint : Type := HostEnd (h : nat) | ZoneEnd (z : nat).

Record zone : Type := mk_zone {
  z_name : string;
  z_routing : routing;
  z_parent : zone_ref;
  z_gateway : option nat;
  z_sealed : bool }.

Record host : Type := mk_host {
  h_name : string;
  h_speed : string;
  h_cores : Z;
  h_zone : nat }.

Record disk : Type := mk_disk {
  d_name : string;
  d_read_bw : string;
  d_write_bw : string;
  d_host : nat }.

Record link : Type := mk_link {
  l_name : string;
  l_bandwidth : string;
  l_latency : option string;
  l_policy : sharing_policy;
  l_zone : nat }.

Record router : Type := mk_router {
  rt_name : string;
  rt_zone : nat }.

(** [r_symmetrical] is the [symmetrical] argument of [add_route], [None]
    when the call leaves it to the engine. *)
Record route : Type := mk_route {
  r_zone : nat;
  r_src : option endpoint;
  r_dst : option endpoint;
  r_links : list (option nat);
  r_symmetrical : option bool }.

Record storage : Type := mk_storage {
  s_name : string;
  s_kind : storage_kind;
  s_disks : list nat }.

Record partition : Type := mk_partition {
  p_mount_point : string;
  p_storage : option nat;
  p_size : string }.

Record filesystem : Type := mk_filesystem {
  fs_name : string;
  fs_max_open_files : Z;
  fs_partitions : list partition }.

(** The state of the process: the entities recorded so far, the file
    system registrations (zone, file system), and the three registries. *)
Record state : Type := mk_state {
  zones : list zone;
  hosts : list host;
  disks : list disk;
  links : list link;
  routers : list router;
  routes : list route;
  storages : list storage;
  filesystems : list filesystem;
  registered : list (option nat * nat);
  zone_map : gmap string (option nat);
  link_map : gmap string (option nat);
  storage_map : gmap string (option nat) }.

(** The process before the first pass: nothing built, registries empty. *)
Definition initial_state : state :=
  mk_state [] [] [] [] [] [] [] [] [] ∅ ∅ ∅.

(** ** The loader monad: state passing with failure *)

Definition M (A : Type) : Type := state -> result (A * state).

Definition ret {A} (a : A) : M A := fun st => Ok (a, st).

Definition bind {A B} (m : M A) (k : A -> M B) : M B :=
  fun st =>
    match m st with
    | Ok (a, st') => k a st'
    | Err e => Err e
    | Timeout => Timeout
    end.

Definition lift {A} (r : result A) : M A :=
  fun st =>
    match r with
    | Ok a => Ok (a, st)
    | Err e => Err e
    | Timeout => Timeout
    end.

Notation "'let*' x ':=' m 'in' k" := (bind m (fun x => k))
  (at level 20, x name, m at level 100, k at level 200, only parsing).
Notation "m '>>' k" := (bind m (fun _ => k))
  (at level 100, k at level 200, right associativity, only parsing).

Definition rbind {A B} (r : result A) (k : A -> result B) : result B :=
  match r with
  | Ok a => k a
  | Err e => Err e
  | Timeout => Timeout
  end.

Notation "'let+' x ':=' r 'in' k" := (rbind r (fun x => k))
  (at level 20, x name, r at level 100, k at level 200, only parsing).

(** Reading a member as a string or as an [int], outside the monad. *)
Definition field_string (j : json) (key : string) : result string :=
  rbind (at_key j key) get_string.

Definition field_int (j : json) (key : string) : result Z :=
  rbind (at_key j key) get_int.

Definition modify (f : state -> state) : M unit := fun st => Ok (tt, f st).

(** A range-based or counting [for] loop. *)
Fixpoint for_each {A} (l : list A) (body : A -> M unit) : M unit :=
  match l with
  | [] => ret tt
  | x :: rest => body x >> for_each rest body
  end.

(** [for (int i = 0; i < n; i++)]. *)
Definition range (n : Z) : list nat := seq 0 (Z.to_nat n).

(** Reading a member of a [const json&] into a C++ variable. *)
Definition read_json (j : json) (key : string) : M json := lift (at_key j key).

Definition read_string (j : json) (key : string) : M string :=
  let* v := read_json j key in lift (get_string v).

Definition read_int (j : json) (key : string) : M Z :=
  let* v := read_json j key in lift (get_int v).

(** ** Engine and file system module calls

    Each call records what it is given and returns the new handle.  Field
    updates of a state: *)

Definition with_zones (f : list zone -> list zone) (st : state) : state :=
  mk_state (f (zones st)) (hosts st) (disks st) (links st) (routers st)
    (routes st) (storages st) (filesystems st) (registered st)
    (zone_map st) (link_map st) (storage_map st).

Definition with_hosts (f : list host -> list host) (st : state) : state :=
  mk_state (zones st) (f (hosts st)) (disks st) (links st) (routers st)
    (routes st) (storages st) (filesystems st) (registered st)
    (zone_map st) (link_map st) (storage_map st).

Definition with_disks (f : list disk -> list disk) (st : state) : state :=
  mk_state (zones st) (hosts st) (f (disks st)) (links st) (routers st)
    (routes st) (storages st) (filesystems st) (registered st)
    (zone_map st) (link_map st) (storage_map st).

Definition with_links (f : list link -> list link) (st : state) : state :=
  mk_state (zones st) (hosts st) (disks st) (f (links st)) (routers st)
    (routes st) (storages st) (filesystems st) (registered st)
    (zone_map st) (link_map st) (storage_map st).

Definition with_routers (f : list router -> list router) (st : state) : state :=
  mk_state (zones st) (hosts st) (disks st) (links st) (f (routers st))
    (routes st) (storages st) (filesystems st) (registered st)
    (zone_map st) (link_map st) (storage_map st).

Definition with_routes (f : list route -> list route) (st : state) : state :=
  mk_state (zones st) (hosts st) (disks st) (links st) (routers st)
    (f (routes st)) (storages st) (filesystems st) (registered st)
    (zone_map st) (link_map st) (storage_map st).

Definition with_storages (f : list storage -> list storage) (st : state) : state :=
  mk_state (zones st) (hosts st) (disks st) (links st) (routers st)
    (routes st) (f (storages st)) (filesystems st) (registered st)
    (zone_map st) (link_map st) (storage_map st).

Definition with_filesystems (f : list filesystem -> list filesystem) (st : state) : state :=
  mk_state (zones st) (hosts st) (disks st) (links st) (routers st)
    (routes st) (storages st) (f (filesystems st)) (registered st)
    (zone_map st) (link_map st) (storage_map st).

Definition with_registered (f : list (option nat * nat) -> list (option nat * nat))
    (st : state) : state :=
  mk_state (zones st) (hosts st) (disks st) (links st) (routers st)
    (routes st) (storages st) (filesystems st) (f (registered st))
    (zone_map st) (link_map st) (storage_map st).

Definition with_zone_map (f : gmap string (option nat) -> gmap string (option nat))
    (st : state) : state :=
  mk_state (zones st) (hosts st) (disks st) (links st) (routers st)
    (routes st) (storages st) (filesystems st) (registered st)
    (f (zone_map st)) (link_map st) (storage_map st).

Definition with_link_map (f : gmap string (option nat) -> gmap string (option nat))
    (st : state) : state :=
  mk_state (zones st) (hosts st) (disks st) (links st) (routers st)
    (routes st) (storages st) (filesystems st) (registered st)
    (zone_map st) (f (link_map st)) (storage_map st).

Definition with_storage_map (f : gmap string (option nat) -> gmap string (option nat))
    (st : state) : state :=
  mk_state (zones st) (hosts st) (disks st) (links st) (routers st)
    (routes st) (storages st) (filesystems st) (registered st)
    (zone_map st) (link_map st) (f (storage_map st)).

(** [add_netzone_full], [add_netzone_floyd], [add_netzone_star] and
    [add_netzone_empty], told apart by [kind]. *)
Definition add_netzone (kind : routing) (parent : zone_ref) (name : string) : M nat :=
  fun st => Ok (length (zones st),
                with_zones (fun l => l ++ [mk_zone name kind parent None false]) st).

Definition seal (z : nat) : M unit :=
  modify (with_zones (alter (fun zn =>
    mk_zone (z_name zn) (z_routing zn) (z_parent zn) (z_gateway zn) true) z)).

Definition set_gateway (z : nat) (r : nat) : M unit :=
  modify (with_zones (alter (fun zn =>
    mk_zone (z_name zn) (z_routing zn) (z_parent zn) (Some r) (z_sealed zn)) z)).

Definition add_router (z : nat) (name : string) : M nat :=
  fun st => Ok (length (routers st),
                with_routers (fun l => l ++ [mk_router name z]) st).

(** A new host has one core until [set_core_count] says otherwise. *)
Definition add_host (z : nat) (name speed : string) : M nat :=
  fun st => Ok (length (hosts st),
                with_hosts (fun l => l ++ [mk_host name speed 1 z]) st).

Definition set_core_count (h : nat) (cores : Z) : M nat :=
  fun st => Ok (h, with_hosts (alter (fun x =>
    mk_host (h_name x) (h_speed x) cores (h_zone x)) h) st).

Definition add_disk (h : nat) (name read_bw write_bw : string) : M nat :=
  fun st => Ok (length (disks st),
                with_disks (fun l => l ++ [mk_disk name read_bw write_bw h]) st).

(** A new link has no latency set and the default sharing policy. *)
Definition add_link (z : nat) (name bandwidth : string) : M nat :=
  fun st => Ok (length (links st),
                with_links (fun l => l ++ [mk_link name bandwidth None SHARED z]) st).

Definition set_latency (l : nat) (latency : string) : M nat :=
  fun st => Ok (l, with_links (alter (fun x =>
    mk_link (l_name x) (l_bandwidth x) (Some latency) (l_policy x) (l_zone x)) l) st).

Definition set_sharing_policy (l : nat) (p : sharing_policy) : M nat :=
  fun st => Ok (l, with_links (alter (fun x =>
    mk_link (l_name x) (l_bandwidth x) (l_latency x) p (l_zone x)) l) st).

Definition add_route (z : nat) (src dst : option endpoint)
    (route_links : list (option nat)) (symmetrical : option bool) : M unit :=
  modify (with_routes (fun l => l ++ [mk_route z src dst route_links symmetrical])).

(** [OneDiskStorage::create] and [JBODStorage::create]. *)
Definition one_disk_storage_create (name : string) (d : nat) : M nat :=
  fun st => Ok (length (storages st),
                with_storages (fun l => l ++ [mk_storage name OneDisk [d]]) st).

Definition jbod_storage_create (name : string) (ds : list nat) : M nat :=
  fun st => Ok (length (storages st),
                with_storages (fun l => l ++ [mk_storage name JBOD ds]) st).

Definition file_system_create (name : string) (max_open_files : Z) : M nat :=
  fun st => Ok (length (filesystems st),
                with_filesystems (fun l => l ++ [mk_filesystem name max_open_files []]) st).

Definition mount_partition (fs : nat) (mount_point : string) (sto : option nat)
    (size : string) : M unit :=
  modify (with_filesystems (alter (fun x =>
    mk_filesystem (fs_name x) (fs_max_open_files x)
      (fs_partitions x ++ [mk_partition mount_point sto size])) fs)).

Definition register_file_system (z : option nat) (fs : nat) : M unit :=
  modify (with_registered (fun l => l ++ [(z, fs)])).

(** ** The registries

    [m[key] = h] and the read [m[key]], which default-inserts. *)

Definition map_at (m : gmap string (option nat)) (key : string)
    : option nat * gmap string (option nat) :=
  match m !! key with
  | Some h => (h, m)
  | None => (None, <[key := None]> m)
  end.

Definition zone_map_set (name : string) (z : nat) : M unit :=
  modify (with_zone_map (fun m => <[name := Some z]> m)).

Definition link_map_set (name : string) (l : nat) : M unit :=
  modify (with_link_map (fun m => <[name := Some l]> m)).

Definition storage_map_set (name : string) (s : nat) : M unit :=
  modify (with_storage_map (fun m => <[name := Some s]> m)).

Definition zone_map_at (name : string) : M (option nat) :=
  fun st => Ok (fst (map_at (zone_map st) name),
                with_zone_map (fun m => snd (map_at m name)) st).

Definition link_map_at (name : string) : M (option nat) :=
  fun st => Ok (fst (map_at (link_map st) name),
                with_link_map (fun m => snd (map_at m name)) st).

Definition storage_map_at (name : string) : M (option nat) :=
  fun st => Ok (fst (map_at (storage_map st) name),
                with_storage_map (fun m => snd (map_at m name)) st).

(** A loop that [push_back]s what each round produces. *)
Fixpoint for_collect {A B} (l : list A) (body : A -> M B) : M (list B) :=
  match l with
  | [] => ret []
  | x :: rest =>
      let* b := body x in
      let* bs := for_collect rest body in
      ret (b :: bs)
  end.

(** ** The builders of [json_platform_loader.cpp] *)

Definition create_storage_system_zone (parent : nat) (storage_config : json) : M unit :=
  let* name := read_string storage_config "name" in
  let* zone := add_netzone Empty (ZoneAt parent) name in
  zone_map_set name zone >>
  let server_name := name +:+ "_server" in
  let storage_name := name +:+ "_storage" in
  let disk_name_base := name +:+ "_disk" in
  let* server_speed := read_string storage_config "server_speed" in
  let* server := add_host zone server_name server_speed in
  let* storage_type := read_string storage_config "type" in
  let* disk_count := read_int storage_config "disk_count" in
  let* read_bw := read_string storage_config "read_bandwidth" in
  let* write_bw := read_string storage_config "write_bandwidth" in
  (if String.eqb storage_type "JBOD" then
     let* ds := for_collect (range disk_count) (fun i =>
       let disk_name :=
         if disk_count =? 1 then disk_name_base
         else disk_name_base +:+ to_string i in
       add_disk server disk_name read_bw write_bw) in
     let* sto := jbod_storage_create storage_name ds in
     storage_map_set storage_name sto
   else if String.eqb storage_type "OneDisk" then
     let* d := add_disk server disk_name_base read_bw write_bw in
     let* sto := one_disk_storage_create storage_name d in
     storage_map_set storage_name sto
   else ret tt) >>
  seal zone.

(** One round of the node loop of [create_cluster_zone]. *)
Definition create_cluster_node (cluster backbone : nat)
    (prefix suffix host_speed : string) (host_cores : Z)
    (link_bw link_lat loopback_bw loopback_lat : string)
    (has_storage : bool)
    (storage_base_name storage_type storage_read_bw storage_write_bw : string)
    (i : nat) : M unit :=
  let hostname := (prefix +:+ to_string i) +:+ suffix in
  let* host0 := add_host cluster hostname host_speed in
  let* host := set_core_count host0 host_cores in
  (if has_storage then
     let storage_name := (hostname +:+ "_") +:+ storage_base_name in
     let disk_name := storage_name +:+ "_disk" in
     let* d := add_disk host disk_name storage_read_bw storage_write_bw in
     if String.eqb storage_type "OneDisk" then
       let* sto := one_disk_storage_create storage_name d in
       storage_map_set storage_name sto
     else if String.eqb storage_type "JBOD" then
       let* sto := jbod_storage_create storage_name [d] in
       storage_map_set storage_name sto
     else ret tt
   else ret tt) >>
  let* up0 := add_link cluster (hostname +:+ "_LinkUP") link_bw in
  let* link_up := set_latency up0 link_lat in
  let* down0 := add_link cluster (hostname +:+ "_LinkDOWN") link_bw in
  let* link_down := set_latency down0 link_lat in
  let* lo0 := add_link cluster (hostname +:+ "_loopback") loopback_bw in
  let* lo1 := set_latency lo0 loopback_lat in
  let* loopback := set_sharing_policy lo1 FATPIPE in
  add_route cluster (Some (HostEnd host)) None [Some link_up; Some backbone] (Some false) >>
  add_route cluster None (Some (HostEnd host)) [Some backbone; Some link_down] (Some false) >>
  add_route cluster (Some (HostEnd host)) (Some (HostEnd host)) [Some loopback] None.

Definition create_cluster_zone (parent : nat) (cluster_config : json) : M unit :=
  let* name := read_string cluster_config "name" in
  let* prefix := read_string cluster_config "prefix" in
  let* suffix := read_string cluster_config "suffix" in
  let* count := read_int cluster_config "count" in
  let* cluster := add_netzone Star (ZoneAt parent) name in
  zone_map_set name cluster >>
  let* backbone_cfg := read_json cluster_config "backbone" in
  let* backbone_bw := read_string backbone_cfg "bandwidth" in
  let* backbone_lat := read_string backbone_cfg "latency" in
  let backbone_name := name +:+ "_backbone" in
  let* backbone0 := add_link cluster backbone_name backbone_bw in
  let* backbone := set_latency backbone0 backbone_lat in
  let* node_cfg := read_json cluster_config "node" in
  let* host_speed := read_string node_cfg "speed" in
  let* host_cores := read_int node_cfg "cores" in
  let* private_link_cfg := read_json node_cfg "private_link" in
  let* link_bw := read_string private_link_cfg "bandwidth" in
  let* link_lat := read_string private_link_cfg "latency" in
  let* loopback_cfg := read_json node_cfg "loopback" in
  let* loopback_bw := read_string loopback_cfg "bandwidth" in
  let* loopback_lat := read_string loopback_cfg "latency" in
  let has_storage := contains node_cfg "storage" in
  let* storage_cfg := if has_storage then read_json node_cfg "storage" else ret JNull in
  let* storage_base_name := if has_storage then read_string storage_cfg "name" else ret "" in
  let* storage_type := if has_storage then read_string storage_cfg "type" else ret "" in
  let* storage_read_bw :=
    if has_storage then read_string storage_cfg "read_bandwidth" else ret "" in
  let* storage_write_bw :=
    if has_storage then read_string storage_cfg "write_bandwidth" else ret "" in
  for_each (range count)
    (create_cluster_node cluster backbone prefix suffix host_speed host_cores
       link_bw link_lat loopback_bw loopback_lat has_storage
       storage_base_name storage_type storage_read_bw storage_write_bw) >>
  let router_name := name +:+ "_router" in
  let* r := add_router cluster router_name in
  set_gateway cluster r >>
  seal cluster.

(** One round of the loop of [create_inter_zone_links]. *)
Definition create_inter_zone_link (datacenter : nat) (link_cfg : json) : M unit :=
  let* link_name := read_string link_cfg "name" in
  let* bandwidth := read_string link_cfg "bandwidth" in
  let* latency := read_string link_cfg "latency" in
  let* l0 := add_link datacenter link_name bandwidth in
  let* l := set_latency l0 latency in
  link_map_set link_name l.

Definition create_inter_zone_links (datacenter : nat) (links_config : json) : M unit :=
  for_each (items links_config) (create_inter_zone_link datacenter).

(** One round of the loop of [create_routes]. *)
Definition create_route (datacenter : nat) (route_cfg : json) : M unit :=
  let* src_name := read_string route_cfg "src" in
  let* dst_name := read_string route_cfg "dst" in
  let* src_zone := zone_map_at src_name in
  let* dst_zone := zone_map_at dst_name in
  let* links_cfg := read_json route_cfg "links" in
  let* route_links := for_collect (items links_cfg) (fun link_name =>
    let* n := lift (get_string link_name) in
    link_map_at n) in
  add_route datacenter (ZoneEnd <$> src_zone) (ZoneEnd <$> dst_zone) route_links None.

Definition create_routes (datacenter : nat) (routes_config : json) : M unit :=
  for_each (items routes_config) (create_route datacenter).

(** ** The mount-point placeholder *)

Definition placeholder : string := "{hostname}".

(** [s.find(pat)]: the index of the first occurrence, [None] for [npos]. *)
Fixpoint find (pat s : string) : option nat :=
  if String.prefix pat s then Some O
  else match s with
       | EmptyString => None
       | String _ rest => S <$> find pat rest
       end.

Fixpoint take_str (n : nat) (s : string) : string :=
  match n, s with
  | S n', String c rest => String c (take_str n' rest)
  | _, _ => EmptyString
  end.

Fixpoint drop_str (n : nat) (s : string) : string :=
  match n, s with
  | S n', String _ rest => drop_str n' rest
  | _, _ => s
  end.

(** [s.replace(pos, len, new_text)] for [pos] within [s]. *)
Definition replace (pos len : nat) (new_text s : string) : string :=
  take_str pos s +:+ new_text +:+ drop_str (pos + len) s.

(** The [while] loop of the cluster branch of [create_filesystems]: as
    long as the placeholder occurs, its first occurrence is replaced by
    the host name.  [fuel] bounds the number of replacements; [None] when
    it runs out. *)
Fixpoint substitute_hostname (fuel : nat) (mount_point hostname : string)
    : option string :=
  match find placeholder mount_point with
  | None => Some mount_point
  | Some pos =>
      match fuel with
      | O => None
      | S fuel' => substitute_hostname fuel' (replace pos 10 hostname mount_point) hostname
      end
  end.

(** ** The file system pass *)

(** The locals [prefix], [suffix], [storage_base_name] and [count] of the
    cluster branch. *)
Record cluster_info : Type := mk_cluster_info {
  ci_prefix : string;
  ci_suffix : string;
  ci_storage_base_name : string;
  ci_count : Z }.

(** The inner search loop: the first cluster of the facility with the
    wanted name sets the locals and ends the loop ([break]). *)
Fixpoint scan_clusters (clusters : list json) (cluster_name : string)
    (info : cluster_info) : result cluster_info :=
  match clusters with
  | [] => Ok info
  | cluster :: rest =>
      let+ n := at_key cluster "name" in
      if json_eq_string n cluster_name then
        let+ p := rbind (at_key cluster "prefix") get_string in
        let+ s := rbind (at_key cluster "suffix") get_string in
        let+ c := rbind (at_key cluster "count") get_int in
        let+ node := at_key cluster "node" in
        if contains node "storage" then
          let+ sto := at_key node "storage" in
          let+ b := rbind (at_key sto "name") get_string in
          Ok (mk_cluster_info p s b c)
        else Ok (mk_cluster_info p s (ci_storage_base_name info) c)
      else scan_clusters rest cluster_name info
  end.

(** The outer search loop, which goes on through every facility. *)
Fixpoint scan_facilities (facilities : list json) (cluster_name : string)
    (info : cluster_info) : result cluster_info :=
  match facilities with
  | [] => Ok info
  | dc :: rest =>
      if contains dc "clusters" then
        let+ clusters := at_key dc "clusters" in
        let+ info' := scan_clusters (items clusters) cluster_name info in
        scan_facilities rest cluster_name info'
      else scan_facilities rest cluster_name info
  end.

Definition max_open_files : Z := 100000000.

(** One round of the per-node loop of the cluster branch. *)
Definition mount_cluster_node (fuel : nat) (fs : nat)
    (mount_point_pattern size : string) (info : cluster_info) (i : nat) : M unit :=
  let hostname := (ci_prefix info +:+ to_string i) +:+ ci_suffix info in
  let storage_name := (hostname +:+ "_") +:+ ci_storage_base_name info in
  match substitute_hostname fuel mount_point_pattern hostname with
  | None => fun _ => Timeout
  | Some mount_point =>
      let* sto := storage_map_at storage_name in
      mount_partition fs mount_point sto size
  end.

Definition create_filesystem (fuel : nat) (platform_config fs_cfg : json) : M unit :=
  let* fs_name := read_string fs_cfg "name" in
  let* mount_point_pattern := read_string fs_cfg "mount_point" in
  let* size := read_string fs_cfg "size" in
  let* fs := file_system_create fs_name max_open_files in
  if contains fs_cfg "storage_system" then
    let* storage_system_name := read_string fs_cfg "storage_system" in
    let storage_name := storage_system_name +:+ "_storage" in
    let* zone := zone_map_at storage_system_name in
    let* sto := storage_map_at storage_name in
    mount_partition fs mount_point_pattern sto size >>
    register_file_system zone fs
  else if contains fs_cfg "cluster" then
    let* cluster_name := read_string fs_cfg "cluster" in
    let* facilities := read_json platform_config "facilities" in
    let* info := lift (scan_facilities (items facilities) cluster_name
                         (mk_cluster_info "" "" "" 0)) in
    for_each (range (ci_count info))
      (mount_cluster_node fuel fs mount_point_pattern size info) >>
    let* zone := zone_map_at cluster_name in
    register_file_system zone fs
  else ret tt.

Definition create_filesystems (fuel : nat) (filesystems_config platform_config : json)
    : M unit :=
  for_each (items filesystems_config) (create_filesystem fuel platform_config).

(** ** The entry point *)

(** The head of a round of the facility loop of [load_platform]: the
    facility zone is created with its routing and registered. *)
Definition create_facility_zone (dc_config : json) : M nat :=
  let* dc_name := read_string dc_config "name" in
  let* dc_routing := read_string dc_config "routing" in
  let* datacenter :=
    if String.eqb dc_routing "full" then add_netzone Full RootZone dc_name
    else if String.eqb dc_routing "floyd" then add_netzone Floyd RootZone dc_name
    else add_netzone Full RootZone dc_name in
  zone_map_set dc_name datacenter >>
  ret datacenter.

(** One round of the facility loop of [load_platform]. *)
Definition load_facility (dc_config : json) : M unit :=
  let* datacenter := create_facility_zone dc_config in
  (if contains dc_config "storage_systems" then
     let* cfgs := read_json dc_config "storage_systems" in
     for_each (items cfgs) (create_storage_system_zone datacenter)
   else ret tt) >>
  (if contains dc_config "clusters" then
     let* cfgs := read_json dc_config "clusters" in
     for_each (items cfgs) (create_cluster_zone datacenter)
   else ret tt) >>
  (if contains dc_config "links" then
     let* cfg := read_json dc_config "links" in
     create_inter_zone_links datacenter cfg
   else ret tt) >>
  (if contains dc_config "routes" then
     let* cfg := read_json dc_config "routes" in
     create_routes datacenter cfg
   else ret tt) >>
  seal datacenter.

(** [load_platform] once the configuration text is parsed.  [config] is
    not const: reading its ["facilities"] member can add it. *)
Definition compile (fuel : nat) (config : json) : M unit :=
  let* fc := lift (at_key_mut config "facilities") in
  let facilities := fst fc in
  let config' := snd fc in
  for_each (items facilities) load_facility >>
  if contains config' "filesystems" then
    let* fss := read_json config' "filesystems" in
    create_filesystems fuel fss config'
  else ret tt.

(** What [get_config_path] and [json::parse] hand over: no file that
    opens, or the parsed document.  (A text that does not parse raises
    the parser's own exception and is not a document.) *)
Inductive config_source : Type :=
  | Unreadable
  | Parsed (config : json).

Definition load_platform (fuel : nat) (src : config_source) : M unit :=
  match src with
  | Unreadable => lift (Err cannot_open_config)
  | Parsed config => compile fuel config
  end.

(** * What the builders read and what they leave behind *)

(** ** The cluster builder *)

(** What [create_cluster_zone] reads from a cluster specification, in the
    order in which it reads it. *)
Record cluster_fields : Type := mk_cluster_fields {
  cf_name : string;
  cf_prefix : string;
  cf_suffix : string;
  cf_count : Z;
  cf_backbone_bw : string;
  cf_backbone_lat : string;
  cf_host_speed : string;
  cf_host_cores : Z;
  cf_link_bw : string;
  cf_link_lat : string;
  cf_loopback_bw : string;
  cf_loopback_lat : string;
  cf_has_storage : bool;
  cf_storage_base_name : string;
  cf_storage_type : string;
  cf_storage_read_bw : string;
  cf_storage_write_bw : string }.

Definition cluster_fields_of (cluster_config : json) : result cluster_fields :=
  let+ name := field_string cluster_config "name" in
  let+ prefix := field_string cluster_config "prefix" in
  let+ suffix := field_string cluster_config "suffix" in
  let+ count := field_int cluster_config "count" in
  let+ backbone_cfg := at_key cluster_config "backbone" in
  let+ backbone_bw := field_string backbone_cfg "bandwidth" in
  let+ backbone_lat := field_string backbone_cfg "latency" in
  let+ node_cfg := at_key cluster_config "node" in
  let+ host_speed := field_string node_cfg "speed" in
  let+ host_cores := field_int node_cfg "cores" in
  let+ private_link_cfg := at_key node_cfg "private_link" in
  let+ link_bw := field_string private_link_cfg "bandwidth" in
  let+ link_lat := field_string private_link_cfg "latency" in
  let+ loopback_cfg := at_key node_cfg "loopback" in
  let+ loopback_bw := field_string loopback_cfg "bandwidth" in
  let+ loopback_lat := field_string loopback_cfg "latency" in
  if contains node_cfg "storage" then
    let+ storage_cfg := at_key node_cfg "storage" in
    let+ base := field_string storage_cfg "name" in
    let+ type := field_string storage_cfg "type" in
    let+ rbw := field_string storage_cfg "read_bandwidth" in
    let+ wbw := field_string storage_cfg "write_bandwidth" in
    Ok (mk_cluster_fields name prefix suffix count backbone_bw backbone_lat
          host_speed host_cores link_bw link_lat loopback_bw loopback_lat
          true base type rbw wbw)
  else
    Ok (mk_cluster_fields name prefix suffix count backbone_bw backbone_lat
          host_speed host_cores link_bw link_lat loopback_bw loopback_lat
          false "" "" "" "").

(** The host name of node [i]. *)
Definition hostname (prefix suffix : string) (i : nat) : string :=
  (prefix +:+ to_string i) +:+ suffix.

(** The kind of device a node gets, if any. *)
Definition node_storage_kind (f : cluster_fields) : option storage_kind :=
  if cf_has_storage f then
    if String.eqb (cf_storage_type f) "OneDisk" then Some OneDisk
    else if String.eqb (cf_storage_type f) "JBOD" then Some JBOD
    else None
  else None.

Definition node_storage_name (f : cluster_fields) (i : nat) : string :=
  (hostname (cf_prefix f) (cf_suffix f) i +:+ "_") +:+ cf_storage_base_name f.

Definition node_host (f : cluster_fields) (cluster : nat) (i : nat) : host :=
  mk_host (hostname (cf_prefix f) (cf_suffix f) i) (cf_host_speed f) (cf_host_cores f) cluster.

Definition node_links (f : cluster_fields) (cluster : nat) (i : nat) : list link :=
  let h := hostname (cf_prefix f) (cf_suffix f) i in
  [ mk_link (h +:+ "_LinkUP") (cf_link_bw f) (Some (cf_link_lat f)) SHARED cluster;
    mk_link (h +:+ "_LinkDOWN") (cf_link_bw f) (Some (cf_link_lat f)) SHARED cluster;
    mk_link (h +:+ "_loopback") (cf_loopback_bw f) (Some (cf_loopback_lat f)) FATPIPE cluster ].

(** The three routes of a node whose host has handle [h] and whose first
    link has handle [l]. *)
Definition node_routes (cluster backbone h l : nat) : list route :=
  [ mk_route cluster (Some (HostEnd h)) None [Some l; Some backbone] (Some false);
    mk_route cluster None (Some (HostEnd h)) [Some backbone; Some (S l)] (Some false);
    mk_route cluster (Some (HostEnd h)) (Some (HostEnd h)) [Some (S (S l))] None ].

Definition node_disks (f : cluster_fields) (h : nat) (i : nat) : list disk :=
  if cf_has_storage f then
    [mk_disk (node_storage_name f i +:+ "_disk")
       (cf_storage_read_bw f) (cf_storage_write_bw f) h]
  else [].

Definition node_storages (f : cluster_fields) (d : nat) (i : nat) : list storage :=
  match node_storage_kind f with
  | Some k => [mk_storage (node_storage_name f i) k [d]]
  | None => []
  end.

(** The effect of one round of the node loop. *)
Definition node_effect (f : cluster_fields) (cluster backbone : nat) (i : nat)
    (st : state) : state :=
  mk_state (zones st)
    (hosts st ++ [node_host f cluster i])
    (disks st ++ node_disks f (length (hosts st)) i)
    (links st ++ node_links f cluster i)
    (routers st)
    (routes st ++ node_routes cluster backbone (length (hosts st)) (length (links st)))
    (storages st ++ node_storages f (length (disks st)) i)
    (filesystems st) (registered st) (zone_map st) (link_map st)
    (match node_storage_kind f with
     | Some _ => <[node_storage_name f i := Some (length (storages st))]> (storage_map st)
     | None => storage_map st
     end).

(** The state after the first [n] rounds of the node loop, started in
    [st]. *)
Definition nodes_effect (f : cluster_fields) (cluster backbone : nat) (n : nat)
    (st : state) : state :=
  mk_state (zones st)
    (hosts st ++ map (node_host f cluster) (seq 0 n))
    (disks st ++ flat_map (fun i => node_disks f (length (hosts st) + i) i) (seq 0 n))
    (links st ++ flat_map (node_links f cluster) (seq 0 n))
    (routers st)
    (routes st ++ flat_map (fun i =>
       node_routes cluster backbone (length (hosts st) + i) (length (links st) + 3 * i))
       (seq 0 n))
    (storages st ++ flat_map (fun i => node_storages f (length (disks st) + i) i) (seq 0 n))
    (filesystems st) (registered st) (zone_map st) (link_map st)
    (fold_left (fun m i =>
       match node_storage_kind f with
       | Some _ => <[node_storage_name f i := Some (length (storages st) + i)%nat]> m
       | None => m
       end) (seq 0 n) (storage_map st)).

(** The state after [create_cluster_zone] on a specification with fields
    [f], started in [st]. *)
Definition cluster_effect (parent : nat) (f : cluster_fields) (st : state) : state :=
  let cluster := length (zones st) in
  let backbone := length (links st) in
  let n := Z.to_nat (cf_count f) in
  mk_state
    (zones st ++ [mk_zone (cf_name f) Star (ZoneAt parent) (Some (length (routers st))) true])
    (hosts st ++ map (node_host f cluster) (seq 0 n))
    (disks st ++ flat_map (fun i => node_disks f (length (hosts st) + i) i) (seq 0 n))
    (links st ++
       mk_link (cf_name f +:+ "_backbone") (cf_backbone_bw f)
         (Some (cf_backbone_lat f)) SHARED cluster
       :: flat_map (node_links f cluster) (seq 0 n))
    (routers st ++ [mk_router (cf_name f +:+ "_router") cluster])
    (routes st ++ flat_map (fun i =>
       node_routes cluster backbone (length (hosts st) + i) (S (length (links st)) + 3 * i))
       (seq 0 n))
    (storages st ++ flat_map (fun i => node_storages f (length (disks st) + i) i) (seq 0 n))
    (filesystems st) (registered st)
    (<[cf_name f := Some cluster]> (zone_map st))
    (link_map st)
    (fold_left (fun m i =>
       match node_storage_kind f with
       | Some _ => <[node_storage_name f i := Some (length (storages st) + i)%nat]> m
       | None => m
       end) (seq 0 n) (storage_map st)).

(** The document of the example scenario: one facility ["dc"] with one
    cluster ["c0"] of three nodes ["n0"], ["n1"], ["n2"]. *)
Definition bandwidth_latency (bandwidth latency : string) : json :=
  JObj [("bandwidth", JStr bandwidth); ("latency", JStr latency)].

Definition example_cluster : json :=
  JObj [("name", JStr "c0"); ("prefix", JStr "n"); ("suffix", JStr "");
        ("count", JInt 3);
        ("backbone", bandwidth_latency "10Gbps" "1ms");
        ("node", JObj [("speed", JStr "1Gf"); ("cores", JInt 4);
                       ("private_link", bandwidth_latency "1Gbps" "10us");
                       ("loopback", bandwidth_latency "100Gbps" "0us")])].

Definition example_document : json :=
  JObj [("facilities",
         JArr [JObj [("name", JStr "dc"); ("routing", JStr "full");
                     ("clusters", JArr [example_cluster])]])].

(** ** The storage system builder *)

(** What [create_storage_system_zone] reads, in its order. *)
Record storage_fields : Type := mk_storage_fields {
  sf_name : string;
  sf_server_speed : string;
  sf_type : string;
  sf_disk_count : Z;
  sf_read_bw : string;
  sf_write_bw : string }.

Definition storage_fields_of (storage_config : json) : result storage_fields :=
  let+ name := field_string storage_config "name" in
  let+ server_speed := field_string storage_config "server_speed" in
  let+ type := field_string storage_config "type" in
  let+ disk_count := field_int storage_config "disk_count" in
  let+ read_bw := field_string storage_config "read_bandwidth" in
  let+ write_bw := field_string storage_config "write_bandwidth" in
  Ok (mk_storage_fields name server_speed type disk_count read_bw write_bw).

Definition storage_system_kind (f : storage_fields) : option storage_kind :=
  if String.eqb (sf_type f) "JBOD" then Some JBOD
  else if String.eqb (sf_type f) "OneDisk" then Some OneDisk
  else None.

Definition jbod_disk (f : storage_fields) (server : nat) (i : nat) : disk :=
  mk_disk (if sf_disk_count f =? 1 then sf_name f +:+ "_disk"
           else (sf_name f +:+ "_disk") +:+ to_string i)
    (sf_read_bw f) (sf_write_bw f) server.

Definition storage_system_disks (f : storage_fields) (server : nat) : list disk :=
  match storage_system_kind f with
  | Some JBOD => map (jbod_disk f server) (range (sf_disk_count f))
  | Some OneDisk => [mk_disk (sf_name f +:+ "_disk") (sf_read_bw f) (sf_write_bw f) server]
  | None => []
  end.

Definition storage_system_storages (f : storage_fields) (first_disk : nat)
    : list storage :=
  match storage_system_kind f with
  | Some JBOD =>
      [mk_storage (sf_name f +:+ "_storage") JBOD
         (seq first_disk (Z.to_nat (sf_disk_count f)))]
  | Some OneDisk => [mk_storage (sf_name f +:+ "_storage") OneDisk [first_disk]]
  | None => []
  end.

(** The state after [create_storage_system_zone] on a specification with
    fields [f], started in [st]. *)
Definition storage_system_effect (parent : nat) (f : storage_fields) (st : state)
    : state :=
  let zone := length (zones st) in
  mk_state
    (zones st ++ [mk_zone (sf_name f) Empty (ZoneAt parent) None true])
    (hosts st ++ [mk_host (sf_name f +:+ "_server") (sf_server_speed f) 1 zone])
    (disks st ++ storage_system_disks f (length (hosts st)))
    (links st) (routers st) (routes st)
    (storages st ++ storage_system_storages f (length (disks st)))
    (filesystems st) (registered st)
    (<[sf_name f := Some zone]> (zone_map st))
    (link_map st)
    (match storage_system_kind f with
     | Some _ => <[sf_name f +:+ "_storage" := Some (length (storages st))]> (storage_map st)
     | None => storage_map st
     end).

(** A storage system of a type the loader does not know. *)
Definition example_tape_system : json :=
  JObj [("name", JStr "archive"); ("server_speed", JStr "1Gf");
        ("type", JStr "Tape"); ("disk_count", JInt 4);
        ("read_bandwidth", JStr "100MBps"); ("write_bandwidth", JStr "50MBps")].

(** ** What no call of the loader undoes *)

(** Every entry of [l] is still in [l'] at its index, with the same
    [key]. *)
Definition kept {A B} (key : A -> B) (l l' : list A) : Prop :=
  forall i x, l !! i = Some x -> exists x', l' !! i = Some x' /\ key x' = key x.

Definition zone_key (z : zone) : string * routing * zone_ref :=
  (z_name z, z_routing z, z_parent z).

Definition filesystem_key (x : filesystem) : string * Z :=
  (fs_name x, fs_max_open_files x).

(** [st'] is reached from [st] by calls of the loader: zones keep their
    name, routing and parent; file systems keep their name and limit, and
    those created since have the limit [max_open_files]; no name leaves a
    registry. *)
Record extends (st st' : state) : Prop := mk_extends {
  ext_zones : kept zone_key (zones st) (zones st');
  ext_filesystems : kept filesystem_key (filesystems st) (filesystems st');
  ext_created : forall i x, filesystems st' !! i = Some x ->
                  (length (filesystems st) <= i)%nat ->
                  fs_max_open_files x = max_open_files;
  ext_zone_map : dom (zone_map st) ⊆ dom (zone_map st');
  ext_link_map : dom (link_map st) ⊆ dom (link_map st');
  ext_storage_map : dom (storage_map st) ⊆ dom (storage_map st') }.

(** [R] relates the states before and after every normal completion of
    [m]. *)
Definition post {A} (R : state -> state -> Prop) (m : M A) : Prop :=
  forall st a st', m st = Ok (a, st') -> R st st'.

(** The two states hold the same number of file systems. *)
Definition same_filesystem_count (st st' : state) : Prop :=
  length (filesystems st') = length (filesystems st).

(** ** The facility zone *)

(** A facility entry without a ["routing"] member. *)
Definition example_no_routing : json :=
  JObj [("facilities", JArr [JObj [("name", JStr "dc")]])].

(** A facility entry with a routing the loader does not know. *)
Definition example_dijkstra_facility : json :=
  JObj [("name", JStr "dc"); ("routing", JStr "dijkstra")].

(** ** The file system pass *)

(** The example cluster with a disk on every node, and a file system
    mounted on every node of it. *)
Definition example_storage_cluster : json :=
  JObj [("name", JStr "c0"); ("prefix", JStr "n"); ("suffix", JStr "");
        ("count", JInt 3);
        ("backbone", bandwidth_latency "10Gbps" "1ms");
        ("node", JObj [("speed", JStr "1Gf"); ("cores", JInt 4);
                       ("private_link", bandwidth_latency "1Gbps" "10us");
                       ("loopback", bandwidth_latency "100Gbps" "0us");
                       ("storage", JObj [("name", JStr "ssd"); ("type", JStr "OneDisk");
                                         ("read_bandwidth", JStr "1GBps");
                                         ("write_bandwidth", JStr "500MBps")])])].

Definition example_scratch_filesystem : json :=
  JObj [("name", JStr "scratch"); ("mount_point", JStr "/{hostname}/scratch/");
        ("size", JStr "1TB"); ("cluster", JStr "c0")].

Definition example_scratch_document : json :=
  JObj [("facilities",
         JArr [JObj [("name", JStr "dc"); ("routing", JStr "full");
                     ("clusters", JArr [example_storage_cluster])]]);
        ("filesystems", JArr [example_scratch_filesystem])].

(** ** The registries across passes *)

(** A second document, compiled after [example_document] in the same
    process: its route names the zone ["c0"], which it does not declare. *)
Definition example_second_document : json :=
  JObj [("facilities",
         JArr [JObj [("name", JStr "dc2"); ("routing", JStr "full");
                     ("routes", JArr [JObj [("src", JStr "c0"); ("dst", JStr "dc2");
                                            ("links", JArr [])]])]])].

(** ** Routes between zones *)

(** What the read [m[key]] returns and what it leaves in the registry. *)
Definition resolve (m : gmap string (option nat)) (key : string) : option nat :=
  fst (map_at m key).

Definition touch (m : gmap string (option nat)) (key : string)
    : gmap string (option nat) :=
  snd (map_at m key).

(** The link names of a route entry. *)
Fixpoint strings_of (l : list json) : result (list string) :=
  match l with
  | [] => Ok []
  | j :: rest =>
      let+ s := get_string j in
      let+ ss := strings_of rest in
      Ok (s :: ss)
  end.

(** What [create_route] reads from a route entry, in its order. *)
Record route_fields : Type := mk_route_fields {
  rf_src : string;
  rf_dst : string;
  rf_links : list string }.

Definition route_fields_of (route_cfg : json) : result route_fields :=
  let+ src := field_string route_cfg "src" in
  let+ dst := field_string route_cfg "dst" in
  let+ links_cfg := at_key route_cfg "links" in
  let+ names := strings_of (items links_cfg) in
  Ok (mk_route_fields src dst names).

(** The state after [create_route] on an entry with fields [f]. *)
Definition route_effect (datacenter : nat) (f : route_fields) (st : state) : state :=
  mk_state (zones st) (hosts st) (disks st) (links st) (routers st)
    (routes st ++
       [mk_route datacenter
          (ZoneEnd <$> resolve (zone_map st) (rf_src f))
          (ZoneEnd <$> resolve (zone_map st) (rf_dst f))
          (map (resolve (link_map st)) (rf_links f)) None])
    (storages st) (filesystems st) (registered st)
    (touch (touch (zone_map st) (rf_src f)) (rf_dst f))
    (fold_left touch (rf_links f) (link_map st))
    (storage_map st).

(** A route between two zones and over a link that nothing declares. *)
Definition example_dangling_route : json :=
  JObj [("src", JStr "a"); ("dst", JStr "b"); ("links", JArr [JStr "l"])].

Definition example_dangling_document : json :=
  JObj [("facilities",
         JArr [JObj [("name", JStr "dc"); ("routing", JStr "full");
                     ("routes", JArr [example_dangling_route])]])].

(** ** The placeholder loop *)

(** The number of occurrences of a character in a string. *)
Fixpoint count_char (c : ascii) (s : string) : nat :=
  match s with
  | EmptyString => O
  | String a rest => ((if Ascii.eqb a c then 1 else 0) + count_char c rest)%nat
  end.

(** A host name without the placeholder on which the loop does not end:
    prefix ["hostname}hostname}"], index 0, suffix ["{{"]. *)
Definition looping_hostname : string := hostname "hostname}hostname}" "{{" 0.

(** ** Determinism of the registries *)

(** What a registry entry says about the entity behind its handle: for a
    zone its name and routing, for a link its name, bandwidth, latency
    and sharing policy, for a storage device its name, kind and the name
    and bandwidths of each of its disks.  Handles themselves are left
    out: they are addresses, and differ from run to run. *)
Definition zone_attr (z : zone) : string * routing := (z_name z, z_routing z).

Definition link_attr (l : link) : string * string * option string * sharing_policy :=
  (l_name l, l_bandwidth l, l_latency l, l_policy l).

Definition disk_attr (d : disk) : string * string * string :=
  (d_name d, d_read_bw d, d_write_bw d).

Definition storage_attr (ds : list disk) (s : storage)
    : string * storage_kind * list (option (string * string * string)) :=
  (s_name s, s_kind s, map (fun d => disk_attr <$> ds !! d) (s_disks s)).

(** The attributes behind a handle; nothing behind a null handle. *)
Definition entry {A B} (attr : A -> B) (l : list A) (h : option nat) : option B :=
  match h with
  | Some i => attr <$> l !! i
  | None => None
  end.

(** The registries as maps from names to attributes. *)
Definition zone_view (st : state) : gmap string (option (string * routing)) :=
  entry zone_attr (zones st) <$> zone_map st.

Definition link_view (st : state)
    : gmap string (option (string * string * option string * sharing_policy)) :=
  entry link_attr (links st) <$> link_map st.

Definition storage_view (st : state)
    : gmap string
        (option (string * storage_kind * list (option (string * string * string)))) :=
  entry (storage_attr (disks st)) (storages st) <$> storage_map st.

(** Every handle in a registry is the handle of a recorded entity. *)
Definition valid {A} (l : list A) (m : gmap string (option nat)) : Prop :=
  forall k i, m !! k = Some (Some i) -> (i < length l)%nat.

Definition valid_disks (st : state) : Prop :=
  forall k i s, storage_map st !! k = Some (Some i) -> storages st !! i = Some s ->
    Forall (fun d => (d < length (disks st))%nat) (s_disks s).

Record well_formed (st : state) : Prop := mk_well_formed {
  wf_zones : valid (zones st) (zone_map st);
  wf_links : valid (links st) (link_map st);
  wf_storages : valid (storages st) (storage_map st);
  wf_disks : valid_disks st }.

(** Two states whose registries hold the same names with the same
    attributes. *)
Record agree (st1 st2 : state) : Prop := mk_agree {
  agree_wf1 : well_formed st1;
  agree_wf2 : well_formed st2;
  agree_zones : zone_view st1 = zone_view st2;
  agree_links : link_view st1 = link_view st2;
  agree_storages : storage_view st1 = storage_view st2 }.

(** A step that leaves the registries alone and the recorded zones, links,
    storage devices and disks as they are, up to what the views do not
    show. *)
Record frame (st st' : state) : Prop := mk_frame {
  frame_zone_map : zone_map st' = zone_map st;
  frame_link_map : link_map st' = link_map st;
  frame_storage_map : storage_map st' = storage_map st;
  frame_zones : kept zone_attr (zones st) (zones st');
  frame_links : kept link_attr (links st) (links st');
  frame_storages : kept (fun s => s) (storages st) (storages st');
  frame_disks : kept disk_attr (disks st) (disks st') }.

(** Two computations that, started in agreeing states, end the same way,
    and in agreeing states when they complete. *)
Definition sim {A B} (m1 : M A) (m2 : M B) : Prop :=
  forall st1 st2, agree st1 st2 ->
    match m1 st1, m2 st2 with
    | Ok (_, s1), Ok (_, s2) => agree s1 s2
    | Err e1, Err e2 => e1 = e2
    | Timeout, Timeout => True
    | _, _ => False
    end.

(** A computation that always completes and is a [frame] step. *)
Definition framed {A} (m : M A) : Prop :=
  forall st, exists a st', m st = Ok (a, st') /\ frame st st'.

(** How the loader maps the routing name of a facility. *)
Definition facility_routing (name : string) : routing :=
  if String.eqb name "full" then Full
  else if String.eqb name "floyd" then Floyd
  else Full.

(** The entities of a cluster, before any of them is registered. *)
Definition cluster_entities (parent : nat) (f : cluster_fields) (st : state) : state :=
  with_storage_map (fun _ => storage_map st)
    (with_zone_map (fun _ => zone_map st) (cluster_effect parent f st)).

(** The entities of a storage system, before any of them is registered. *)
Definition storage_system_entities (parent : nat) (f : storage_fields) (st : state)
    : state :=
  with_storage_map (fun _ => storage_map st)
    (with_zone_map (fun _ => zone_map st) (storage_system_effect parent f st)).

(** The registries of two states hold the same names, and the same
    attributes under each name. *)
Definition same_registries (s1 s2 : state) : Prop :=
  dom (zone_map s1) = dom (zone_map s2) /\
  dom (link_map s1) = dom (link_map s2) /\
  dom (storage_map s1) = dom (storage_map s2) /\
  zone_view s1 = zone_view s2 /\
  link_view s1 = link_view s2 /\
  storage_view s1 = storage_view s2.

(** An engine that already holds a zone, a host and a link when the
    loader is called. *)
Definition busy_state : state :=
  mk_state [mk_zone "site" Full RootZone None true]
    [mk_host "frontend" "1Gf" 1 0] []
    [mk_link "uplink" "1Gbps" (Some "1ms") SHARED 0] [] [] [] [] [] ∅ ∅ ∅.

(** ** File systems on clusters *)

(** The template with every occurrence of the pattern replaced by the new
    text, as the specification words it: one pass from left to right, the
    text put in place of an occurrence is not looked at again.  [skip] is
    the number of characters of an occurrence still to pass over. *)
Fixpoint replace_from (pat new_text s : string) (skip : nat) : string :=
  match s with
  | EmptyString => EmptyString
  | String c rest =>
      match skip with
      | S k => replace_from pat new_text rest k
      | O =>
          if String.prefix pat s
          then new_text +:+ replace_from pat new_text rest (String.length pat - 1)
          else String c (replace_from pat new_text rest 0)
      end
  end.

Definition replace_every_occurrence (pat new_text s : string) : string :=
  replace_from pat new_text s 0.

Definition mount_storage_name (info : cluster_info) (i : nat) : string :=
  (hostname (ci_prefix info) (ci_suffix info) i +:+ "_") +:+ ci_storage_base_name info.

(** The partitions that the per-node loop mounts for the node indices
    [l], or [None] when a substitution does not end within [fuel]. *)
Fixpoint node_partitions (fuel : nat) (pattern size : string) (info : cluster_info)
    (m : gmap string (option nat)) (l : list nat) : option (list partition) :=
  match l with
  | [] => Some []
  | i :: rest =>
      match substitute_hostname fuel pattern
              (hostname (ci_prefix info) (ci_suffix info) i) with
      | None => None
      | Some mount_point =>
          match node_partitions fuel pattern size info m rest with
          | None => None
          | Some ps =>
              Some (mk_partition mount_point (resolve m (mount_storage_name info i)) size
                    :: ps)
          end
      end
  end.

Definition add_partitions (ps : list partition) (x : filesystem) : filesystem :=
  mk_filesystem (fs_name x) (fs_max_open_files x) (fs_partitions x ++ ps).

(** What the cluster branch of [create_filesystem] reads, in its order;
    [mf_info] is what the search through the document leaves in the
    locals. *)
Record mount_fields : Type := mk_mount_fields {
  mf_name : string;
  mf_pattern : string;
  mf_size : string;
  mf_cluster : string;
  mf_info : cluster_info }.

Definition mount_fields_of (platform_config fs_cfg : json) : result mount_fields :=
  let+ name := field_string fs_cfg "name" in
  let+ pattern := field_string fs_cfg "mount_point" in
  let+ size := field_string fs_cfg "size" in
  let+ cluster := field_string fs_cfg "cluster" in
  let+ facilities := at_key platform_config "facilities" in
  let+ info := scan_facilities (items facilities) cluster (mk_cluster_info "" "" "" 0) in
  Ok (mk_mount_fields name pattern size cluster info).

(** The state after the cluster branch has mounted the partitions [ps]. *)
Definition cluster_mount_effect (f : mount_fields) (ps : list partition) (st : state)
    : state :=
  mk_state (zones st) (hosts st) (disks st) (links st) (routers st) (routes st)
    (storages st)
    (filesystems st ++ [mk_filesystem (mf_name f) max_open_files ps])
    (registered st ++ [(resolve (zone_map st) (mf_cluster f), length (filesystems st))])
    (touch (zone_map st) (mf_cluster f))
    (link_map st)
    (fold_left touch
       (map (mount_storage_name (mf_info f)) (range (ci_count (mf_info f))))
       (storage_map st)).

(** A cluster whose host names hold the placeholder, and a file system
    mounted on each of its nodes. *)
Definition example_brace_cluster : json :=
  JObj [("name", JStr "c0"); ("prefix", JStr "{hostname}-"); ("suffix", JStr "");
        ("count", JInt 1);
        ("backbone", bandwidth_latency "10Gbps" "1ms");
        ("node", JObj [("speed", JStr "1Gf"); ("cores", JInt 4);
                       ("private_link", bandwidth_latency "1Gbps" "10us");
                       ("loopback", bandwidth_latency "100Gbps" "0us");
                       ("storage", JObj [("name", JStr "ssd"); ("type", JStr "OneDisk");
                                         ("read_bandwidth", JStr "1GBps");
                                         ("write_bandwidth", JStr "500MBps")])])].

Definition example_brace_document : json :=
  JObj [("facilities",
         JArr [JObj [("name", JStr "dc"); ("routing", JStr "full");
                     ("clusters", JArr [example_brace_cluster])]]);
        ("filesystems", JArr [example_scratch_filesystem])].

(** The last character of a string is [e]. *)
Fixpoint last_is (e : ascii) (s : string) : Prop :=
  match s with
  | EmptyString => False
  | String c EmptyString => c = e
  | String _ rest => last_is e rest
  end.

(** The characters of [to_string]: decimal digits, none of which is in
    the placeholder. *)
Definition digit_char (k : nat) : ascii := ascii_of_nat (48 + k).

(** * More of what the loader builds *)

(** ** Decimal numbers and the ends of names *)

(** The number that a string of decimal digits writes, read from the left
    with [acc] the value of the digits before it. *)
Fixpoint decimal_value (s : string) (acc : nat) : nat :=
  match s with
  | EmptyString => acc
  | String c rest => decimal_value rest (10 * acc + (nat_of_ascii c - 48))%nat
  end.

(** The last character of a string, if it has one. *)
Fixpoint last_char (s : string) : option ascii :=
  match s with
  | EmptyString => None
  | String c EmptyString => Some c
  | String _ rest => last_char rest
  end.

(** ** More storage systems *)

(** A storage system specification without the ["disk_count"] member. *)
Definition example_one_disk_system : json :=
  JObj [("name", JStr "pfs"); ("server_speed", JStr "1Gf");
        ("type", JStr "OneDisk");
        ("read_bandwidth", JStr "180MBps"); ("write_bandwidth", JStr "160MBps")].

(** A OneDisk storage system that asks for eight disks. *)
Definition example_one_disk_many : json :=
  JObj [("name", JStr "pfs"); ("server_speed", JStr "1Gf");
        ("type", JStr "OneDisk"); ("disk_count", JInt 8);
        ("read_bandwidth", JStr "180MBps"); ("write_bandwidth", JStr "160MBps")].

Definition example_jbod_system : json :=
  JObj [("name", JStr "pfs"); ("server_speed", JStr "1Gf");
        ("type", JStr "JBOD"); ("disk_count", JInt 3);
        ("read_bandwidth", JStr "180MBps"); ("write_bandwidth", JStr "160MBps")].

(** ** More clusters *)

(** The example cluster with node storage of a type the loader does not
    know. *)
Definition example_tape_cluster : json :=
  JObj [("name", JStr "c0"); ("prefix", JStr "n"); ("suffix", JStr "");
        ("count", JInt 3);
        ("backbone", bandwidth_latency "10Gbps" "1ms");
        ("node", JObj [("speed", JStr "1Gf"); ("cores", JInt 4);
                       ("private_link", bandwidth_latency "1Gbps" "10us");
                       ("loopback", bandwidth_latency "100Gbps" "0us");
                       ("storage", JObj [("name", JStr "tape"); ("type", JStr "Tape");
                                         ("read_bandwidth", JStr "1GBps");
                                         ("write_bandwidth", JStr "500MBps")])])].

(** What [cluster_fields_of] reads from the example clusters. *)
Definition example_cluster_fields : cluster_fields :=
  mk_cluster_fields "c0" "n" "" 3 "10Gbps" "1ms" "1Gf" 4 "1Gbps" "10us"
    "100Gbps" "0us" false "" "" "" "".

Definition example_storage_cluster_fields : cluster_fields :=
  mk_cluster_fields "c0" "n" "" 3 "10Gbps" "1ms" "1Gf" 4 "1Gbps" "10us"
    "100Gbps" "0us" true "ssd" "OneDisk" "1GBps" "500MBps".

Definition example_tape_cluster_fields : cluster_fields :=
  mk_cluster_fields "c0" "n" "" 3 "10Gbps" "1ms" "1Gf" 4 "1Gbps" "10us"
    "100Gbps" "0us" true "tape" "Tape" "1GBps" "500MBps".

(** The example cluster without a node. *)
Definition example_empty_cluster : json :=
  JObj [("name", JStr "c0"); ("prefix", JStr "n"); ("suffix", JStr "");
        ("count", JInt (-2));
        ("backbone", bandwidth_latency "10Gbps" "1ms");
        ("node", JObj [("speed", JStr "1Gf"); ("cores", JInt 4);
                       ("private_link", bandwidth_latency "1Gbps" "10us");
                       ("loopback", bandwidth_latency "100Gbps" "0us")])].

(** ** File systems on storage systems *)

(** The state after a round of [create_filesystems] on an entry with a
    ["storage_system"] member. *)
Definition system_mount_effect (name pattern size system : string) (st : state)
    : state :=
  mk_state (zones st) (hosts st) (disks st) (links st) (routers st) (routes st)
    (storages st)
    (filesystems st ++
       [mk_filesystem name max_open_files
          [mk_partition pattern (resolve (storage_map st) (system +:+ "_storage")) size]])
    (registered st ++ [(resolve (zone_map st) system, length (filesystems st))])
    (touch (zone_map st) system)
    (link_map st)
    (touch (storage_map st) (system +:+ "_storage")).

(** A file system entry that names a storage system and a cluster, with
    the placeholder in its mount point. *)
Definition example_both_filesystem : json :=
  JObj [("name", JStr "home"); ("mount_point", JStr "/{hostname}/home/");
        ("size", JStr "10TB"); ("cluster", JStr "c0"); ("storage_system", JStr "pfs")].

(** A file system entry that names neither. *)
Definition example_loose_filesystem : json :=
  JObj [("name", JStr "tmp"); ("mount_point", JStr "/tmp/"); ("size", JStr "1GB")].

(** The platform entities are the same in both states: the file system
    pass has nothing to add to them. *)
Record same_platform (st st' : state) : Prop := mk_same_platform {
  sp_zones : zones st' = zones st;
  sp_hosts : hosts st' = hosts st;
  sp_disks : disks st' = disks st;
  sp_links : links st' = links st;
  sp_routers : routers st' = routers st;
  sp_routes : routes st' = routes st;
  sp_storages : storages st' = storages st;
  sp_link_map : link_map st' = link_map st;
  sp_zone_map : forall k h, zone_map st' !! k = Some (Some h) ->
                  zone_map st !! k = Some (Some h);
  sp_storage_map : forall k h, storage_map st' !! k = Some (Some h) ->
                     storage_map st !! k = Some (Some h) }.

(** No cluster of [facilities] has the name [cluster_name]. *)
Definition no_cluster_named (cluster_name : string) (facilities : list json) : Prop :=
  Forall (fun dc =>
    forall clusters, at_key dc "clusters" = Ok clusters ->
      Forall (fun c => exists n, at_key c "name" = Ok n /\
                                 json_eq_string n cluster_name = false)
        (items clusters))
    facilities.

(** Two facilities with a cluster ["c0"] each: three nodes with a disk in
    the first, two nodes without storage in the second. *)
Definition example_bare_cluster : json :=
  JObj [("name", JStr "c0"); ("prefix", JStr "m"); ("suffix", JStr "");
        ("count", JInt 2);
        ("backbone", bandwidth_latency "10Gbps" "1ms");
        ("node", JObj [("speed", JStr "1Gf"); ("cores", JInt 4);
                       ("private_link", bandwidth_latency "1Gbps" "10us");
                       ("loopback", bandwidth_latency "100Gbps" "0us")])].

Definition example_two_facilities : list json :=
  [JObj [("name", JStr "dc"); ("routing", JStr "full");
         ("clusters", JArr [example_storage_cluster])];
   JObj [("name", JStr "dc2"); ("routing", JStr "full");
         ("clusters", JArr [example_bare_cluster; example_cluster])]].

(** A file system on a cluster that no facility declares. *)
Definition example_lost_filesystem : json :=
  JObj [("name", JStr "scratch"); ("mount_point", JStr "/{hostname}/scratch/");
        ("size", JStr "1TB"); ("cluster", JStr "c9")].

(** ** What a pass builds *)

(** [st'] is [st] with entities added at the end of each list, and every
    zone added is sealed. *)
Record built (st st' : state) : Prop := mk_built {
  built_zones : zones st `prefix_of` zones st';
  built_hosts : hosts st `prefix_of` hosts st';
  built_disks : disks st `prefix_of` disks st';
  built_links : links st `prefix_of` links st';
  built_routers : routers st `prefix_of` routers st';
  built_routes : routes st `prefix_of` routes st';
  built_storages : storages st `prefix_of` storages st';
  built_filesystems : filesystems st `prefix_of` filesystems st';
  built_registered : registered st `prefix_of` registered st';
  built_sealed : forall i z, zones st' !! i = Some z ->
                   (length (zones st) <= i)%nat -> z_sealed z = true }.

(** A facility with a storage system, a cluster, a link and a route
    between the two, and a document with this facility, a second one and
    two file systems. *)
Definition example_site_facility : json :=
  JObj [("name", JStr "dc"); ("routing", JStr "full");
        ("routes", JArr [JObj [("src", JStr "c0"); ("dst", JStr "pfs");
                               ("links", JArr [JStr "c0-pfs"])]]);
        ("links", JArr [JObj [("name", JStr "c0-pfs");
                              ("bandwidth", JStr "20Gbps");
                              ("latency", JStr "1ms")]]);
        ("clusters", JArr [example_storage_cluster]);
        ("storage_systems", JArr [example_jbod_system])].

Definition example_site_document : json :=
  JObj [("facilities",
         JArr [example_site_facility;
               JObj [("name", JStr "dc2"); ("routing", JStr "floyd");
                     ("clusters", JArr [example_empty_cluster])]]);
        ("filesystems",
         JArr [example_scratch_filesystem;
               JObj [("name", JStr "home"); ("mount_point", JStr "/home/");
                     ("size", JStr "10TB"); ("storage_system", JStr "pfs")]])].

(** ** Links between zones *)

(** What [create_inter_zone_links] reads from a link entry, in its
    order. *)
Record link_fields : Type := mk_link_fields {
  lf_name : string;
  lf_bandwidth : string;
  lf_latency : string }.

Definition link_fields_of (link_cfg : json) : result link_fields :=
  let+ name := field_string link_cfg "name" in
  let+ bandwidth := field_string link_cfg "bandwidth" in
  let+ latency := field_string link_cfg "latency" in
  Ok (mk_link_fields name bandwidth latency).

(** Reading every entry of a list, up to the first that fails. *)
Fixpoint all_results {A B} (g : A -> result B) (l : list A) : result (list B) :=
  match l with
  | [] => Ok []
  | x :: rest =>
      let+ y := g x in
      let+ ys := all_results g rest in
      Ok (y :: ys)
  end.

(** Two links between zones with the same name. *)
Definition example_twin_links : json :=
  JArr [JObj [("name", JStr "wan"); ("bandwidth", JStr "10Gbps"); ("latency", JStr "5ms")];
        JObj [("name", JStr "lan"); ("bandwidth", JStr "40Gbps"); ("latency", JStr "1ms")];
        JObj [("name", JStr "wan"); ("bandwidth", JStr "1Gbps"); ("latency", JStr "9ms")]].

(** ** Routes of a facility *)

(** A registry binds [key] to an entity (not to null). *)
Definition bound (m : gmap string (option nat)) (key : string) : Prop :=
  exists h, m !! key = Some (Some h).

(** The ["name"] member of an entry, when it is a string. *)
Definition entry_name (cfg : json) : option string :=
  match field_string cfg "name" with
  | Ok n => Some n
  | _ => None
  end.

(** The names of the entries under the member [key] of a facility. *)
Definition declared_names (dc_config : json) (key : string) : list string :=
  match at_key dc_config key with
  | Ok v => omap entry_name (items v)
  | _ => []
  end.

(** The zones that a round of the facility loop registers: the facility,
    its storage systems and its clusters. *)
Definition facility_zone_names (dc_config : json) : list string :=
  option_list (entry_name dc_config) ++
  declared_names dc_config "storage_systems" ++ declared_names dc_config "clusters".

(** A route whose two ends and whose links are all entities. *)
Definition resolved (r : route) : Prop :=
  is_Some (r_src r) /\ is_Some (r_dst r) /\ Forall is_Some (r_links r).

(** Every name that a registry binds to an entity is still bound to one. *)
Record binds (st st' : state) : Prop := mk_binds {
  binds_zones : forall k, bound (zone_map st) k -> bound (zone_map st') k;
  binds_links : forall k, bound (link_map st) k -> bound (link_map st') k }.

(** What a round of a loop over named entries does to a registry. *)
Definition registers (sel : state -> gmap string (option nat)) (body : json -> M unit)
    : Prop :=
  forall cfg st st', body cfg st = Ok (tt, st') ->
    binds st st' /\ forall n, entry_name cfg = Some n -> bound (sel st') n.

(** ** The shape of the platform *)

(** The zones form a forest under the root in which a zone comes after
    its parent; every host is in a recorded zone and every disk on a
    recorded host. *)
Record tree_ordered (st : state) : Prop := mk_tree_ordered {
  to_parents : forall i z p, zones st !! i = Some z -> z_parent z = ZoneAt p ->
                 (p < i)%nat;
  to_hosts : forall h x, hosts st !! h = Some x -> (h_zone x < length (zones st))%nat;
  to_disks : forall d x, disks st !! d = Some x -> (d_host x < length (hosts st))%nat }.

(** The zones, hosts and disks are the same in both states. *)
Record same_tree (st st' : state) : Prop := mk_same_tree {
  same_zones : zones st' = zones st;
  same_hosts : hosts st' = hosts st;
  same_disks : disks st' = disks st }.

(** ** Names in the registries *)

(** Every name that the registry [m] binds to an entity of [l] binds it
    to one that has this name. *)
Definition names_match {A} (name : A -> string) (l : list A)
    (m : gmap string (option nat)) : Prop :=
  forall k h, m !! k = Some (Some h) -> exists x, l !! h = Some x /\ name x = k.

Record named (st : state) : Prop := mk_named {
  named_zones : names_match z_name (zones st) (zone_map st);
  named_links : names_match l_name (links st) (link_map st);
  named_storages : names_match s_name (storages st) (storage_map st) }.

(** ** Documents without facilities *)

(** A document with file systems and no facility. *)
Definition example_no_facilities : json :=
  JObj [("filesystems", JArr [example_scratch_filesystem; example_loose_filesystem])].

(** ** Builders and the file systems on what they build *)

(** A file system on the storage system of [example_tape_system]. *)
Definition example_archive_filesystem : json :=
  JObj [("name", JStr "backup"); ("mount_point", JStr "/archive/");
        ("size", JStr "1PB"); ("storage_system", JStr "archive")].

(** ** The two levels of zones *)

(** The zones added from [st] to [st'] are children of the zone [d], of
    star or empty routing. *)
Record children_of (d : nat) (st st' : state) : Prop := mk_children_of {
  co_zones : zones st `prefix_of` zones st';
  co_new : forall i z, zones st' !! i = Some z -> (length (zones st) <= i)%nat ->
             z_parent z = ZoneAt d /\ (z_routing z = Star \/ z_routing z = Empty) }.

(** A zone of the first level hangs from the root and has full or Floyd
    routing; a zone of the second level hangs from a zone of the first
    level that was added in the same pass and before it, and has star or
    empty routing. *)
Definition first_level (z : zone) : Prop :=
  z_parent z = RootZone /\ (z_routing z = Full \/ z_routing z = Floyd).

Definition second_level (st st' : state) (i : nat) (z : zone) : Prop :=
  exists p zp,
    z_parent z = ZoneAt p /\ (length (zones st) <= p)%nat /\ (p < i)%nat /\
    zones st' !! p = Some zp /\ first_level zp /\
    (z_routing z = Star \/ z_routing z = Empty).

(** The zones added from [st] to [st'] are in two levels. *)
Record two_levels (st st' : state) : Prop := mk_two_levels {
  tl_zones : zones st `prefix_of` zones st';
  tl_new : forall i z, zones st' !! i = Some z -> (length (zones st) <= i)%nat ->
             first_level z \/ second_level st st' i z }.

(** * The platform summary tool

    [platform_summary.cpp] loads a platform and walks the zone tree of the
    engine.  What it asks the engine is answered from the recorded
    entities. *)

#[global] Instance zone_ref_eq_dec : EqDecision zone_ref.
Proof. solve_decision. Defined.

(** [zone->get_children()]: the zones added to a zone, oldest first. *)
Definition get_children (st : state) (z : zone_ref) : list nat :=
  List.filter
    (fun i => match zones st !! i with
              | Some x => bool_decide (z_parent x = z)
              | None => false
              end)
    (seq 0 (length (zones st))).

(** [host->get_englobing_zone()]. *)
Definition get_englobing_zone (st : state) (h : nat) : option zone_ref :=
  (fun x => ZoneAt (h_zone x)) <$> hosts st !! h.

(** [zone->get_all_hosts()]: the hosts directly in a zone.  A recorded
    host is in a recorded zone, so that the root zone itself has none. *)
Definition get_all_hosts (st : state) (z : zone_ref) : list nat :=
  List.filter (fun h => bool_decide (get_englobing_zone st h = Some z))
    (seq 0 (length (hosts st))).

(** [host->get_disks()]. *)
Definition get_disks (st : state) (h : nat) : list nat :=
  List.filter
    (fun d => match disks st !! d with
              | Some x => Nat.eqb (d_host x) h
              | None => false
              end)
    (seq 0 (length (disks st))).

(** The two counters of [main], both of type [int]. *)
Record totals : Type := mk_totals {
  total_hosts : Z;
  total_disks : Z }.

(** The first loop of the lambda [count]: the hosts of [z] that are
    directly in [z] add one to the hosts and their disks to the disks. *)
Definition count_hosts (st : state) (z : zone_ref) (t : totals) : totals :=
  fold_left
    (fun t h =>
       if bool_decide (get_englobing_zone st h = Some z) then
         mk_totals (wrap_int (total_hosts t + 1))
           (wrap_int (total_disks t + Z.of_nat (length (get_disks st h))))
       else t)
    (get_all_hosts st z) t.

(** The lambda [count]: the hosts of the zone, then every child zone in
    turn.  [fuel] bounds the depth of the recursion; [None] when it runs
    out. *)
Fixpoint count (fuel : nat) (st : state) (z : zone_ref) (t : totals) : option totals :=
  match fuel with
  | O => None
  | S fuel' =>
      fold_left
        (fun acc child =>
           match acc with
           | Some t' => count fuel' st (ZoneAt child) t'
           | None => None
           end)
        (get_children st z) (Some (count_hosts st z t))
  end.

(** The totals that [main] prints in the headers [HOSTS (n)] and
    [DISKS (n)]. *)
Definition summary_totals (fuel : nat) (st : state) : option totals :=
  count fuel st RootZone (mk_totals 0 0).

(** The zones in the order in which [count] comes to them. *)
Fixpoint walk (fuel : nat) (st : state) (z : zone_ref) : list zone_ref :=
  match fuel with
  | O => []
  | S fuel' => z :: flat_map (fun c => walk fuel' st (ZoneAt c)) (get_children st z)
  end.

(** The place of a zone in the order of creation, the root first. *)
Definition rank (z : zone_ref) : nat :=
  match z with
  | RootZone => O
  | ZoneAt k => S k
  end.

(** [fuel] is enough to walk the tree below [z]. *)
Definition enough (fuel : nat) (st : state) (z : zone_ref) : Prop :=
  (rank z <= length (zones st))%nat /\ (length (zones st) < rank z + fuel)%nat.

(** The hosts directly in a zone. *)
Definition own_hosts (st : state) (z : zone_ref) : list nat :=
  List.filter (fun h => bool_decide (get_englobing_zone st h = Some z))
    (seq 0 (length (hosts st))).

(** The parent of the zone with handle [c]. *)
Definition zone_parent (st : state) (c : nat) : zone_ref :=
  match zones st !! c with
  | Some x => z_parent x
  | None => RootZone
  end.

(** The parent of [c] is the root or a zone before [m]. *)
Definition parent_before (st : state) (m c : nat) : bool :=
  match zone_parent st c with
  | RootZone => true
  | ZoneAt p => Nat.ltb p m
  end.

(** The walk of the zones below the zone with handle [c]. *)
Definition subtree (st : state) (c : nat) : list zone_ref :=
  walk (length (zones st)) st (ZoneAt c).

(** The zones before [m], then the subtrees that hang from them or from
    the root and start at [m] or later. *)
Definition cut (st : state) (m : nat) : list zone_ref :=
  map ZoneAt (seq 0 m) ++
  flat_map (subtree st)
    (List.filter (fun c => Nat.leb m c && parent_before st m c)
       (seq 0 (length (zones st)))).

(** The zone of a host and the host of a disk, by handle; a value out of
    range for a handle that is not recorded. *)
Definition host_key (st : state) (h : nat) : nat :=
  match hosts st !! h with
  | Some x => h_zone x
  | None => length (zones st)
  end.

Definition disk_key (st : state) (d : nat) : nat :=
  match disks st !! d with
  | Some x => d_host x
  | None => length (hosts st)
  end.

(** * Properties *)

(** ** The model on small inputs *)

Example to_string_values :
  (to_string 0, to_string 7, to_string 10, to_string 1234) = ("0", "7", "10", "1234").
Proof. reflexivity. Qed.

Example wrap_int_values :
  (wrap_int 3, wrap_int (-1), wrap_int 2147483648, wrap_int 4294967299)
  = (3, -1, -2147483648, 3).
Proof. reflexivity. Qed.

Example find_values :
  (find placeholder "/{hostname}/scratch/", find placeholder "/data/",
   find placeholder "{hostnam", find placeholder "")
  = (Some 1%nat, None, None, None).
Proof. reflexivity. Qed.

Example replace_value :
  replace 1 10 "n0" "/{hostname}/scratch/" = "/n0/scratch/".
Proof. reflexivity. Qed.

Example substitute_hostname_values :
  (substitute_hostname 2 "/{hostname}/a/{hostname}" "n0",
   substitute_hostname 1 "/{hostname}/a/{hostname}" "n0",
   substitute_hostname 2 "{hostname{hostname}" "}0")
  = (Some "/n0/a/n0", None, Some "}00").
Proof. reflexivity. Qed.

Example replace_every_occurrence_values :
  (replace_every_occurrence placeholder "n0" "/{hostname}/a/{hostname}",
   replace_every_occurrence placeholder "}0" "{hostname{hostname}",
   replace_every_occurrence placeholder "n0" "{hostname}")
  = ("/n0/a/n0", "{hostname}0", "n0").
Proof. reflexivity. Qed.

(** ** Generic facts about the monad and the loops *)

(** A loop whose rounds never fail is a fold of their effects. *)
Lemma for_each_total {A} (l : list A) (body : A -> M unit) (g : A -> state -> state) :
  (forall x st, body x st = Ok (tt, g x st)) ->
  forall st, for_each l body st = Ok (tt, fold_left (fun s x => g x s) l st).
Proof.
  intros Hb. induction l as [|x l IH]; intros st; simpl.
  - reflexivity.
  - unfold bind. rewrite Hb. apply IH.
Qed.

Lemma alter_last {A} (f : A -> A) (l : list A) (x : A) :
  alter f (length l) (l ++ [x]) = l ++ [f x].
Proof.
  replace (length l) with (length l + 0)%nat by lia.
  rewrite alter_app_r. reflexivity.
Qed.

Lemma rbind_assoc {A B C} (r : result A) (k1 : A -> result B) (k2 : B -> result C) :
  rbind (rbind r k1) k2 = rbind r (fun x => rbind (k1 x) k2).
Proof. destruct r; reflexivity. Qed.

Lemma rbind_ext {A B} (r : result A) (k1 k2 : A -> result B) :
  (forall x, k1 x = k2 x) -> rbind r k1 = rbind r k2.
Proof. intros H. destruct r; simpl; auto. Qed.

Lemma bind_read_json {B} (j : json) (key : string) (k : json -> M B) (st : state) :
  bind (read_json j key) k st = rbind (at_key j key) (fun v => k v st).
Proof. unfold bind, read_json, lift. destruct (at_key j key); reflexivity. Qed.

Lemma bind_read_string {B} (j : json) (key : string) (k : string -> M B) (st : state) :
  bind (read_string j key) k st = rbind (field_string j key) (fun v => k v st).
Proof.
  unfold bind, read_string, read_json, lift, field_string, bind.
  destruct (at_key j key) as [v| |]; [|reflexivity..].
  simpl. destruct (get_string v); reflexivity.
Qed.

Lemma bind_read_int {B} (j : json) (key : string) (k : Z -> M B) (st : state) :
  bind (read_int j key) k st = rbind (field_int j key) (fun v => k v st).
Proof.
  unfold bind, read_int, read_json, lift, field_int, bind.
  destruct (at_key j key) as [v| |]; [|reflexivity..].
  simpl. destruct (get_int v); reflexivity.
Qed.

Lemma bind_lift {A B} (r : result A) (k : A -> M B) (st : state) :
  bind (lift r) k st = rbind r (fun v => k v st).
Proof. unfold bind, lift. destruct r; reflexivity. Qed.

Lemma bind_ok {A B} (m : M A) (k : A -> M B) (st st' : state) (a : A) :
  m st = Ok (a, st') -> bind m k st = k a st'.
Proof. unfold bind. intros ->. reflexivity. Qed.

(** One read on the left, the same read on the right. *)
Ltac read_step :=
  first [ rewrite bind_read_string | rewrite bind_read_int | rewrite bind_read_json
        | rewrite bind_lift ];
  rewrite ?rbind_assoc; apply rbind_ext; intro.

(** Reading the fields of a state built by the calls. *)
Ltac state_fields :=
  unfold with_zones, with_hosts, with_disks, with_links, with_routers, with_routes,
    with_storages, with_filesystems, with_registered,
    with_zone_map, with_link_map, with_storage_map;
  cbn [zones hosts disks links routers routes storages filesystems registered
       zone_map link_map storage_map fst snd
       z_name z_routing z_parent z_gateway z_sealed h_name h_speed h_cores h_zone
       l_name l_bandwidth l_latency l_policy l_zone
       fs_name fs_max_open_files fs_partitions].

(** One engine or registry call on the left; the state stays a plain
    record of lists. *)
Ltac call_step :=
  erewrite bind_ok by reflexivity; state_fields; rewrite ?alter_last; state_fields.

(** ** The cluster builder *)

Lemma create_cluster_node_effect (f : cluster_fields) (cluster backbone i : nat)
    (st : state) :
  create_cluster_node cluster backbone (cf_prefix f) (cf_suffix f)
    (cf_host_speed f) (cf_host_cores f) (cf_link_bw f) (cf_link_lat f)
    (cf_loopback_bw f) (cf_loopback_lat f) (cf_has_storage f)
    (cf_storage_base_name f) (cf_storage_type f)
    (cf_storage_read_bw f) (cf_storage_write_bw f) i st
  = Ok (tt, node_effect f cluster backbone i st).
Proof.
  unfold create_cluster_node, node_effect, node_disks, node_storages,
    node_storage_kind, node_storage_name, node_host, node_links, node_routes,
    hostname.
  destruct st as [zs hs ds ls rs ros ss fss reg zm lm sm].
  do 2 call_step.
  destruct (cf_has_storage f);
    [destruct (String.eqb (cf_storage_type f) "OneDisk");
       [|destruct (String.eqb (cf_storage_type f) "JBOD")]|];
    repeat call_step;
    unfold add_route, modify; state_fields;
    rewrite ?length_app; cbn [length];
    rewrite ?app_nil_r, <- ?app_assoc; cbn [app];
    rewrite ?Nat.add_1_r, <- ?Nat.add_succ_comm; reflexivity.
Qed.

Lemma length_flat_map_const {A B} (g : A -> list B) (k : nat) (l : list A) :
  (forall x, length (g x) = k) -> length (flat_map g l) = (k * length l)%nat.
Proof.
  intros Hg. induction l as [|x l IH]; simpl.
  - lia.
  - rewrite length_app, Hg, IH. lia.
Qed.

Lemma length_node_disks (f : cluster_fields) (h0 n : nat) :
  cf_has_storage f = true ->
  length (flat_map (fun i => node_disks f (h0 + i) i) (seq 0 n)) = n.
Proof.
  intros Hs. rewrite (length_flat_map_const _ 1).
  - rewrite length_seq. lia.
  - intros x. unfold node_disks. rewrite Hs. reflexivity.
Qed.

Lemma node_storage_kind_has (f : cluster_fields) (k : storage_kind) :
  node_storage_kind f = Some k -> cf_has_storage f = true.
Proof. unfold node_storage_kind. destruct (cf_has_storage f); [reflexivity|discriminate]. Qed.

Lemma length_node_storages (f : cluster_fields) (k : storage_kind) (d0 n : nat) :
  node_storage_kind f = Some k ->
  length (flat_map (fun i => node_storages f (d0 + i) i) (seq 0 n)) = n.
Proof.
  intros Hk. rewrite (length_flat_map_const _ 1).
  - rewrite length_seq. lia.
  - intros x. unfold node_storages. rewrite Hk. reflexivity.
Qed.

Lemma node_loop_effect (f : cluster_fields) (cluster backbone n : nat) (st : state) :
  fold_left (fun s i => node_effect f cluster backbone i s) (seq 0 n) st
  = nodes_effect f cluster backbone n st.
Proof.
  induction n as [|n IH].
  - destruct st. unfold nodes_effect. simpl. rewrite !app_nil_r. reflexivity.
  - rewrite seq_S, fold_left_app, IH. cbn [fold_left Nat.add].
    unfold node_effect, nodes_effect. state_fields.
    rewrite seq_S. cbn [Nat.add].
    rewrite !flat_map_app, map_app, !fold_left_app. cbn [flat_map map fold_left].
    rewrite !app_nil_r, <- !app_assoc.
    rewrite !length_app, length_map, length_seq.
    rewrite (length_flat_map_const (node_links f cluster) 3) by reflexivity.
    rewrite length_seq.
    destruct (node_storage_kind f) as [k|] eqn:Hk.
    + rewrite (length_node_disks f _ n) by (eapply node_storage_kind_has; eassumption).
      erewrite length_node_storages by eassumption. reflexivity.
    + unfold node_storages. rewrite Hk. cbn [flat_map app].
      rewrite !app_nil_r. reflexivity.
Qed.

Lemma create_cluster_zone_effect (parent : nat) (cluster_config : json) (st : state) :
  create_cluster_zone parent cluster_config st =
  rbind (cluster_fields_of cluster_config)
    (fun f => Ok (tt, cluster_effect parent f st)).
Proof.
  unfold create_cluster_zone, cluster_fields_of.
  do 4 read_step. do 2 call_step. do 3 read_step. do 2 call_step.
  do 9 read_step.
  destruct (contains _ "storage"); [do 5 read_step|do 5 call_step]; cbn [rbind].
  all: match goal with |- _ = Ok (tt, cluster_effect _ ?r _) => set (f := r) end.
  all: erewrite bind_ok;
    [|rewrite (for_each_total _ _ (node_effect f _ _))
        by (intros; apply (create_cluster_node_effect f));
      unfold range; rewrite node_loop_effect; reflexivity].
  all: unfold nodes_effect; state_fields.
  all: repeat call_step.
  all: unfold seal, modify; state_fields; rewrite alter_last; state_fields.
  all: unfold cluster_effect; rewrite length_app, <- app_assoc; cbn [length app].
  all: rewrite Nat.add_1_r; reflexivity.
Qed.

Lemma lookup_map_seq {A} (g : nat -> A) (n i : nat) :
  (i < n)%nat -> map g (seq 0 n) !! i = Some (g i).
Proof.
  intros Hi. induction n as [|n IH]; [lia|].
  rewrite seq_S, map_app. cbn [map Nat.add].
  destruct (decide (i = n)) as [->|Hne].
  - rewrite lookup_app_r by (rewrite length_map, length_seq; lia).
    rewrite length_map, length_seq, Nat.sub_diag. reflexivity.
  - rewrite lookup_app_l by (rewrite length_map, length_seq; lia).
    apply IH. lia.
Qed.

(** Round [i] of a loop that appends [k] entries per round owns the
    entries [k * i .. k * i + k - 1]. *)
Lemma lookup_flat_map_seq {A} (g : nat -> list A) (k n i j : nat) :
  (forall x, length (g x) = k) -> (i < n)%nat -> (j < k)%nat ->
  flat_map g (seq 0 n) !! (k * i + j)%nat = g i !! j.
Proof.
  intros Hk Hi Hj. induction n as [|n IH]; [lia|].
  rewrite seq_S, flat_map_app. cbn [flat_map Nat.add]. rewrite app_nil_r.
  assert (Hlen : length (flat_map g (seq 0 n)) = (k * n)%nat)
    by (rewrite (length_flat_map_const g k) by assumption; rewrite length_seq; lia).
  destruct (decide (i = n)) as [->|Hne].
  - rewrite lookup_app_r by lia. rewrite Hlen. f_equal. lia.
  - rewrite lookup_app_l by (rewrite Hlen; nia).
    apply IH. lia.
Qed.

(** C1.  A cluster specification whose [count] is N makes the cluster
    builder add exactly N hosts, 3N + 1 links (the backbone first, then an
    uplink, a downlink and a loopback per host) and 3N routes.  The
    example document compiles to a zone [c0] with the hosts [n0], [n1],
    [n2], 10 links and 9 routes. *)
Theorem cluster_expansion_counts :
  (forall (parent : nat) (cluster_config : json) (f : cluster_fields)
          (st : state) (N : nat),
     cluster_fields_of cluster_config = Ok f ->
     cf_count f = Z.of_nat N ->
     exists st' new_hosts new_links new_routes,
       create_cluster_zone parent cluster_config st = Ok (tt, st') /\
       hosts st' = hosts st ++ new_hosts /\ length new_hosts = N /\
       links st' = links st ++ new_links /\ length new_links = (3 * N + 1)%nat /\
       routes st' = routes st ++ new_routes /\ length new_routes = (3 * N)%nat /\
       Forall (fun h => h_zone h = length (zones st)) new_hosts /\
       Forall (fun l => l_zone l = length (zones st)) new_links /\
       Forall (fun r => r_zone r = length (zones st)) new_routes)
  /\
  (exists st',
     load_platform 0 (Parsed example_document) initial_state = Ok (tt, st') /\
     zone_map st' !! "c0" = Some (Some 1%nat) /\
     zones st' !! 1%nat = Some (mk_zone "c0" Star (ZoneAt 0) (Some 0%nat) true) /\
     map (fun h => (h_name h, h_zone h)) (hosts st')
       = [("n0", 1%nat); ("n1", 1%nat); ("n2", 1%nat)] /\
     map l_name (links st')
       = ["c0_backbone"; "n0_LinkUP"; "n0_LinkDOWN"; "n0_loopback";
          "n1_LinkUP"; "n1_LinkDOWN"; "n1_loopback";
          "n2_LinkUP"; "n2_LinkDOWN"; "n2_loopback"] /\
     length (links st') = 10%nat /\
     length (routes st') = 9%nat).
Proof.
  split.
  - intros parent cluster_config f st N Hf HN.
    rewrite create_cluster_zone_effect, Hf. cbn [rbind].
    eexists _, _, _, _. split; [reflexivity|].
    unfold cluster_effect. state_fields. rewrite HN, Nat2Z.id.
    repeat split.
    + rewrite length_map, length_seq. reflexivity.
    + cbn [length]. rewrite (length_flat_map_const _ 3) by reflexivity.
      rewrite length_seq. lia.
    + rewrite (length_flat_map_const _ 3) by reflexivity.
      rewrite length_seq. lia.
    + apply List.Forall_forall. intros h Hh. apply in_map_iff in Hh.
      destruct Hh as (i & <- & _). reflexivity.
    + apply Forall_cons. split; [reflexivity|].
      apply List.Forall_forall. intros l Hl. apply in_flat_map in Hl.
      destruct Hl as (i & _ & Hl). cbn in Hl.
      destruct Hl as [<-|[<-|[<-|[]]]]; reflexivity.
    + apply List.Forall_forall. intros r Hr. apply in_flat_map in Hr.
      destruct Hr as (i & _ & Hr). cbn in Hr.
      destruct Hr as [<-|[<-|[<-|[]]]]; reflexivity.
  - eexists. split; [vm_compute; reflexivity|].
    vm_compute. repeat split.
Qed.

Lemma cluster_expansion_counts_witness :
  exists st' new_hosts new_links new_routes,
    create_cluster_zone 0 example_cluster initial_state = Ok (tt, st') /\
    hosts st' = hosts initial_state ++ new_hosts /\ length new_hosts = 3%nat /\
    links st' = links initial_state ++ new_links /\
    length new_links = (3 * 3 + 1)%nat /\
    routes st' = routes initial_state ++ new_routes /\
    length new_routes = (3 * 3)%nat /\
    Forall (fun h => h_zone h = length (zones initial_state)) new_hosts /\
    Forall (fun l => l_zone l = length (zones initial_state)) new_links /\
    Forall (fun r => r_zone r = length (zones initial_state)) new_routes.
Proof.
  eapply (proj1 cluster_expansion_counts 0%nat example_cluster _ initial_state 3%nat).
  - vm_compute. reflexivity.
  - reflexivity.
Defined.

(** C2.  For node [i] of a cluster, with host name h: the builder adds
    the host, the links [h_LinkUP], [h_LinkDOWN] and [h_loopback] (the
    last with the fat-pipe policy), and three routes in the cluster zone:
    from the host to the gateway (null end point) through the up link and
    then the backbone, not symmetrical; from the gateway to the host
    through the backbone and then the down link, not symmetrical; from
    the host to itself through the loopback link alone.  The routes of
    the zone are these three per node and no other. *)
Theorem cluster_node_routes (parent : nat) (cluster_config : json)
    (f : cluster_fields) (st : state) (i : nat) :
  cluster_fields_of cluster_config = Ok f ->
  (i < Z.to_nat (cf_count f))%nat ->
  exists st',
    create_cluster_zone parent cluster_config st = Ok (tt, st') /\
    let z := length (zones st) in
    let backbone := length (links st) in
    let h := (length (hosts st) + i)%nat in
    let up := (S backbone + 3 * i)%nat in
    let down := S up in
    let loopback := S down in
    let name := hostname (cf_prefix f) (cf_suffix f) i in
    let r := (length (routes st) + 3 * i)%nat in
    hosts st' !! h = Some (mk_host name (cf_host_speed f) (cf_host_cores f) z) /\
    links st' !! backbone
      = Some (mk_link (cf_name f +:+ "_backbone") (cf_backbone_bw f)
                (Some (cf_backbone_lat f)) SHARED z) /\
    links st' !! up
      = Some (mk_link (name +:+ "_LinkUP") (cf_link_bw f)
                (Some (cf_link_lat f)) SHARED z) /\
    links st' !! down
      = Some (mk_link (name +:+ "_LinkDOWN") (cf_link_bw f)
                (Some (cf_link_lat f)) SHARED z) /\
    links st' !! loopback
      = Some (mk_link (name +:+ "_loopback") (cf_loopback_bw f)
                (Some (cf_loopback_lat f)) FATPIPE z) /\
    routes st' !! r
      = Some (mk_route z (Some (HostEnd h)) None [Some up; Some backbone] (Some false)) /\
    routes st' !! S r
      = Some (mk_route z None (Some (HostEnd h)) [Some backbone; Some down] (Some false)) /\
    routes st' !! S (S r)
      = Some (mk_route z (Some (HostEnd h)) (Some (HostEnd h)) [Some loopback] None) /\
    routes st' = routes st ++
      flat_map (fun k => node_routes z backbone (length (hosts st) + k)
                           (S backbone + 3 * k))
        (seq 0 (Z.to_nat (cf_count f))).
Proof.
  intros Hf Hi.
  rewrite create_cluster_zone_effect, Hf. cbn [rbind].
  eexists. split; [reflexivity|].
  unfold cluster_effect. state_fields. cbv zeta.
  set (n := Z.to_nat (cf_count f)) in *.
  set (z := length (zones st)).
  assert (Hl : forall j, (j < 3)%nat ->
            (links st ++
             mk_link (cf_name f +:+ "_backbone") (cf_backbone_bw f)
               (Some (cf_backbone_lat f)) SHARED z
             :: flat_map (node_links f z) (seq 0 n))
              !! (S (length (links st)) + 3 * i + j)%nat
            = node_links f z i !! j).
  { intros j Hj. rewrite lookup_app_r by lia.
    replace (S (length (links st)) + 3 * i + j - length (links st))%nat
      with (S (3 * i + j)) by lia.
    cbn [lookup list_lookup].
    apply (lookup_flat_map_seq (node_links f z) 3); [reflexivity|lia|lia]. }
  assert (Hr : forall j, (j < 3)%nat ->
            (routes st ++
             flat_map (fun k => node_routes z (length (links st))
                                  (length (hosts st) + k)
                                  (S (length (links st)) + 3 * k)) (seq 0 n))
              !! (length (routes st) + 3 * i + j)%nat
            = node_routes z (length (links st)) (length (hosts st) + i)
                (S (length (links st)) + 3 * i) !! j).
  { intros j Hj. rewrite lookup_app_r by lia.
    replace (length (routes st) + 3 * i + j - length (routes st))%nat
      with (3 * i + j)%nat by lia.
    apply (lookup_flat_map_seq
             (fun k => node_routes z (length (links st)) (length (hosts st) + k)
                         (S (length (links st)) + 3 * k)) 3);
      [reflexivity|lia|lia]. }
  repeat split.
  - rewrite lookup_app_r by lia.
    replace (length (hosts st) + i - length (hosts st))%nat with i by lia.
    apply (lookup_map_seq (node_host f z)). exact Hi.
  - rewrite lookup_app_r by lia. rewrite Nat.sub_diag. reflexivity.
  - specialize (Hl 0%nat). rewrite Nat.add_0_r in Hl. apply Hl. lia.
  - specialize (Hl 1%nat). rewrite Nat.add_1_r in Hl. apply Hl. lia.
  - specialize (Hl 2%nat).
    replace (S (S (S (length (links st)) + 3 * i)))%nat
      with (S (length (links st)) + 3 * i + 2)%nat by lia.
    apply Hl. lia.
  - specialize (Hr 0%nat). rewrite Nat.add_0_r in Hr. apply Hr. lia.
  - specialize (Hr 1%nat). rewrite Nat.add_1_r in Hr. apply Hr. lia.
  - specialize (Hr 2%nat).
    replace (S (S (length (routes st) + 3 * i)))%nat
      with (length (routes st) + 3 * i + 2)%nat by lia.
    apply Hr. lia.
Qed.

Lemma cluster_node_routes_witness :
  exists st',
    create_cluster_zone 0 example_cluster initial_state = Ok (tt, st') /\
    hosts st' !! 1%nat = Some (mk_host "n1" "1Gf" 4 0) /\
    links st' !! 0%nat = Some (mk_link "c0_backbone" "10Gbps" (Some "1ms") SHARED 0) /\
    links st' !! 4%nat = Some (mk_link "n1_LinkUP" "1Gbps" (Some "10us") SHARED 0) /\
    links st' !! 5%nat = Some (mk_link "n1_LinkDOWN" "1Gbps" (Some "10us") SHARED 0) /\
    links st' !! 6%nat = Some (mk_link "n1_loopback" "100Gbps" (Some "0us") FATPIPE 0) /\
    routes st' !! 3%nat
      = Some (mk_route 0 (Some (HostEnd 1)) None [Some 4%nat; Some 0%nat] (Some false)) /\
    routes st' !! 4%nat
      = Some (mk_route 0 None (Some (HostEnd 1)) [Some 0%nat; Some 5%nat] (Some false)) /\
    routes st' !! 5%nat
      = Some (mk_route 0 (Some (HostEnd 1)) (Some (HostEnd 1)) [Some 6%nat] None).
Proof.
  destruct (cluster_node_routes 0 example_cluster
              (mk_cluster_fields "c0" "n" "" 3 "10Gbps" "1ms" "1Gf" 4
                 "1Gbps" "10us" "100Gbps" "0us" false "" "" "" "")
              initial_state 1)
    as (st' & Hrun & Hh & Hb & Hu & Hd & Hl & Hr1 & Hr2 & Hr3 & _).
  - vm_compute. reflexivity.
  - vm_compute. lia.
  - exists st'. repeat split; assumption.
Defined.

(** ** The storage system builder *)

Lemma for_collect_add_disk (server : nat) (name : nat -> string)
    (read_bw write_bw : string) (n a : nat) (st : state) :
  for_collect (seq a n) (fun i => add_disk server (name i) read_bw write_bw) st
  = Ok (seq (length (disks st)) n,
        with_disks (fun l =>
          l ++ map (fun i => mk_disk (name i) read_bw write_bw server) (seq a n)) st).
Proof.
  revert a st. induction n as [|n IH]; intros a st.
  - destruct st. unfold with_disks. cbn. rewrite app_nil_r. reflexivity.
  - cbn [seq for_collect]. call_step.
    erewrite bind_ok by apply IH. state_fields.
    unfold ret. rewrite length_app, Nat.add_1_r, <- app_assoc. reflexivity.
Qed.

Lemma create_storage_system_zone_effect (parent : nat) (storage_config : json)
    (st : state) :
  create_storage_system_zone parent storage_config st =
  rbind (storage_fields_of storage_config)
    (fun f => Ok (tt, storage_system_effect parent f st)).
Proof.
  unfold create_storage_system_zone, storage_fields_of.
  read_step. do 2 call_step. read_step. call_step. do 4 read_step.
  cbn [rbind]. unfold storage_system_effect, storage_system_disks,
    storage_system_storages, storage_system_kind, jbod_disk.
  cbn [sf_name sf_server_speed sf_type sf_disk_count sf_read_bw sf_write_bw].
  destruct (String.eqb _ "JBOD"); [|destruct (String.eqb _ "OneDisk")].
  - unfold range. erewrite bind_ok;
      [|erewrite bind_ok by apply for_collect_add_disk; state_fields;
        repeat call_step; reflexivity].
    unfold seal, modify. state_fields. rewrite alter_last. state_fields.
    reflexivity.
  - repeat call_step. unfold seal, modify. state_fields.
    rewrite alter_last. state_fields. reflexivity.
  - call_step. unfold seal, modify. state_fields.
    rewrite alter_last, !app_nil_r. state_fields. reflexivity.
Qed.

(** C6.  A storage system specification whose type is neither "OneDisk"
    nor "JBOD" makes the builder complete normally: the zone is created,
    registered and sealed and holds the server host, while no disk and no
    storage device is created and the storage registry is left as it was,
    so the name [<name>_storage] is absent from it if it was before. *)
Theorem unsupported_storage_type_skipped (parent : nat) (storage_config : json)
    (f : storage_fields) (st : state) :
  storage_fields_of storage_config = Ok f ->
  sf_type f <> "OneDisk" ->
  sf_type f <> "JBOD" ->
  exists st',
    create_storage_system_zone parent storage_config st = Ok (tt, st') /\
    storage_map st' = storage_map st /\
    storages st' = storages st /\
    disks st' = disks st /\
    (storage_map st !! (sf_name f +:+ "_storage") = None ->
     storage_map st' !! (sf_name f +:+ "_storage") = None) /\
    zones st' = zones st ++ [mk_zone (sf_name f) Empty (ZoneAt parent) None true] /\
    zone_map st' !! sf_name f = Some (Some (length (zones st))) /\
    hosts st' = hosts st ++
      [mk_host (sf_name f +:+ "_server") (sf_server_speed f) 1 (length (zones st))].
Proof.
  intros Hf Hone Hjbod.
  rewrite create_storage_system_zone_effect, Hf. cbn [rbind].
  eexists. split; [reflexivity|].
  unfold storage_system_effect, storage_system_disks, storage_system_storages,
    storage_system_kind.
  apply String.eqb_neq in Hone, Hjbod. rewrite Hone, Hjbod.
  state_fields. rewrite !app_nil_r.
  repeat split; [auto|apply lookup_insert_eq].
Qed.

Lemma unsupported_storage_type_skipped_witness :
  exists st',
    create_storage_system_zone 0 example_tape_system initial_state = Ok (tt, st') /\
    storage_map st' = storage_map initial_state /\
    storages st' = storages initial_state /\
    disks st' = disks initial_state /\
    (storage_map initial_state !! ("archive" +:+ "_storage") = None ->
     storage_map st' !! ("archive" +:+ "_storage") = None) /\
    zones st' = zones initial_state ++ [mk_zone "archive" Empty (ZoneAt 0) None true] /\
    zone_map st' !! "archive" = Some (Some (length (zones initial_state))) /\
    hosts st' = hosts initial_state ++
      [mk_host ("archive" +:+ "_server") "1Gf" 1 (length (zones initial_state))].
Proof.
  apply (unsupported_storage_type_skipped 0 example_tape_system
           (mk_storage_fields "archive" "1Gf" "Tape" 4 "100MBps" "50MBps")
           initial_state).
  - vm_compute. reflexivity.
  - discriminate.
  - discriminate.
Defined.

(** ** What no call of the loader undoes *)

Lemma kept_refl {A B} (key : A -> B) (l : list A) : kept key l l.
Proof. intros i x H. eauto. Qed.

Lemma kept_trans {A B} (key : A -> B) (l1 l2 l3 : list A) :
  kept key l1 l2 -> kept key l2 l3 -> kept key l1 l3.
Proof.
  intros H12 H23 i x H.
  destruct (H12 i x H) as (x2 & H2 & E2).
  destruct (H23 i x2 H2) as (x3 & H3 & E3).
  exists x3. split; [assumption|congruence].
Qed.

Lemma kept_app {A B} (key : A -> B) (l new : list A) : kept key l (l ++ new).
Proof. intros i x H. exists x. split; [apply lookup_app_l_Some; assumption|reflexivity]. Qed.

Lemma kept_alter {A B} (key : A -> B) (f : A -> A) (l : list A) (n : nat) :
  (forall x, key (f x) = key x) -> kept key l (alter f n l).
Proof.
  intros Hf i x H. destruct (decide (n = i)) as [->|Hne].
  - exists (f x). rewrite list_lookup_alter_eq, H. split; [reflexivity|apply Hf].
  - exists x. rewrite list_lookup_alter_ne by assumption. split; [assumption|reflexivity].
Qed.

Lemma kept_length {A B} (key : A -> B) (l l' : list A) :
  kept key l l' -> (length l <= length l')%nat.
Proof.
  intros H. destruct (decide (length l <= length l')%nat) as [|Hgt]; [assumption|].
  destruct (lookup_lt_is_Some_2 l (length l')) as [x Hx]; [lia|].
  destruct (H _ _ Hx) as (x' & Hx' & _).
  apply lookup_lt_Some in Hx'. lia.
Qed.

Lemma extends_refl (st : state) : extends st st.
Proof.
  constructor; try apply kept_refl; try reflexivity.
  intros i x Hx Hi. apply lookup_lt_Some in Hx. lia.
Qed.

Lemma extends_trans (st1 st2 st3 : state) :
  extends st1 st2 -> extends st2 st3 -> extends st1 st3.
Proof.
  intros [Z1 F1 C1 ZM1 LM1 SM1] [Z2 F2 C2 ZM2 LM2 SM2].
  constructor; try (eapply kept_trans; eassumption); try (etrans; eassumption).
  intros i x Hx Hi.
  destruct (decide (length (filesystems st2) <= i)%nat) as [Hge|Hlt].
  - eapply C2; eassumption.
  - destruct (lookup_lt_is_Some_2 (filesystems st2) i) as [x2 Hx2]; [lia|].
    destruct (F2 _ _ Hx2) as (x3 & Hx3 & E).
    assert (x3 = x) by congruence. subst x3.
    injection E as _ E. rewrite E. eapply C1; eassumption.
Qed.

Section Post.
Context (R : state -> state -> Prop).
Hypothesis R_refl : forall st, R st st.
Hypothesis R_trans : forall st1 st2 st3, R st1 st2 -> R st2 st3 -> R st1 st3.

Lemma post_ret {A} (a : A) : post R (ret a).
Proof. intros st b st' [= _ <-]. apply R_refl. Qed.

Lemma post_lift {A} (r : result A) : post R (lift r).
Proof. intros st b st'. unfold lift. destruct r; intros [= _ <-]. apply R_refl. Qed.

Lemma post_bind {A B} (m : M A) (k : A -> M B) :
  post R m -> (forall a, post R (k a)) -> post R (bind m k).
Proof.
  intros Hm Hk st b st'. unfold bind.
  destruct (m st) as [[a st1]| |] eqn:E; [|discriminate..].
  intros H. eapply R_trans; [eapply Hm|eapply Hk]; eassumption.
Qed.

Lemma post_for_each {A} (l : list A) (body : A -> M unit) :
  (forall x, post R (body x)) -> post R (for_each l body).
Proof.
  intros Hb. induction l as [|x l IH]; cbn [for_each].
  - apply post_ret.
  - apply post_bind; [apply Hb|intros _; apply IH].
Qed.

Lemma post_for_collect {A B} (l : list A) (body : A -> M B) :
  (forall x, post R (body x)) -> post R (for_collect l body).
Proof.
  intros Hb. induction l as [|x l IH]; cbn [for_collect].
  - apply post_ret.
  - apply post_bind; [apply Hb|intros b].
    apply post_bind; [apply IH|intros bs; apply post_ret].
Qed.

Lemma post_read_json (j : json) (key : string) : post R (read_json j key).
Proof. apply post_lift. Qed.

Lemma post_read_string (j : json) (key : string) : post R (read_string j key).
Proof. apply post_bind; [apply post_lift|intros; apply post_lift]. Qed.

Lemma post_read_int (j : json) (key : string) : post R (read_int j key).
Proof. apply post_bind; [apply post_lift|intros; apply post_lift]. Qed.
End Post.

Lemma map_at_dom (m : gmap string (option nat)) (key : string) :
  dom m ⊆ dom (snd (map_at m key)).
Proof.
  unfold map_at. destruct (m !! key); cbn [snd]; [reflexivity|].
  apply dom_insert_subseteq.
Qed.

Lemma map_at_lookup (m : gmap string (option nat)) (key : string) :
  snd (map_at m key) !! key = Some (fst (map_at m key)).
Proof.
  unfold map_at. destruct (m !! key) eqn:E; cbn [fst snd]; [assumption|].
  apply lookup_insert_eq.
Qed.

(** Calls that leave the list of file systems alone create none. *)
Lemma no_filesystem_created (l : list filesystem) :
  forall i x, l !! i = Some x -> (length l <= i)%nat ->
  fs_max_open_files x = max_open_files.
Proof. intros i x Hx Hi. apply lookup_lt_Some in Hx. lia. Qed.

Ltac call_extends :=
  let st := fresh "st" in
  intros st ? ? [= _ <-];
  constructor; state_fields;
  first [ apply kept_refl | apply kept_app | apply kept_alter; reflexivity
        | apply no_filesystem_created | reflexivity
        | apply dom_insert_subseteq | apply map_at_dom | idtac ].

Lemma add_netzone_extends kind parent name : post extends (add_netzone kind parent name).
Proof. unfold add_netzone. call_extends. Qed.

Lemma seal_extends z : post extends (seal z).
Proof. unfold seal, modify. call_extends. Qed.

Lemma set_gateway_extends z r : post extends (set_gateway z r).
Proof. unfold set_gateway, modify. call_extends. Qed.

Lemma add_router_extends z name : post extends (add_router z name).
Proof. unfold add_router. call_extends. Qed.

Lemma add_host_extends z name speed : post extends (add_host z name speed).
Proof. unfold add_host. call_extends. Qed.

Lemma set_core_count_extends h cores : post extends (set_core_count h cores).
Proof. unfold set_core_count. call_extends. Qed.

Lemma add_disk_extends h name r w : post extends (add_disk h name r w).
Proof. unfold add_disk. call_extends. Qed.

Lemma add_link_extends z name bw : post extends (add_link z name bw).
Proof. unfold add_link. call_extends. Qed.

Lemma set_latency_extends l lat : post extends (set_latency l lat).
Proof. unfold set_latency. call_extends. Qed.

Lemma set_sharing_policy_extends l p : post extends (set_sharing_policy l p).
Proof. unfold set_sharing_policy. call_extends. Qed.

Lemma add_route_extends z src dst ls sym : post extends (add_route z src dst ls sym).
Proof. unfold add_route, modify. call_extends. Qed.

Lemma one_disk_storage_create_extends name d :
  post extends (one_disk_storage_create name d).
Proof. unfold one_disk_storage_create. call_extends. Qed.

Lemma jbod_storage_create_extends name ds : post extends (jbod_storage_create name ds).
Proof. unfold jbod_storage_create. call_extends. Qed.

Lemma file_system_create_extends name :
  post extends (file_system_create name max_open_files).
Proof.
  unfold file_system_create. call_extends.
  intros i x Hx Hi. rewrite lookup_app_r in Hx by assumption.
  apply list_lookup_singleton_Some in Hx. destruct Hx as [_ <-]. reflexivity.
Qed.

Lemma mount_partition_extends fs mp sto size :
  post extends (mount_partition fs mp sto size).
Proof.
  unfold mount_partition, modify. call_extends.
  intros i x Hx Hi. apply lookup_lt_Some in Hx. rewrite length_alter in Hx. lia.
Qed.

Lemma register_file_system_extends z fs : post extends (register_file_system z fs).
Proof. unfold register_file_system, modify. call_extends. Qed.

Lemma zone_map_set_extends name z : post extends (zone_map_set name z).
Proof. unfold zone_map_set, modify. call_extends. Qed.

Lemma link_map_set_extends name l : post extends (link_map_set name l).
Proof. unfold link_map_set, modify. call_extends. Qed.

Lemma storage_map_set_extends name s : post extends (storage_map_set name s).
Proof. unfold storage_map_set, modify. call_extends. Qed.

Lemma zone_map_at_extends name : post extends (zone_map_at name).
Proof. unfold zone_map_at. call_extends. Qed.

Lemma link_map_at_extends name : post extends (link_map_at name).
Proof. unfold link_map_at. call_extends. Qed.

Lemma storage_map_at_extends name : post extends (storage_map_at name).
Proof. unfold storage_map_at. call_extends. Qed.

Lemma post_timeout {A} (R : state -> state -> Prop) : post R (fun _ => @Timeout (A * state)).
Proof. intros st a st' H. discriminate. Qed.

Ltac extends_step :=
  first
    [ apply (post_ret extends extends_refl)
    | apply (post_lift extends extends_refl)
    | apply (post_read_json extends extends_refl)
    | apply (post_read_string extends extends_refl extends_trans)
    | apply (post_read_int extends extends_refl extends_trans)
    | apply post_timeout
    | apply add_netzone_extends | apply seal_extends | apply set_gateway_extends
    | apply add_router_extends | apply add_host_extends | apply set_core_count_extends
    | apply add_disk_extends | apply add_link_extends | apply set_latency_extends
    | apply set_sharing_policy_extends | apply add_route_extends
    | apply one_disk_storage_create_extends | apply jbod_storage_create_extends
    | apply file_system_create_extends | apply mount_partition_extends
    | apply register_file_system_extends
    | apply zone_map_set_extends | apply link_map_set_extends
    | apply storage_map_set_extends
    | apply zone_map_at_extends | apply link_map_at_extends
    | apply storage_map_at_extends
    | apply (post_for_each extends extends_refl extends_trans); intro
    | apply (post_for_collect extends extends_refl extends_trans); intro
    | apply (post_bind extends extends_trans); [|intro]
    | match goal with
      | |- post _ (if ?b then _ else _) => destruct b
      | |- post _ (match ?o with Some _ => _ | None => _ end) => destruct o
      end ].

Ltac extends_steps := cbv zeta; repeat extends_step.

Lemma create_storage_system_zone_extends parent cfg :
  post extends (create_storage_system_zone parent cfg).
Proof. unfold create_storage_system_zone. extends_steps. Qed.

Lemma create_cluster_zone_extends parent cfg :
  post extends (create_cluster_zone parent cfg).
Proof. unfold create_cluster_zone, create_cluster_node. extends_steps. Qed.

Lemma create_inter_zone_links_extends datacenter cfg :
  post extends (create_inter_zone_links datacenter cfg).
Proof. unfold create_inter_zone_links, create_inter_zone_link. extends_steps. Qed.

Lemma create_routes_extends datacenter cfg :
  post extends (create_routes datacenter cfg).
Proof. unfold create_routes, create_route. extends_steps. Qed.

Lemma create_filesystems_extends fuel fss cfg :
  post extends (create_filesystems fuel fss cfg).
Proof.
  unfold create_filesystems, create_filesystem, mount_cluster_node. extends_steps.
Qed.

Lemma create_facility_zone_extends cfg : post extends (create_facility_zone cfg).
Proof. unfold create_facility_zone. extends_steps. Qed.

(** The part of a round of the facility loop after the zone exists. *)
Lemma facility_sections_extends cfg datacenter :
  post extends
    ((if contains cfg "storage_systems" then
        let* cfgs := read_json cfg "storage_systems" in
        for_each (items cfgs) (create_storage_system_zone datacenter)
      else ret tt) >>
     (if contains cfg "clusters" then
        let* cfgs := read_json cfg "clusters" in
        for_each (items cfgs) (create_cluster_zone datacenter)
      else ret tt) >>
     (if contains cfg "links" then
        let* c := read_json cfg "links" in
        create_inter_zone_links datacenter c
      else ret tt) >>
     (if contains cfg "routes" then
        let* c := read_json cfg "routes" in
        create_routes datacenter c
      else ret tt) >>
     seal datacenter).
Proof.
  repeat first
    [ apply create_storage_system_zone_extends | apply create_cluster_zone_extends
    | apply create_inter_zone_links_extends | apply create_routes_extends
    | extends_step ].
Qed.

Lemma load_facility_extends cfg : post extends (load_facility cfg).
Proof.
  unfold load_facility.
  apply (post_bind extends extends_trans);
    [apply create_facility_zone_extends|intro; apply facility_sections_extends].
Qed.

Lemma compile_extends fuel config : post extends (compile fuel config).
Proof.
  unfold compile. cbv zeta.
  repeat first
    [ apply load_facility_extends | apply create_filesystems_extends | extends_step ].
Qed.

Lemma load_platform_extends fuel src : post extends (load_platform fuel src).
Proof.
  destruct src; cbn [load_platform];
    [apply (post_lift extends extends_refl)|apply compile_extends].
Qed.

(** ** The facility zone *)

(** C4, as claimed, fails for an unspecified routing: the loader reads the
    ["routing"] member of every facility entry, and an entry without it
    ends the pass ([key_absent]) before any zone is created. *)
Lemma missing_routing_fails :
  contains (JObj [("name", JStr "dc")]) "routing" = false /\
  create_facility_zone (JObj [("name", JStr "dc")]) initial_state = Err key_absent /\
  load_platform 0 (Parsed example_no_routing) initial_state = Err key_absent.
Proof. repeat split. Qed.

(** C4, amended.  A facility entry whose ["routing"] member is a string
    other than "full" and "floyd" gets a zone with full routing, under the
    root zone and registered under the facility name, and no error is
    raised for it; whatever the rest of the round adds, the zone keeps
    that routing; an entry without any section completes with the zone
    sealed. *)
Theorem unrecognized_routing_defaults_to_full (dc_config : json)
    (name routing_name : string) (st : state) :
  field_string dc_config "name" = Ok name ->
  field_string dc_config "routing" = Ok routing_name ->
  routing_name <> "full" ->
  routing_name <> "floyd" ->
  create_facility_zone dc_config st
    = Ok (length (zones st),
          with_zone_map (fun m => <[name := Some (length (zones st))]> m)
            (with_zones (fun l => l ++ [mk_zone name Full RootZone None false]) st)) /\
  (forall st', load_facility dc_config st = Ok (tt, st') ->
     exists z, zones st' !! length (zones st) = Some z /\
               z_name z = name /\ z_routing z = Full /\ z_parent z = RootZone) /\
  (contains dc_config "storage_systems" = false ->
   contains dc_config "clusters" = false ->
   contains dc_config "links" = false ->
   contains dc_config "routes" = false ->
   load_facility dc_config st
     = Ok (tt,
           with_zone_map (fun m => <[name := Some (length (zones st))]> m)
             (with_zones (fun l => l ++ [mk_zone name Full RootZone None true]) st))).
Proof.
  intros Hname Hrouting Hfull Hfloyd.
  apply String.eqb_neq in Hfull, Hfloyd.
  assert (Hzone : create_facility_zone dc_config st
    = Ok (length (zones st),
          with_zone_map (fun m => <[name := Some (length (zones st))]> m)
            (with_zones (fun l => l ++ [mk_zone name Full RootZone None false]) st))).
  { unfold create_facility_zone.
    rewrite bind_read_string, Hname. cbn [rbind].
    rewrite bind_read_string, Hrouting. cbn [rbind].
    rewrite Hfull, Hfloyd. reflexivity. }
  split; [exact Hzone|]. split.
  - intros st' Hrun. unfold load_facility in Hrun.
    rewrite (bind_ok _ _ _ _ _ Hzone) in Hrun.
    apply facility_sections_extends in Hrun.
    destruct (ext_zones _ _ Hrun (length (zones st))
                (mk_zone name Full RootZone None false)) as (z & Hz & Hkey).
    + state_fields. rewrite lookup_app_r by lia. rewrite Nat.sub_diag. reflexivity.
    + exists z. injection Hkey as -> -> ->. auto.
  - intros H1 H2 H3 H4. unfold load_facility.
    rewrite (bind_ok _ _ _ _ _ Hzone), H1, H2, H3, H4.
    repeat call_step. unfold seal, modify. state_fields.
    rewrite alter_last. reflexivity.
Qed.

Lemma unrecognized_routing_defaults_to_full_witness :
  create_facility_zone example_dijkstra_facility initial_state
    = Ok (0%nat, mk_state [mk_zone "dc" Full RootZone None false] [] [] [] [] [] [] [] []
                   {["dc" := Some 0%nat]} ∅ ∅) /\
  load_facility example_dijkstra_facility initial_state
    = Ok (tt, mk_state [mk_zone "dc" Full RootZone None true] [] [] [] [] [] [] [] []
                {["dc" := Some 0%nat]} ∅ ∅).
Proof.
  destruct (unrecognized_routing_defaults_to_full example_dijkstra_facility
              "dc" "dijkstra" initial_state) as (Hzone & _ & Hload);
    [reflexivity|reflexivity|discriminate|discriminate|].
  split; [exact Hzone|].
  apply Hload; reflexivity.
Defined.

(** ** The file system pass *)

Lemma same_filesystem_count_refl (st : state) : same_filesystem_count st st.
Proof. reflexivity. Qed.

Lemma same_filesystem_count_trans (st1 st2 st3 : state) :
  same_filesystem_count st1 st2 -> same_filesystem_count st2 st3 ->
  same_filesystem_count st1 st3.
Proof. unfold same_filesystem_count. congruence. Qed.

(** After the file system of a round is created, the round creates no
    other. *)
Lemma mount_round_count (fuel fs : nat) (platform_config fs_cfg : json)
    (pattern size : string) :
  post same_filesystem_count
    (if contains fs_cfg "storage_system" then
       let* storage_system_name := read_string fs_cfg "storage_system" in
       let storage_name := storage_system_name +:+ "_storage" in
       let* zone := zone_map_at storage_system_name in
       let* sto := storage_map_at storage_name in
       mount_partition fs pattern sto size >>
       register_file_system zone fs
     else if contains fs_cfg "cluster" then
       let* cluster_name := read_string fs_cfg "cluster" in
       let* facilities := read_json platform_config "facilities" in
       let* info := lift (scan_facilities (items facilities) cluster_name
                            (mk_cluster_info "" "" "" 0)) in
       for_each (range (ci_count info))
         (mount_cluster_node fuel fs pattern size info) >>
       let* zone := zone_map_at cluster_name in
       register_file_system zone fs
     else ret tt).
Proof.
  unfold mount_cluster_node. cbv zeta.
  repeat first
    [ apply (post_ret _ same_filesystem_count_refl)
    | apply (post_lift _ same_filesystem_count_refl)
    | apply (post_read_json _ same_filesystem_count_refl)
    | apply (post_read_string _ same_filesystem_count_refl same_filesystem_count_trans)
    | apply post_timeout
    | apply (post_for_each _ same_filesystem_count_refl same_filesystem_count_trans);
      intro
    | apply (post_bind _ same_filesystem_count_trans); [|intro]
    | match goal with
      | |- post _ (if ?b then _ else _) => destruct b
      | |- post _ (match ?o with Some _ => _ | None => _ end) => destruct o
      end
    | (intros ? ? ? [= _ <-]; unfold same_filesystem_count; state_fields;
       rewrite ?length_alter; reflexivity) ].
Qed.

Lemma create_filesystem_count (fuel : nat) (platform_config fs_cfg : json)
    (st st' : state) :
  create_filesystem fuel platform_config fs_cfg st = Ok (tt, st') ->
  length (filesystems st') = S (length (filesystems st)).
Proof.
  unfold create_filesystem. intros H.
  rewrite bind_read_string in H.
  destruct (field_string fs_cfg "name") as [name| |]; [|discriminate..].
  cbn [rbind] in H. rewrite bind_read_string in H.
  destruct (field_string fs_cfg "mount_point") as [pattern| |]; [|discriminate..].
  cbn [rbind] in H. rewrite bind_read_string in H.
  destruct (field_string fs_cfg "size") as [size| |]; [|discriminate..].
  cbn [rbind] in H. erewrite bind_ok in H by reflexivity.
  apply mount_round_count in H. unfold same_filesystem_count in H.
  rewrite H. unfold with_filesystems. state_fields.
  rewrite length_app. cbn [length]. lia.
Qed.

Lemma create_filesystems_count (fuel : nat) (platform_config : json) (l : list json) :
  forall st st',
    for_each l (create_filesystem fuel platform_config) st = Ok (tt, st') ->
    length (filesystems st') = (length (filesystems st) + length l)%nat.
Proof.
  induction l as [|x l IH]; intros st st' H; cbn [for_each] in H.
  - injection H as <-. cbn [length]. lia.
  - unfold bind in H.
    destruct (create_filesystem fuel platform_config x st) as [[[] st1]| |] eqn:E;
      [|discriminate..].
    apply create_filesystem_count in E. apply IH in H.
    rewrite H, E. cbn [length]. lia.
Qed.

(** C9.  The file system pass creates one file system per entry of the
    document, and every one of them has the limit 100000000 on open
    files, whatever the document says; the file systems that existed
    before the pass keep their name and limit.  A first pass of the
    loader leaves no file system with another limit. *)
Theorem filesystem_limit_constant (fuel : nat) (src : config_source)
    (filesystems_config platform_config : json) (st st' : state) :
  (create_filesystems fuel filesystems_config platform_config st = Ok (tt, st') ->
   length (filesystems st')
     = (length (filesystems st) + length (items filesystems_config))%nat /\
   (forall i x, filesystems st' !! i = Some x ->
      (length (filesystems st) <= i)%nat -> fs_max_open_files x = 100000000) /\
   (forall i x, filesystems st !! i = Some x ->
      exists x', filesystems st' !! i = Some x' /\
                 fs_name x' = fs_name x /\
                 fs_max_open_files x' = fs_max_open_files x)) /\
  (load_platform fuel src initial_state = Ok (tt, st') ->
   Forall (fun x => fs_max_open_files x = 100000000) (filesystems st')).
Proof.
  split.
  - intros Hrun. pose proof (create_filesystems_count _ _ _ _ _ Hrun) as Hcount.
    apply create_filesystems_extends in Hrun. split; [exact Hcount|]. split.
    + intros i x Hx Hi. eapply (ext_created _ _ Hrun); eassumption.
    + intros i x Hx. destruct (ext_filesystems _ _ Hrun i x Hx) as (x' & Hx' & Hkey).
      exists x'. injection Hkey as -> ->. auto.
  - intros Hrun. apply load_platform_extends in Hrun.
    apply Forall_lookup. intros i x Hx.
    eapply (ext_created _ _ Hrun); [eassumption|]. cbn. lia.
Qed.

Lemma filesystem_limit_constant_witness :
  exists st',
    load_platform 1 (Parsed example_scratch_document) initial_state = Ok (tt, st') /\
    length (filesystems st') = 1%nat /\
    Forall (fun x => fs_max_open_files x = 100000000) (filesystems st').
Proof.
  assert (Hrun : exists st',
    load_platform 1 (Parsed example_scratch_document) initial_state = Ok (tt, st') /\
    length (filesystems st') = 1%nat)
    by (eexists; split; vm_compute; reflexivity).
  destruct Hrun as (st' & Hrun & Hlen).
  exists st'. split; [exact Hrun|]. split; [exact Hlen|].
  exact (proj2 (filesystem_limit_constant 1 (Parsed example_scratch_document)
                  JNull JNull initial_state st') Hrun).
Defined.

(** ** The registries across passes *)

(** C8, as claimed, fails: the registries are globals of the process that
    [load_platform] neither clears on entry nor on exit.  After a first
    pass over [example_document] the zone registry still holds ["c0"], and
    a second pass over [example_second_document] resolves its route to the
    zone of the first pass; started with empty registries, the same
    document gets a null source. *)
Lemma registries_outlive_pass :
  exists st1 st2 st2',
    load_platform 0 (Parsed example_document) initial_state = Ok (tt, st1) /\
    zone_map st1 !! "c0" = Some (Some 1%nat) /\
    load_platform 0 (Parsed example_second_document) st1 = Ok (tt, st2) /\
    zone_map st2 !! "c0" = Some (Some 1%nat) /\
    skipn (length (routes st1)) (routes st2)
      = [mk_route 2 (Some (ZoneEnd 1)) (Some (ZoneEnd 2)) [] None] /\
    load_platform 0 (Parsed example_second_document) initial_state = Ok (tt, st2') /\
    routes st2' = [mk_route 0 None (Some (ZoneEnd 0)) [] None].
Proof.
  eexists _, _, _.
  split; [vm_compute; reflexivity|].
  split; [vm_compute; reflexivity|].
  split; [vm_compute; reflexivity|].
  split; [vm_compute; reflexivity|].
  split; [vm_compute; reflexivity|].
  split; vm_compute; reflexivity.
Qed.

(** C8, amended.  The three registries belong to the process: they are
    empty before its first pass, a pass starts from what they hold and
    removes no name from them, so every name registered before a pass is
    registered after it. *)
Theorem registries_persist (fuel : nat) (src : config_source) (st st' : state) :
  load_platform fuel src st = Ok (tt, st') ->
  dom (zone_map st) ⊆ dom (zone_map st') /\
  dom (link_map st) ⊆ dom (link_map st') /\
  dom (storage_map st) ⊆ dom (storage_map st') /\
  zone_map initial_state = ∅ /\ link_map initial_state = ∅ /\
  storage_map initial_state = ∅.
Proof.
  intros Hrun. apply load_platform_extends in Hrun.
  destruct Hrun as [_ _ _ Hz Hl Hs]. repeat split; assumption.
Qed.

Lemma registries_persist_witness :
  exists st1 st2,
    load_platform 0 (Parsed example_document) initial_state = Ok (tt, st1) /\
    load_platform 0 (Parsed example_second_document) st1 = Ok (tt, st2) /\
    dom (zone_map st1) ⊆ dom (zone_map st2) /\
    dom (link_map st1) ⊆ dom (link_map st2) /\
    dom (storage_map st1) ⊆ dom (storage_map st2).
Proof.
  assert (Hrun : exists st1 st2,
    load_platform 0 (Parsed example_document) initial_state = Ok (tt, st1) /\
    load_platform 0 (Parsed example_second_document) st1 = Ok (tt, st2))
    by (eexists _, _; split; vm_compute; reflexivity).
  destruct Hrun as (st1 & st2 & H1 & H2).
  exists st1, st2. split; [exact H1|]. split; [exact H2|].
  destruct (registries_persist 0 (Parsed example_second_document) st1 st2 H2)
    as (Hz & Hl & Hs & _).
  auto.
Defined.

(** ** Routes between zones *)

Lemma resolve_touch (m : gmap string (option nat)) (k key : string) :
  resolve (touch m k) key = resolve m key.
Proof.
  unfold resolve, touch, map_at.
  destruct (m !! k) eqn:Ek; cbn [fst snd]; [reflexivity|].
  destruct (decide (k = key)) as [->|Hne].
  - rewrite lookup_insert_eq, Ek. reflexivity.
  - rewrite lookup_insert_ne by assumption. destruct (m !! key); reflexivity.
Qed.

Lemma resolve_absent (m : gmap string (option nat)) (key : string) :
  m !! key = None -> resolve m key = None /\ touch m key = <[key := None]> m.
Proof. intros H. unfold resolve, touch, map_at. rewrite H. split; reflexivity. Qed.

Lemma resolve_present (m : gmap string (option nat)) (key : string) (h : option nat) :
  m !! key = Some h -> resolve m key = h /\ touch m key = m.
Proof. intros H. unfold resolve, touch, map_at. rewrite H. split; reflexivity. Qed.

Lemma bind_assoc {A B C} (m : M A) (k1 : A -> M B) (k2 : B -> M C) (st : state) :
  bind (bind m k1) k2 st = bind m (fun x => bind (k1 x) k2) st.
Proof. unfold bind. destruct (m st) as [[a st']| |]; reflexivity. Qed.

Lemma bind_rbind {A B C} (m : M A) (r : result C) (g : C -> A * state)
    (k : A -> M B) (st : state) :
  m st = rbind r (fun x => Ok (g x)) ->
  bind m k st = rbind r (fun x => k (fst (g x)) (snd (g x))).
Proof.
  unfold bind. intros ->. destruct r as [x| |]; cbn [rbind]; [|reflexivity..].
  destruct (g x). reflexivity.
Qed.

Lemma for_collect_link_map_at (l : list json) (st : state) :
  for_collect l (fun link_name =>
    let* n := lift (get_string link_name) in link_map_at n) st
  = rbind (strings_of l) (fun names =>
      Ok (map (resolve (link_map st)) names,
          with_link_map (fun m => fold_left touch names m) st)).
Proof.
  revert st. induction l as [|j l IH]; intros st.
  - destruct st. reflexivity.
  - cbn [for_collect strings_of].
    rewrite bind_assoc, bind_lift, rbind_assoc. apply rbind_ext. intros n.
    call_step.
    rewrite (bind_rbind _ _ _ _ _ (IH _)), rbind_assoc. apply rbind_ext. intros ns.
    cbn [rbind fst snd]. unfold ret. state_fields. cbn [map fold_left].
    f_equal. f_equal. f_equal.
    fold (touch (link_map st) n).
    clear. induction ns as [|x ns IHns]; [reflexivity|].
    cbn [map]. rewrite resolve_touch. f_equal. exact IHns.
Qed.

Lemma create_route_effect (datacenter : nat) (route_cfg : json) (st : state) :
  create_route datacenter route_cfg st =
  rbind (route_fields_of route_cfg)
    (fun f => Ok (tt, route_effect datacenter f st)).
Proof.
  unfold create_route, route_fields_of.
  do 2 read_step. do 2 call_step. read_step.
  rewrite (bind_rbind _ _ _ _ _ (for_collect_link_map_at _ _)).
  rewrite rbind_assoc. apply rbind_ext. intros names. cbn [rbind fst snd].
  unfold add_route, modify, route_effect. state_fields.
  fold (resolve (zone_map st) x). fold (touch (zone_map st) x).
  fold (resolve (touch (zone_map st) x) x0). fold (touch (touch (zone_map st) x) x0).
  rewrite resolve_touch. reflexivity.
Qed.

Lemma touch_lookup (m : gmap string (option nat)) (key : string) :
  touch m key !! key = Some (resolve m key).
Proof. apply map_at_lookup. Qed.

Lemma touch_keeps (m : gmap string (option nat)) (k key : string) (h : option nat) :
  m !! key = Some h -> touch m k !! key = Some h.
Proof.
  intros H. unfold touch, map_at. destruct (m !! k) eqn:Ek; cbn [snd]; [assumption|].
  rewrite lookup_insert_ne by congruence. assumption.
Qed.

Lemma fold_touch_keeps (names : list string) (m : gmap string (option nat))
    (key : string) (h : option nat) :
  m !! key = Some h -> fold_left touch names m !! key = Some h.
Proof.
  revert m. induction names as [|n names IH]; intros m H; cbn [fold_left].
  - assumption.
  - apply IH, touch_keeps, H.
Qed.

Lemma fold_touch_lookup (names : list string) (m : gmap string (option nat))
    (key : string) :
  In key names -> fold_left touch names m !! key = Some (resolve m key).
Proof.
  revert m. induction names as [|n names IH]; intros m Hin; cbn [fold_left].
  - destruct Hin.
  - destruct (decide (n = key)) as [->|Hne].
    + apply fold_touch_keeps, touch_lookup.
    + destruct Hin as [->|Hin]; [congruence|].
      rewrite IH by assumption. rewrite resolve_touch. reflexivity.
Qed.

(** C5, as claimed, fails: [create_routes] looks names up with
    [operator[]], which never fails.  A route whose zones and link are in
    no registry is handed to the engine with null handles, the names enter
    the registries with null values, and the pass completes. *)
Lemma dangling_route_installed :
  zone_map initial_state !! "a" = None /\
  zone_map initial_state !! "b" = None /\
  link_map initial_state !! "l" = None /\
  create_routes 0 (JArr [example_dangling_route]) initial_state
    = Ok (tt, mk_state [] [] [] [] [] [mk_route 0 None None [None] None] [] [] []
                {["a" := None; "b" := None]} {["l" := None]} ∅) /\
  exists st',
    load_platform 0 (Parsed example_dangling_document) initial_state = Ok (tt, st') /\
    routes st' = [mk_route 0 None None [None] None] /\
    zone_map st' !! "a" = Some None /\
    link_map st' !! "l" = Some None.
Proof.
  split; [reflexivity|]. split; [reflexivity|]. split; [reflexivity|].
  split; [vm_compute; reflexivity|].
  eexists. split; [vm_compute; reflexivity|].
  repeat split; vm_compute; reflexivity.
Qed.

(** C5, amended.  [create_routes] checks no name.  For a route entry
    whose members have the expected types, the round completes normally
    and adds one route to the facility zone; each end point and each link
    of the route is what the registry holds for the name, and null when
    the name is absent; afterwards every name of the entry is in its
    registry, an absent one with a null handle.  So does every pass over
    a list of such entries, with one route per entry. *)
Theorem create_routes_checks_no_name :
  (forall (datacenter : nat) (route_cfg : json) (f : route_fields) (st : state),
     route_fields_of route_cfg = Ok f ->
     exists st',
       create_route datacenter route_cfg st = Ok (tt, st') /\
       routes st' = routes st ++
         [mk_route datacenter
            (ZoneEnd <$> resolve (zone_map st) (rf_src f))
            (ZoneEnd <$> resolve (zone_map st) (rf_dst f))
            (map (resolve (link_map st)) (rf_links f)) None] /\
       zone_map st' !! rf_src f = Some (resolve (zone_map st) (rf_src f)) /\
       zone_map st' !! rf_dst f = Some (resolve (zone_map st) (rf_dst f)) /\
       (forall n, In n (rf_links f) ->
          link_map st' !! n = Some (resolve (link_map st) n)) /\
       (forall m key, m !! key = None -> resolve m key = None) /\
       (forall m key h, m !! key = Some h -> resolve m key = h))
  /\
  (forall (datacenter : nat) (routes_config : json) (st : state),
     Forall (fun j => exists f, route_fields_of j = Ok f) (items routes_config) ->
     exists st',
       create_routes datacenter routes_config st = Ok (tt, st') /\
       length (routes st') = (length (routes st) + length (items routes_config))%nat).
Proof.
  split.
  - intros datacenter route_cfg f st Hf.
    rewrite create_route_effect, Hf. cbn [rbind].
    eexists. split; [reflexivity|].
    unfold route_effect. state_fields.
    split; [reflexivity|]. split; [apply touch_keeps, touch_lookup|].
    split; [rewrite touch_lookup, resolve_touch; reflexivity|].
    split; [intros n Hn; apply fold_touch_lookup, Hn|].
    split.
    + intros m key H. apply resolve_absent, H.
    + intros m key h H. apply (resolve_present m key h), H.
  - intros datacenter routes_config st. unfold create_routes.
    generalize (items routes_config). intros l. revert st.
    induction l as [|j l IH]; intros st Hall.
    + exists st. split; [reflexivity|]. cbn. lia.
    + apply Forall_cons in Hall. destruct Hall as [[f Hf] Hall].
      destruct (IH (route_effect datacenter f st) Hall) as (st' & Hrun & Hlen).
      exists st'. split.
      * cbn [for_each]. erewrite bind_ok; [exact Hrun|].
        rewrite create_route_effect, Hf. reflexivity.
      * rewrite Hlen. unfold route_effect. state_fields.
        rewrite length_app. cbn [length]. lia.
Qed.

Lemma create_routes_checks_no_name_witness :
  exists st',
    create_route 0 example_dangling_route initial_state = Ok (tt, st') /\
    routes st' = [mk_route 0 None None [None] None] /\
    zone_map st' !! "a" = Some None /\
    zone_map st' !! "b" = Some None /\
    link_map st' !! "l" = Some None.
Proof.
  destruct (proj1 create_routes_checks_no_name 0%nat example_dangling_route
              (mk_route_fields "a" "b" ["l"]) initial_state)
    as (st' & Hrun & Hroutes & Ha & Hb & Hl & _); [reflexivity|].
  exists st'. split; [exact Hrun|]. split; [exact Hroutes|].
  split; [exact Ha|]. split; [exact Hb|].
  apply (Hl "l"). left. reflexivity.
Defined.

(** ** The placeholder loop *)

Lemma app_str_cons (x : ascii) (a b : string) :
  String x a +:+ b = String x (a +:+ b).
Proof. reflexivity. Qed.

Lemma app_str_nil_l (a : string) : "" +:+ a = a.
Proof. reflexivity. Qed.

Lemma app_str_assoc (a b c : string) : (a +:+ b) +:+ c = a +:+ b +:+ c.
Proof.
  induction a as [|x a IH]; [reflexivity|].
  rewrite !app_str_cons. f_equal. exact IH.
Qed.

Lemma app_str_nil_r (a : string) : a +:+ "" = a.
Proof.
  induction a as [|x a IH]; [reflexivity|].
  rewrite app_str_cons. f_equal. exact IH.
Qed.

Lemma length_app_str (a b : string) :
  String.length (a +:+ b) = (String.length a + String.length b)%nat.
Proof.
  induction a as [|x a IH]; [reflexivity|].
  rewrite app_str_cons. cbn [String.length Nat.add]. f_equal. exact IH.
Qed.

Lemma count_char_app (c : ascii) (a b : string) :
  count_char c (a +:+ b) = (count_char c a + count_char c b)%nat.
Proof.
  induction a as [|x a IH]; [reflexivity|].
  rewrite app_str_cons. cbn [count_char]. rewrite IH. lia.
Qed.

Lemma prefix_nil (s : string) : String.prefix "" s = true.
Proof. destruct s; reflexivity. Qed.

Lemma prefix_cons (x y : ascii) (p s : string) :
  String.prefix (String x p) (String y s)
  = if ascii_dec x y then String.prefix p s else false.
Proof. reflexivity. Qed.

Lemma prefix_app (p s : string) : String.prefix p (p +:+ s) = true.
Proof.
  induction p as [|x p IH]; [apply prefix_nil|].
  rewrite app_str_cons, prefix_cons.
  destruct (ascii_dec x x); [exact IH|congruence].
Qed.

Lemma prefix_split (p s : string) :
  String.prefix p s = true -> s = p +:+ drop_str (String.length p) s.
Proof.
  revert s. induction p as [|x p IH]; intros s H.
  - destruct s; reflexivity.
  - destruct s as [|y s]; [discriminate|].
    rewrite prefix_cons in H.
    destruct (ascii_dec x y) as [->|]; [|discriminate].
    rewrite app_str_cons. cbn [String.length drop_str]. f_equal. apply IH, H.
Qed.

Lemma take_drop_str (n : nat) (s : string) : take_str n s +:+ drop_str n s = s.
Proof.
  revert s. induction n as [|n IH]; intros s; [destruct s; reflexivity|].
  destruct s as [|x s]; [reflexivity|].
  cbn [take_str drop_str]. rewrite app_str_cons, IH. reflexivity.
Qed.

Lemma find_nil (p : string) :
  find p "" = if String.prefix p "" then Some O else None.
Proof. reflexivity. Qed.

Lemma find_cons (p : string) (x : ascii) (s : string) :
  find p (String x s)
  = if String.prefix p (String x s) then Some O else S <$> find p s.
Proof. reflexivity. Qed.

(** Where [find] finds the pattern, the pattern is. *)
Lemma find_split (p s : string) (n : nat) :
  find p s = Some n ->
  s = take_str n s +:+ p +:+ drop_str (n + String.length p) s.
Proof.
  revert n. induction s as [|x s IH]; intros n H.
  - rewrite find_nil in H. destruct p; [|discriminate].
    injection H as <-. reflexivity.
  - rewrite find_cons in H. destruct (String.prefix p (String x s)) eqn:Hp.
    + injection H as <-. apply prefix_split in Hp.
      destruct p; exact Hp.
    + destruct (find p s) as [m|] eqn:Hm; [|discriminate].
      injection H as <-. cbn [take_str drop_str Nat.add].
      rewrite app_str_cons. f_equal. apply IH. reflexivity.
Qed.

(** An occurrence of the pattern is found. *)
Lemma find_occurrence (p a b : string) : is_Some (find p (a +:+ p +:+ b)).
Proof.
  induction a as [|x a IH].
  - rewrite app_str_nil_l. destruct (p +:+ b) eqn:E.
    + rewrite find_nil. destruct p; [eauto|discriminate].
    + rewrite find_cons, <- E, prefix_app. eauto.
  - rewrite app_str_cons, find_cons.
    destruct (String.prefix p (String x (a +:+ p +:+ b))); [eauto|].
    destruct IH as [m ->]. cbn. eauto.
Qed.

(** A replacement trades one occurrence of the pattern for the new text. *)
Lemma count_char_replace (c : ascii) (p h s : string) (n : nat) :
  find p s = Some n ->
  (count_char c (replace n (String.length p) h s) + count_char c p
   = count_char c s + count_char c h)%nat.
Proof.
  intros H. rewrite (find_split p s n H) at 2.
  unfold replace. rewrite !count_char_app. lia.
Qed.

(** Each character of the placeholder occurs once in it. *)
Lemma count_char_placeholder (c : ascii) :
  In c (list_ascii_of_string placeholder) -> count_char c placeholder = 1%nat.
Proof.
  intros H. cbn [placeholder list_ascii_of_string In] in H.
  repeat (destruct H as [<-|H]; [reflexivity|]). destruct H.
Qed.

Lemma substitute_hostname_eq (fuel : nat) (mount_point host_name : string) :
  substitute_hostname fuel mount_point host_name =
  match find placeholder mount_point with
  | None => Some mount_point
  | Some pos =>
      match fuel with
      | O => None
      | S fuel' =>
          substitute_hostname fuel' (replace pos 10 host_name mount_point) host_name
      end
  end.
Proof. destruct fuel; reflexivity. Qed.

(** If a character of the placeholder is not in the host name, every
    replacement removes one occurrence of it: the loop ends within as many
    rounds as the template has occurrences of that character. *)
Lemma substitute_hostname_terminates (c : ascii) (host_name : string) (fuel : nat) :
  In c (list_ascii_of_string placeholder) ->
  count_char c host_name = 0%nat ->
  forall template,
    (count_char c template <= fuel)%nat ->
    exists r, substitute_hostname fuel template host_name = Some r /\
              find placeholder r = None.
Proof.
  intros Hc Hh. apply count_char_placeholder in Hc.
  induction fuel as [|fuel IH]; intros template Hfuel;
    rewrite substitute_hostname_eq;
    destruct (find placeholder template) as [pos|] eqn:Hfind;
    try (exists template; split; [reflexivity|assumption]);
    pose proof (count_char_replace c placeholder host_name template pos Hfind) as Hcount;
    change (String.length placeholder) with 10%nat in Hcount.
  - lia.
  - apply IH. lia.
Qed.

(** If both the template and the host name hold the placeholder, every
    replacement leaves one: the loop does not end. *)
Lemma substitute_hostname_diverges (host_name : string) (fuel : nat) :
  is_Some (find placeholder host_name) ->
  forall template,
    is_Some (find placeholder template) ->
    substitute_hostname fuel template host_name = None.
Proof.
  intros [k Hk]. apply find_split in Hk.
  induction fuel as [|fuel IH]; intros template [pos Hfind];
    rewrite substitute_hostname_eq, Hfind; [reflexivity|].
  apply IH. unfold replace. rewrite Hk.
  rewrite !app_str_assoc, <- (app_str_assoc (take_str pos template)).
  apply find_occurrence.
Qed.

Lemma fmap_add_0 (o : option nat) : (fun n => (0 + n)%nat) <$> o = o.
Proof. destruct o; reflexivity. Qed.

(** [find] passes over a prefix without an opening brace. *)
Lemma find_skip (x s : string) :
  count_char "{" x = 0%nat ->
  find placeholder (x +:+ s)
  = (fun n => (String.length x + n)%nat) <$> find placeholder s.
Proof.
  induction x as [|c x IH]; intros Hx.
  - rewrite app_str_nil_l. symmetry. apply fmap_add_0.
  - cbn [count_char] in Hx. destruct (Ascii.eqb_spec c "{") as [|Hne]; [lia|].
    rewrite app_str_cons, find_cons. unfold placeholder at 1. rewrite prefix_cons.
    destruct (ascii_dec "{" c) as [E|_]; [congruence|].
    fold placeholder. rewrite IH by (cbn in Hx; lia).
    destruct (find placeholder s); reflexivity.
Qed.

Lemma take_str_app (x s : string) (n : nat) :
  take_str (String.length x + n) (x +:+ s) = x +:+ take_str n s.
Proof.
  induction x as [|c x IH]; [reflexivity|].
  rewrite app_str_cons. cbn [String.length Nat.add take_str].
  rewrite app_str_cons, IH. reflexivity.
Qed.

Lemma drop_str_app (x s : string) (n : nat) :
  drop_str (String.length x + n) (x +:+ s) = drop_str n s.
Proof.
  induction x as [|c x IH]; [reflexivity|].
  rewrite app_str_cons. cbn [String.length Nat.add drop_str]. exact IH.
Qed.

Lemma find_prefix (p s : string) : String.prefix p s = true -> find p s = Some O.
Proof. intros H. destruct s; [rewrite find_nil|rewrite find_cons]; rewrite H; reflexivity. Qed.

Lemma find_second (z : string) : find placeholder ("{{hostname}" +:+ z) = Some 1%nat.
Proof.
  change (find placeholder ("{{hostname}" +:+ z))
    with (S <$> find placeholder (placeholder +:+ z)).
  rewrite find_prefix by apply prefix_app. reflexivity.
Qed.

Lemma find_first (z : string) :
  find placeholder ("{" +:+ looping_hostname +:+ z) = Some 0%nat.
Proof.
  change ("{" +:+ looping_hostname +:+ z)
    with (placeholder +:+ "hostname}0{{" +:+ z).
  apply find_prefix, prefix_app.
Qed.

(** One replacement on [x{{hostname}z], for [x] without an opening brace. *)
Lemma looping_half_step (x z : string) :
  count_char "{" x = 0%nat ->
  find placeholder (x +:+ "{{hostname}" +:+ z) = Some (String.length x + 1)%nat /\
  replace (String.length x + 1) 10 looping_hostname (x +:+ "{{hostname}" +:+ z)
    = x +:+ "{" +:+ looping_hostname +:+ z.
Proof.
  intros Hx. split.
  - rewrite find_skip, find_second by assumption. reflexivity.
  - unfold replace. rewrite take_str_app, <- Nat.add_assoc, drop_str_app.
    rewrite app_str_assoc. reflexivity.
Qed.

Lemma looping_step (x z : string) (fuel : nat) :
  count_char "{" x = 0%nat ->
  substitute_hostname (S (S fuel)) (x +:+ "{{hostname}" +:+ z) looping_hostname
  = substitute_hostname fuel
      ((x +:+ "hostname}hostname}0") +:+ "{{hostname}" +:+ ("0{{" +:+ z))
      looping_hostname.
Proof.
  intros Hx. destruct (looping_half_step x z Hx) as [Hfind Hreplace].
  rewrite substitute_hostname_eq, Hfind, Hreplace.
  rewrite substitute_hostname_eq, find_skip, find_first by assumption.
  cbn [fmap option_fmap option_map]. unfold replace.
  rewrite take_str_app, <- Nat.add_assoc, drop_str_app.
  rewrite !app_str_assoc. reflexivity.
Qed.

Lemma looping_diverges (fuel : nat) :
  forall x z, count_char "{" x = 0%nat ->
  substitute_hostname fuel (x +:+ "{{hostname}" +:+ z) looping_hostname = None.
Proof.
  induction fuel as [fuel IH] using lt_wf_ind. intros x z Hx.
  destruct (looping_half_step x z Hx) as [Hfind Hreplace].
  destruct fuel as [|[|fuel]].
  - rewrite substitute_hostname_eq, Hfind. reflexivity.
  - rewrite substitute_hostname_eq, Hfind, Hreplace.
    rewrite substitute_hostname_eq, find_skip, find_first by assumption.
    reflexivity.
  - rewrite looping_step by assumption. apply IH; [lia|].
    rewrite count_char_app, Hx. reflexivity.
Qed.

(** C10, as claimed, fails on both sides.  The host name
    ["hostname}hostname}0{{"] does not hold the placeholder, yet on the
    template ["{{hostname}"] the loop never ends: two replacements lead
    to a longer string of the same shape.  The host name ["{hostname}0"]
    holds the placeholder, yet on a template without it the loop ends at
    once. *)
Lemma placeholder_loop_claim_fails :
  (find placeholder looping_hostname = None /\
   forall fuel, substitute_hostname fuel "{{hostname}" looping_hostname = None) /\
  (find placeholder (hostname "{hostname}" "" 0) = Some 0%nat /\
   substitute_hostname 0 "/data/" (hostname "{hostname}" "" 0) = Some "/data/").
Proof.
  split; [split|split].
  - reflexivity.
  - intros fuel. apply (looping_diverges fuel "" ""). reflexivity.
  - reflexivity.
  - reflexivity.
Qed.

(** C10, amended.  On a template without the placeholder the loop ends
    at once and returns the template.  When some character of the
    placeholder (an opening brace, say) is not in the host name, the loop
    ends within as many replacements as the template has occurrences of
    that character, and its result has no placeholder left.  When the
    template and the host name both hold the placeholder, the loop does
    not end. *)
Theorem placeholder_loop_termination (template host_name : string) :
  (find placeholder template = None ->
   forall fuel, substitute_hostname fuel template host_name = Some template) /\
  (forall c, In c (list_ascii_of_string placeholder) ->
     count_char c host_name = 0%nat ->
     forall fuel, (count_char c template <= fuel)%nat ->
     exists r, substitute_hostname fuel template host_name = Some r /\
               find placeholder r = None) /\
  (is_Some (find placeholder template) ->
   is_Some (find placeholder host_name) ->
   forall fuel, substitute_hostname fuel template host_name = None).
Proof.
  split; [|split].
  - intros Hnone fuel. rewrite substitute_hostname_eq, Hnone. reflexivity.
  - intros c Hc Hh fuel Hfuel.
    apply (substitute_hostname_terminates c host_name fuel Hc Hh template Hfuel).
  - intros Ht Hh fuel. apply substitute_hostname_diverges; assumption.
Qed.

Lemma placeholder_loop_termination_witness :
  substitute_hostname 0 "/scratch/" "n0" = Some "/scratch/" /\
  (exists r, substitute_hostname 1 "/{hostname}/scratch/" "n0" = Some r /\
             find placeholder r = None) /\
  substitute_hostname 7 "/{hostname}/" "{hostname}0" = None.
Proof.
  split; [|split].
  - apply (proj1 (placeholder_loop_termination "/scratch/" "n0")). reflexivity.
  - apply (proj1 (proj2 (placeholder_loop_termination "/{hostname}/scratch/" "n0"))
             "{"%char).
    + cbn. auto.
    + reflexivity.
    + cbn. lia.
  - apply (proj2 (proj2 (placeholder_loop_termination "/{hostname}/" "{hostname}0"))).
    + exists 1%nat. reflexivity.
    + exists 0%nat. reflexivity.
Defined.

(** ** Determinism of the registries *)

Lemma frame_refl (st : state) : frame st st.
Proof. constructor; try reflexivity; apply kept_refl. Qed.

Lemma frame_trans (st1 st2 st3 : state) : frame st1 st2 -> frame st2 st3 -> frame st1 st3.
Proof.
  intros [Z1 L1 S1 KZ1 KL1 KS1 KD1] [Z2 L2 S2 KZ2 KL2 KS2 KD2].
  constructor; try congruence; eapply kept_trans; eassumption.
Qed.

Lemma entry_kept {A B} (attr : A -> B) (l l' : list A) (i : nat) :
  kept attr l l' -> (i < length l)%nat ->
  entry attr l' (Some i) = entry attr l (Some i).
Proof.
  intros Hk Hi. destruct (lookup_lt_is_Some_2 l i Hi) as [x Hx].
  destruct (Hk i x Hx) as (x' & Hx' & E).
  cbn [entry]. rewrite Hx, Hx'. cbn. f_equal. exact E.
Qed.

Lemma view_kept {A B} (attr : A -> B) (l l' : list A) (m : gmap string (option nat)) :
  valid l m -> kept attr l l' -> entry attr l' <$> m = entry attr l <$> m.
Proof.
  intros Hv Hk. apply map_fmap_ext. intros k [i|] Hki; [|reflexivity].
  apply entry_kept; [assumption|]. eapply Hv, Hki.
Qed.

Lemma valid_kept {A B} (attr : A -> B) (l l' : list A) (m : gmap string (option nat)) :
  valid l m -> kept attr l l' -> valid l' m.
Proof.
  intros Hv Hk k i Hki. apply kept_length in Hk. specialize (Hv k i Hki). lia.
Qed.

Lemma storage_attr_kept (ds ds' : list disk) (s : storage) :
  kept disk_attr ds ds' ->
  Forall (fun d => (d < length ds)%nat) (s_disks s) ->
  storage_attr ds' s = storage_attr ds s.
Proof.
  intros Hk Hall. unfold storage_attr. f_equal.
  induction Hall as [|d rest Hd _ IH]; [reflexivity|].
  cbn [map]. f_equal; [|exact IH].
  exact (entry_kept disk_attr ds ds' d Hk Hd).
Qed.

Lemma frame_well_formed (st st' : state) :
  well_formed st -> frame st st' -> well_formed st'.
Proof.
  intros [WZ WL WS WD] [Z L S KZ KL KS KD].
  constructor.
  - rewrite Z. eapply valid_kept; eassumption.
  - rewrite L. eapply valid_kept; eassumption.
  - rewrite S. eapply valid_kept; eassumption.
  - intros k i s Hk Hs. rewrite S in Hk.
    destruct (lookup_lt_is_Some_2 (storages st) i (WS k i Hk)) as [s0 Hs0].
    destruct (KS i s0 Hs0) as (s' & Hs' & E). subst s'.
    assert (s = s0) by congruence. subst s0.
    eapply Forall_impl; [exact (WD k i s Hk Hs0)|].
    intros d Hd. cbn in Hd. apply kept_length in KD. lia.
Qed.

Lemma frame_views (st st' : state) :
  well_formed st -> frame st st' ->
  zone_view st' = zone_view st /\ link_view st' = link_view st /\
  storage_view st' = storage_view st.
Proof.
  intros [WZ WL WS WD] [Z L S KZ KL KS KD].
  unfold zone_view, link_view, storage_view. rewrite Z, L, S.
  split; [|split].
  - apply view_kept; assumption.
  - apply view_kept; assumption.
  - apply map_fmap_ext. intros k [i|] Hki; [|reflexivity].
    destruct (lookup_lt_is_Some_2 (storages st) i (WS k i Hki)) as [s Hs].
    destruct (KS i s Hs) as (s' & Hs' & E). subst s'.
    cbn [entry]. rewrite Hs, Hs'. cbn. f_equal.
    apply storage_attr_kept; [assumption|]. exact (WD k i s Hki Hs).
Qed.

Lemma agree_frame (st1 st2 st1' st2' : state) :
  agree st1 st2 -> frame st1 st1' -> frame st2 st2' -> agree st1' st2'.
Proof.
  intros [W1 W2 AZ AL AS] F1 F2.
  destruct (frame_views _ _ W1 F1) as (Z1 & L1 & S1).
  destruct (frame_views _ _ W2 F2) as (Z2 & L2 & S2).
  constructor.
  - exact (frame_well_formed _ _ W1 F1).
  - exact (frame_well_formed _ _ W2 F2).
  - congruence.
  - congruence.
  - congruence.
Qed.

Lemma valid_insert {A} (l : list A) (m : gmap string (option nat)) (k : string) (h : nat) :
  valid l m -> (h < length l)%nat -> valid l (<[k := Some h]> m).
Proof.
  intros Hv Hh k' i. destruct (decide (k = k')) as [->|Hne].
  - rewrite lookup_insert_eq. intros [= <-]. exact Hh.
  - rewrite lookup_insert_ne by assumption. apply Hv.
Qed.

Lemma touch_inv (m : gmap string (option nat)) (k key : string) (i : nat) :
  touch m k !! key = Some (Some i) -> m !! key = Some (Some i).
Proof.
  unfold touch, map_at. destruct (m !! k) eqn:Ek; cbn [snd]; [auto|].
  destruct (decide (k = key)) as [->|Hne].
  - rewrite lookup_insert_eq. discriminate.
  - rewrite lookup_insert_ne by assumption. auto.
Qed.

Lemma valid_touch {A} (l : list A) (m : gmap string (option nat)) (k : string) :
  valid l m -> valid l (touch m k).
Proof. intros Hv key i H. eapply Hv, touch_inv, H. Qed.

Lemma view_touch {B} (f g : option nat -> option B)
    (m1 m2 : gmap string (option nat)) (k : string) :
  f <$> m1 = g <$> m2 -> f None = g None -> f <$> touch m1 k = g <$> touch m2 k.
Proof.
  intros Hm Hnone. unfold touch, map_at.
  assert (Hk : f <$> m1 !! k = g <$> m2 !! k) by (rewrite <- !lookup_fmap, Hm; reflexivity).
  destruct (m1 !! k), (m2 !! k); cbn [snd]; try discriminate; [assumption|].
  rewrite !fmap_insert, Hm, Hnone. reflexivity.
Qed.

Lemma agree_zone_insert (st1 st2 : state) (k : string) (h1 h2 : nat) :
  agree st1 st2 ->
  (h1 < length (zones st1))%nat -> (h2 < length (zones st2))%nat ->
  entry zone_attr (zones st1) (Some h1) = entry zone_attr (zones st2) (Some h2) ->
  agree (with_zone_map (fun m => <[k := Some h1]> m) st1)
        (with_zone_map (fun m => <[k := Some h2]> m) st2).
Proof.
  intros [[WZ1 WL1 WS1 WD1] [WZ2 WL2 WS2 WD2] AZ AL AS] H1 H2 E.
  constructor; [constructor; try assumption|constructor; try assumption|..];
    try assumption; state_fields.
  - apply valid_insert; assumption.
  - apply valid_insert; assumption.
  - unfold zone_view in *. state_fields. rewrite !fmap_insert, AZ, E. reflexivity.
Qed.

Lemma agree_link_insert (st1 st2 : state) (k : string) (h1 h2 : nat) :
  agree st1 st2 ->
  (h1 < length (links st1))%nat -> (h2 < length (links st2))%nat ->
  entry link_attr (links st1) (Some h1) = entry link_attr (links st2) (Some h2) ->
  agree (with_link_map (fun m => <[k := Some h1]> m) st1)
        (with_link_map (fun m => <[k := Some h2]> m) st2).
Proof.
  intros [[WZ1 WL1 WS1 WD1] [WZ2 WL2 WS2 WD2] AZ AL AS] H1 H2 E.
  constructor; [constructor; try assumption|constructor; try assumption|..];
    try assumption; state_fields.
  - apply valid_insert; assumption.
  - apply valid_insert; assumption.
  - unfold link_view in *. state_fields. rewrite !fmap_insert, AL, E. reflexivity.
Qed.

Lemma valid_disks_insert (st : state) (k : string) (h : nat) (s : storage) :
  valid_disks st -> storages st !! h = Some s ->
  Forall (fun d => (d < length (disks st))%nat) (s_disks s) ->
  valid_disks (with_storage_map (fun m => <[k := Some h]> m) st).
Proof.
  intros Hv Hs Hall k' i s'. state_fields.
  destruct (decide (k = k')) as [->|Hne].
  - rewrite lookup_insert_eq. intros [= <-] Hs'.
    assert (s' = s) by congruence. subst s'. exact Hall.
  - rewrite lookup_insert_ne by assumption. apply Hv.
Qed.

Lemma agree_storage_insert (st1 st2 : state) (k : string) (h1 h2 : nat)
    (s1 s2 : storage) :
  agree st1 st2 ->
  storages st1 !! h1 = Some s1 -> storages st2 !! h2 = Some s2 ->
  Forall (fun d => (d < length (disks st1))%nat) (s_disks s1) ->
  Forall (fun d => (d < length (disks st2))%nat) (s_disks s2) ->
  storage_attr (disks st1) s1 = storage_attr (disks st2) s2 ->
  agree (with_storage_map (fun m => <[k := Some h1]> m) st1)
        (with_storage_map (fun m => <[k := Some h2]> m) st2).
Proof.
  intros [[WZ1 WL1 WS1 WD1] [WZ2 WL2 WS2 WD2] AZ AL AS] H1 H2 D1 D2 E.
  constructor; [constructor; try assumption|constructor; try assumption|..];
    try assumption.
  - apply valid_insert; [assumption|]. eapply lookup_lt_Some, H1.
  - eapply valid_disks_insert; eassumption.
  - apply valid_insert; [assumption|]. eapply lookup_lt_Some, H2.
  - eapply valid_disks_insert; eassumption.
  - unfold storage_view in *. state_fields. rewrite !fmap_insert, AS.
    cbn [entry]. rewrite H1, H2. cbn. rewrite E. reflexivity.
Qed.

Lemma agree_zone_touch (st1 st2 : state) (k : string) :
  agree st1 st2 ->
  agree (with_zone_map (fun m => touch m k) st1) (with_zone_map (fun m => touch m k) st2).
Proof.
  intros [[WZ1 WL1 WS1 WD1] [WZ2 WL2 WS2 WD2] AZ AL AS].
  constructor; [constructor; try assumption|constructor; try assumption|..];
    try assumption; state_fields.
  - apply valid_touch; assumption.
  - apply valid_touch; assumption.
  - unfold zone_view in *. state_fields. apply view_touch; [assumption|reflexivity].
Qed.

Lemma agree_link_touch (st1 st2 : state) (k : string) :
  agree st1 st2 ->
  agree (with_link_map (fun m => touch m k) st1) (with_link_map (fun m => touch m k) st2).
Proof.
  intros [[WZ1 WL1 WS1 WD1] [WZ2 WL2 WS2 WD2] AZ AL AS].
  constructor; [constructor; try assumption|constructor; try assumption|..];
    try assumption; state_fields.
  - apply valid_touch; assumption.
  - apply valid_touch; assumption.
  - unfold link_view in *. state_fields. apply view_touch; [assumption|reflexivity].
Qed.

Lemma agree_storage_touch (st1 st2 : state) (k : string) :
  agree st1 st2 ->
  agree (with_storage_map (fun m => touch m k) st1)
        (with_storage_map (fun m => touch m k) st2).
Proof.
  intros [[WZ1 WL1 WS1 WD1] [WZ2 WL2 WS2 WD2] AZ AL AS].
  constructor; [constructor; try assumption|constructor; try assumption|..];
    try assumption; state_fields.
  - apply valid_touch; assumption.
  - intros key i s H. apply touch_inv in H. apply (WD1 key i s H).
  - apply valid_touch; assumption.
  - intros key i s H. apply touch_inv in H. apply (WD2 key i s H).
  - unfold storage_view in *. state_fields. apply view_touch; [assumption|reflexivity].
Qed.

Lemma sim_framed {A B} (m1 : M A) (m2 : M B) : framed m1 -> framed m2 -> sim m1 m2.
Proof.
  intros F1 F2 st1 st2 Hag.
  destruct (F1 st1) as (a & s1 & -> & Hf1). destruct (F2 st2) as (b & s2 & -> & Hf2).
  eapply agree_frame; eassumption.
Qed.

Lemma sim_ret {A B} (a : A) (b : B) : sim (ret a) (ret b).
Proof. intros st1 st2 Hag. exact Hag. Qed.

Lemma sim_timeout {A B} :
  sim (fun _ => @Timeout (A * state)) (fun _ => @Timeout (B * state)).
Proof. intros st1 st2 _. exact I. Qed.

Lemma sim_bind {A A' B B'} (m1 : M A) (m2 : M A') (k1 : A -> M B) (k2 : A' -> M B') :
  sim m1 m2 -> (forall a a', sim (k1 a) (k2 a')) -> sim (bind m1 k1) (bind m2 k2).
Proof.
  intros Hm Hk st1 st2 Hag. unfold bind. specialize (Hm st1 st2 Hag).
  destruct (m1 st1) as [[a s1]| |], (m2 st2) as [[a' s2]| |];
    try contradiction; try discriminate; try assumption.
  apply Hk, Hm.
Qed.

Lemma sim_lift {A B B'} (r : result A) (k1 : A -> M B) (k2 : A -> M B') :
  (forall v, sim (k1 v) (k2 v)) -> sim (bind (lift r) k1) (bind (lift r) k2).
Proof.
  intros Hk st1 st2 Hag. rewrite !bind_lift.
  destruct r as [v| |]; cbn [rbind]; [apply Hk, Hag|reflexivity|exact I].
Qed.

Lemma sim_read_json {B B'} (j : json) (key : string) (k1 : json -> M B) (k2 : json -> M B') :
  (forall v, sim (k1 v) (k2 v)) ->
  sim (bind (read_json j key) k1) (bind (read_json j key) k2).
Proof. apply sim_lift. Qed.

Lemma sim_read_string {B B'} (j : json) (key : string)
    (k1 : string -> M B) (k2 : string -> M B') :
  (forall v, sim (k1 v) (k2 v)) ->
  sim (bind (read_string j key) k1) (bind (read_string j key) k2).
Proof.
  intros Hk st1 st2 Hag. rewrite !bind_read_string.
  destruct (field_string j key) as [v| |]; cbn [rbind]; [apply Hk, Hag|reflexivity|exact I].
Qed.

Lemma sim_read_int {B B'} (j : json) (key : string) (k1 : Z -> M B) (k2 : Z -> M B') :
  (forall v, sim (k1 v) (k2 v)) ->
  sim (bind (read_int j key) k1) (bind (read_int j key) k2).
Proof.
  intros Hk st1 st2 Hag. rewrite !bind_read_int.
  destruct (field_int j key) as [v| |]; cbn [rbind]; [apply Hk, Hag|reflexivity|exact I].
Qed.

Lemma sim_for_each {A} (l : list A) (b1 b2 : A -> M unit) :
  (forall x, sim (b1 x) (b2 x)) -> sim (for_each l b1) (for_each l b2).
Proof.
  intros Hb. induction l as [|x l IH]; cbn [for_each].
  - apply sim_ret.
  - apply sim_bind; [apply Hb|intros _ _; exact IH].
Qed.

Lemma sim_for_collect {A B B'} (l : list A) (b1 : A -> M B) (b2 : A -> M B') :
  (forall x, sim (b1 x) (b2 x)) -> sim (for_collect l b1) (for_collect l b2).
Proof.
  intros Hb. induction l as [|x l IH]; cbn [for_collect].
  - apply sim_ret.
  - apply sim_bind; [apply Hb|intros b b'].
    apply sim_bind; [exact IH|intros bs bs'; apply sim_ret].
Qed.

Ltac call_framed :=
  let st := fresh "st" in
  intros st; eexists _, _; split; [reflexivity|];
  constructor; state_fields;
  first [ reflexivity | apply kept_refl | apply kept_app
        | apply kept_alter; reflexivity ].

Lemma seal_framed z : framed (seal z).
Proof. unfold seal, modify. call_framed. Qed.

Lemma add_route_framed z src dst ls sym : framed (add_route z src dst ls sym).
Proof. unfold add_route, modify. call_framed. Qed.

Lemma file_system_create_framed name n : framed (file_system_create name n).
Proof. unfold file_system_create. call_framed. Qed.

Lemma mount_partition_framed fs mp sto size : framed (mount_partition fs mp sto size).
Proof. unfold mount_partition, modify. call_framed. Qed.

Lemma register_file_system_framed z fs : framed (register_file_system z fs).
Proof. unfold register_file_system, modify. call_framed. Qed.

Lemma sim_zone_map_at name : sim (zone_map_at name) (zone_map_at name).
Proof. intros st1 st2 Hag. apply (agree_zone_touch st1 st2 name Hag). Qed.

Lemma sim_link_map_at name : sim (link_map_at name) (link_map_at name).
Proof. intros st1 st2 Hag. apply (agree_link_touch st1 st2 name Hag). Qed.

Lemma sim_storage_map_at name : sim (storage_map_at name) (storage_map_at name).
Proof. intros st1 st2 Hag. apply (agree_storage_touch st1 st2 name Hag). Qed.

(** Routes and file systems: the handles they pass around never reach a
    registry. *)
Lemma sim_create_route d1 d2 cfg : sim (create_route d1 cfg) (create_route d2 cfg).
Proof.
  unfold create_route.
  apply sim_read_string; intros src. apply sim_read_string; intros dst.
  apply sim_bind; [apply sim_zone_map_at|intros z1 z1'].
  apply sim_bind; [apply sim_zone_map_at|intros z2 z2'].
  apply sim_read_json; intros links_cfg.
  apply sim_bind; [|intros; apply sim_framed; apply add_route_framed].
  apply sim_for_collect. intros j. apply sim_lift. intros n. apply sim_link_map_at.
Qed.

Lemma sim_create_routes d1 d2 cfg : sim (create_routes d1 cfg) (create_routes d2 cfg).
Proof. apply sim_for_each. intros x. apply sim_create_route. Qed.

Lemma sim_mount_cluster_node fuel fs1 fs2 pattern size info i :
  sim (mount_cluster_node fuel fs1 pattern size info i)
      (mount_cluster_node fuel fs2 pattern size info i).
Proof.
  unfold mount_cluster_node. cbv zeta.
  destruct (substitute_hostname fuel pattern _); [|apply sim_timeout].
  apply sim_bind; [apply sim_storage_map_at|intros].
  apply sim_framed; apply mount_partition_framed.
Qed.

Lemma sim_create_filesystem fuel cfg fs_cfg :
  sim (create_filesystem fuel cfg fs_cfg) (create_filesystem fuel cfg fs_cfg).
Proof.
  unfold create_filesystem.
  apply sim_read_string; intros name. apply sim_read_string; intros pattern.
  apply sim_read_string; intros size.
  apply sim_bind; [apply sim_framed; apply file_system_create_framed|intros fs1 fs2].
  destruct (contains fs_cfg "storage_system"); [|destruct (contains fs_cfg "cluster")].
  - apply sim_read_string; intros sys. cbv zeta.
    apply sim_bind; [apply sim_zone_map_at|intros z z'].
    apply sim_bind; [apply sim_storage_map_at|intros s s'].
    apply sim_bind; [apply sim_framed; apply mount_partition_framed|intros _ _].
    apply sim_framed; apply register_file_system_framed.
  - apply sim_read_string; intros cluster_name.
    apply sim_read_json; intros facilities.
    apply sim_lift; intros info.
    apply sim_bind; [apply sim_for_each; intros i; apply sim_mount_cluster_node|intros _ _].
    apply sim_bind; [apply sim_zone_map_at|intros z z'].
    apply sim_framed; apply register_file_system_framed.
  - apply sim_ret.
Qed.

Lemma sim_create_filesystems fuel fss cfg :
  sim (create_filesystems fuel fss cfg) (create_filesystems fuel fss cfg).
Proof. apply sim_for_each. intros x. apply sim_create_filesystem. Qed.

Lemma create_facility_zone_effect (cfg : json) (st : state) :
  create_facility_zone cfg st =
  rbind (field_string cfg "name") (fun name =>
  rbind (field_string cfg "routing") (fun r =>
    Ok (length (zones st),
        with_zone_map (fun m => <[name := Some (length (zones st))]> m)
          (with_zones (fun l => l ++ [mk_zone name (facility_routing r) RootZone None false])
             st)))).
Proof.
  unfold create_facility_zone.
  rewrite bind_read_string. apply rbind_ext. intros name.
  rewrite bind_read_string. apply rbind_ext. intros r.
  unfold facility_routing.
  destruct (String.eqb r "full"); [|destruct (String.eqb r "floyd")];
    repeat call_step; reflexivity.
Qed.

Lemma create_inter_zone_link_effect (datacenter : nat) (cfg : json) (st : state) :
  create_inter_zone_link datacenter cfg st =
  rbind (field_string cfg "name") (fun name =>
  rbind (field_string cfg "bandwidth") (fun bw =>
  rbind (field_string cfg "latency") (fun lat =>
    Ok (tt,
        with_link_map (fun m => <[name := Some (length (links st))]> m)
          (with_links (fun l => l ++ [mk_link name bw (Some lat) SHARED datacenter])
             st))))).
Proof.
  unfold create_inter_zone_link.
  rewrite bind_read_string. apply rbind_ext. intros name.
  rewrite bind_read_string. apply rbind_ext. intros bw.
  rewrite bind_read_string. apply rbind_ext. intros lat.
  repeat call_step. reflexivity.
Qed.

Lemma lookup_app_new {A} (l : list A) (x : A) : (l ++ [x]) !! length l = Some x.
Proof. rewrite lookup_app_r by lia. rewrite Nat.sub_diag. reflexivity. Qed.

Lemma sim_create_facility_zone cfg :
  sim (create_facility_zone cfg) (create_facility_zone cfg).
Proof.
  intros st1 st2 Hag. rewrite !create_facility_zone_effect.
  destruct (field_string cfg "name") as [name| |]; cbn [rbind]; [|reflexivity|exact I].
  destruct (field_string cfg "routing") as [r| |]; cbn [rbind]; [|reflexivity|exact I].
  apply agree_zone_insert.
  - eapply agree_frame; [exact Hag|constructor; state_fields..];
      first [reflexivity|apply kept_refl|apply kept_app].
  - state_fields. rewrite length_app. cbn [length]. lia.
  - state_fields. rewrite length_app. cbn [length]. lia.
  - state_fields. cbn [entry]. rewrite !lookup_app_new. reflexivity.
Qed.

Lemma sim_create_inter_zone_link d1 d2 cfg :
  sim (create_inter_zone_link d1 cfg) (create_inter_zone_link d2 cfg).
Proof.
  intros st1 st2 Hag. rewrite !create_inter_zone_link_effect.
  destruct (field_string cfg "name") as [name| |]; cbn [rbind]; [|reflexivity|exact I].
  destruct (field_string cfg "bandwidth") as [bw| |]; cbn [rbind]; [|reflexivity|exact I].
  destruct (field_string cfg "latency") as [lat| |]; cbn [rbind]; [|reflexivity|exact I].
  apply agree_link_insert.
  - eapply agree_frame; [exact Hag|constructor; state_fields..];
      first [reflexivity|apply kept_refl|apply kept_app].
  - state_fields. rewrite length_app. cbn [length]. lia.
  - state_fields. rewrite length_app. cbn [length]. lia.
  - state_fields. cbn [entry]. rewrite !lookup_app_new. reflexivity.
Qed.

Lemma sim_create_inter_zone_links d1 d2 cfg :
  sim (create_inter_zone_links d1 cfg) (create_inter_zone_links d2 cfg).
Proof. apply sim_for_each. intros x. apply sim_create_inter_zone_link. Qed.

Lemma cluster_effect_split (parent : nat) (f : cluster_fields) (st : state) :
  cluster_effect parent f st =
  with_storage_map (fun m =>
      fold_left (fun m i =>
        match node_storage_kind f with
        | Some _ => <[node_storage_name f i := Some (length (storages st) + i)%nat]> m
        | None => m
        end) (seq 0 (Z.to_nat (cf_count f))) m)
    (with_zone_map (fun m => <[cf_name f := Some (length (zones st))]> m)
       (cluster_entities parent f st)).
Proof. reflexivity. Qed.

Lemma cluster_entities_frame (parent : nat) (f : cluster_fields) (st : state) :
  frame st (cluster_entities parent f st).
Proof.
  constructor; unfold cluster_entities, cluster_effect; state_fields;
    first [reflexivity|apply kept_app].
Qed.

Lemma cluster_storage_entry (parent : nat) (f : cluster_fields) (st : state)
    (k : storage_kind) (i : nat) :
  node_storage_kind f = Some k ->
  (i < Z.to_nat (cf_count f))%nat ->
  storages (cluster_entities parent f st) !! (length (storages st) + i)%nat
    = Some (mk_storage (node_storage_name f i) k [(length (disks st) + i)%nat]) /\
  disks (cluster_entities parent f st) !! (length (disks st) + i)%nat
    = Some (mk_disk (node_storage_name f i +:+ "_disk")
              (cf_storage_read_bw f) (cf_storage_write_bw f)
              (length (hosts st) + i)).
Proof.
  intros Hk Hi. pose proof (node_storage_kind_has f k Hk) as Hs.
  unfold cluster_entities, cluster_effect. state_fields. split.
  - rewrite lookup_app_r by lia.
    replace (length (storages st) + i - length (storages st))%nat
      with (1 * i + 0)%nat by lia.
    rewrite (lookup_flat_map_seq _ 1); [|intros x|exact Hi|lia];
      unfold node_storages; rewrite Hk; reflexivity.
  - rewrite lookup_app_r by lia.
    replace (length (disks st) + i - length (disks st))%nat
      with (1 * i + 0)%nat by lia.
    rewrite (lookup_flat_map_seq _ 1); [|intros x|exact Hi|lia];
      unfold node_disks; rewrite Hs; reflexivity.
Qed.

(** Registering a run of new storage devices keeps two states agreeing
    when the devices have the same attributes. *)
Lemma agree_storage_inserts (name : nat -> string) (b1 b2 : nat) (l : list nat) :
  forall st1 st2,
    agree st1 st2 ->
    (forall i, In i l -> exists s1 s2,
       storages st1 !! (b1 + i)%nat = Some s1 /\
       storages st2 !! (b2 + i)%nat = Some s2 /\
       Forall (fun d => (d < length (disks st1))%nat) (s_disks s1) /\
       Forall (fun d => (d < length (disks st2))%nat) (s_disks s2) /\
       storage_attr (disks st1) s1 = storage_attr (disks st2) s2) ->
    agree
      (with_storage_map (fun m =>
         fold_left (fun m i => <[name i := Some (b1 + i)%nat]> m) l m) st1)
      (with_storage_map (fun m =>
         fold_left (fun m i => <[name i := Some (b2 + i)%nat]> m) l m) st2).
Proof.
  induction l as [|i l IH]; intros st1 st2 Hag Hall.
  - cbn [fold_left].
    eapply agree_frame; [exact Hag|constructor; state_fields..];
      first [reflexivity|apply kept_refl].
  - destruct (Hall i (or_introl eq_refl)) as (s1 & s2 & H1 & H2 & D1 & D2 & E).
    pose proof (agree_storage_insert st1 st2 (name i) _ _ s1 s2 Hag H1 H2 D1 D2 E)
      as Hag'.
    specialize (IH _ _ Hag' (fun j Hj => Hall j (or_intror Hj))).
    exact IH.
Qed.

Lemma fold_left_const {A B} (l : list B) (a : A) : fold_left (fun x _ => x) l a = a.
Proof. induction l as [|b l IH]; [reflexivity|exact IH]. Qed.

Lemma agree_cluster_effect (p1 p2 : nat) (f : cluster_fields) (st1 st2 : state) :
  agree st1 st2 -> agree (cluster_effect p1 f st1) (cluster_effect p2 f st2).
Proof.
  intros Hag.
  assert (Hzone : agree
    (with_zone_map (fun m => <[cf_name f := Some (length (zones st1))]> m)
       (cluster_entities p1 f st1))
    (with_zone_map (fun m => <[cf_name f := Some (length (zones st2))]> m)
       (cluster_entities p2 f st2))).
  { apply agree_zone_insert.
    - eapply agree_frame; [exact Hag|apply cluster_entities_frame..].
    - unfold cluster_entities, cluster_effect. state_fields.
      rewrite length_app. cbn [length]. lia.
    - unfold cluster_entities, cluster_effect. state_fields.
      rewrite length_app. cbn [length]. lia.
    - unfold cluster_entities, cluster_effect. state_fields.
      cbn [entry]. rewrite !lookup_app_new. reflexivity. }
  rewrite !cluster_effect_split.
  destruct (node_storage_kind f) as [k|] eqn:Hk.
  - apply agree_storage_inserts; [exact Hzone|].
    intros i Hi. apply in_seq in Hi.
    destruct (cluster_storage_entry p1 f st1 k i Hk) as [S1 D1]; [lia|].
    destruct (cluster_storage_entry p2 f st2 k i Hk) as [S2 D2]; [lia|].
    eexists _, _. split; [exact S1|]. split; [exact S2|].
    split; [|split].
    + constructor; [|constructor]. eapply lookup_lt_Some, D1.
    + constructor; [|constructor]. eapply lookup_lt_Some, D2.
    + unfold storage_attr. cbn [s_name s_kind s_disks map].
      change (disks (with_zone_map _ (cluster_entities p1 f st1)))
        with (disks (cluster_entities p1 f st1)).
      change (disks (with_zone_map _ (cluster_entities p2 f st2)))
        with (disks (cluster_entities p2 f st2)).
      rewrite D1, D2. reflexivity.
  - eapply agree_frame; [exact Hzone|constructor; state_fields..];
      first [reflexivity|apply kept_refl|exact (fold_left_const _ _)].
Qed.

Lemma sim_create_cluster_zone p1 p2 cfg :
  sim (create_cluster_zone p1 cfg) (create_cluster_zone p2 cfg).
Proof.
  intros st1 st2 Hag. rewrite !create_cluster_zone_effect.
  destruct (cluster_fields_of cfg) as [f| |]; cbn [rbind]; [|reflexivity|exact I].
  apply agree_cluster_effect, Hag.
Qed.

Lemma storage_system_effect_split (parent : nat) (f : storage_fields) (st : state) :
  storage_system_effect parent f st =
  with_storage_map (fun m =>
      match storage_system_kind f with
      | Some _ => <[sf_name f +:+ "_storage" := Some (length (storages st))]> m
      | None => m
      end)
    (with_zone_map (fun m => <[sf_name f := Some (length (zones st))]> m)
       (storage_system_entities parent f st)).
Proof. reflexivity. Qed.

Lemma storage_system_entities_frame (parent : nat) (f : storage_fields) (st : state) :
  frame st (storage_system_entities parent f st).
Proof.
  constructor; unfold storage_system_entities, storage_system_effect; state_fields;
    first [reflexivity|apply kept_refl|apply kept_app].
Qed.

(** The attributes of a run of disks appended to [ds]. *)
Lemma attr_new_disks (ds : list disk) (g : nat -> disk) (n k : nat) :
  (k <= n)%nat ->
  map (fun d => disk_attr <$> (ds ++ map g (seq 0 n)) !! d) (seq (length ds) k)
  = map (fun i => Some (disk_attr (g i))) (seq 0 k).
Proof.
  induction k as [|k IH]; intros Hk; [reflexivity|].
  rewrite !seq_S, !map_app, IH by lia. cbn [map Nat.add]. f_equal.
  rewrite lookup_app_r by lia.
  replace (length ds + k - length ds)%nat with k by lia.
  rewrite lookup_map_seq by lia. reflexivity.
Qed.

Lemma Forall_seq_lt (a n : nat) : Forall (fun d => (d < a + n)%nat) (seq a n).
Proof. apply List.Forall_forall. intros d Hd. apply in_seq in Hd. lia. Qed.

Lemma storage_system_entry (parent : nat) (f : storage_fields) (st : state)
    (k : storage_kind) :
  storage_system_kind f = Some k ->
  exists s,
    storages (storage_system_entities parent f st) !! length (storages st) = Some s /\
    Forall (fun d => (d < length (disks (storage_system_entities parent f st)))%nat)
      (s_disks s) /\
    storage_attr (disks (storage_system_entities parent f st)) s
      = (sf_name f +:+ "_storage", k,
         match k with
         | JBOD => map (fun i => Some (disk_attr (jbod_disk f 0 i)))
                     (seq 0 (Z.to_nat (sf_disk_count f)))
         | OneDisk => [Some (sf_name f +:+ "_disk", sf_read_bw f, sf_write_bw f)]
         end).
Proof.
  intros Hk. unfold storage_system_entities, storage_system_effect,
    storage_system_storages, storage_system_disks. state_fields.
  rewrite Hk. destruct k.
  - eexists. split; [apply lookup_app_new|]. cbn [s_disks]. split.
    + constructor; [|constructor]. rewrite length_app. cbn [length]. lia.
    + unfold storage_attr. cbn [s_name s_kind s_disks map].
      rewrite lookup_app_new. reflexivity.
  - eexists. split; [apply lookup_app_new|]. cbn [s_disks]. split.
    + rewrite length_app, length_map. unfold range. rewrite length_seq.
      apply Forall_seq_lt.
    + unfold storage_attr, range. cbn [s_name s_kind s_disks].
      rewrite attr_new_disks by lia. reflexivity.
Qed.

Lemma agree_storage_system_effect (p1 p2 : nat) (f : storage_fields) (st1 st2 : state) :
  agree st1 st2 ->
  agree (storage_system_effect p1 f st1) (storage_system_effect p2 f st2).
Proof.
  intros Hag.
  assert (Hzone : agree
    (with_zone_map (fun m => <[sf_name f := Some (length (zones st1))]> m)
       (storage_system_entities p1 f st1))
    (with_zone_map (fun m => <[sf_name f := Some (length (zones st2))]> m)
       (storage_system_entities p2 f st2))).
  { apply agree_zone_insert.
    - eapply agree_frame; [exact Hag|apply storage_system_entities_frame..].
    - unfold storage_system_entities, storage_system_effect. state_fields.
      rewrite length_app. cbn [length]. lia.
    - unfold storage_system_entities, storage_system_effect. state_fields.
      rewrite length_app. cbn [length]. lia.
    - unfold storage_system_entities, storage_system_effect. state_fields.
      cbn [entry]. rewrite !lookup_app_new. reflexivity. }
  rewrite !storage_system_effect_split.
  destruct (storage_system_kind f) as [k|] eqn:Hk.
  - destruct (storage_system_entry p1 f st1 k Hk) as (s1 & S1 & D1 & E1).
    destruct (storage_system_entry p2 f st2 k Hk) as (s2 & S2 & D2 & E2).
    apply (agree_storage_insert _ _ _ _ _ s1 s2 Hzone S1 S2 D1 D2).
    change (disks (with_zone_map _ (storage_system_entities p1 f st1)))
      with (disks (storage_system_entities p1 f st1)).
    change (disks (with_zone_map _ (storage_system_entities p2 f st2)))
      with (disks (storage_system_entities p2 f st2)).
    rewrite E1, E2. reflexivity.
  - eapply agree_frame; [exact Hzone|constructor; state_fields..];
      first [reflexivity|apply kept_refl].
Qed.

Lemma sim_create_storage_system_zone p1 p2 cfg :
  sim (create_storage_system_zone p1 cfg) (create_storage_system_zone p2 cfg).
Proof.
  intros st1 st2 Hag. rewrite !create_storage_system_zone_effect.
  destruct (storage_fields_of cfg) as [f| |]; cbn [rbind]; [|reflexivity|exact I].
  apply agree_storage_system_effect, Hag.
Qed.

Lemma sim_load_facility cfg : sim (load_facility cfg) (load_facility cfg).
Proof.
  unfold load_facility.
  apply sim_bind; [apply sim_create_facility_zone|intros d1 d2].
  apply sim_bind.
  { destruct (contains cfg "storage_systems"); [|apply sim_ret].
    apply sim_read_json; intros cfgs. apply sim_for_each; intros x.
    apply sim_create_storage_system_zone. }
  intros _ _. apply sim_bind.
  { destruct (contains cfg "clusters"); [|apply sim_ret].
    apply sim_read_json; intros cfgs. apply sim_for_each; intros x.
    apply sim_create_cluster_zone. }
  intros _ _. apply sim_bind.
  { destruct (contains cfg "links"); [|apply sim_ret].
    apply sim_read_json; intros c. apply sim_create_inter_zone_links. }
  intros _ _. apply sim_bind.
  { destruct (contains cfg "routes"); [|apply sim_ret].
    apply sim_read_json; intros c. apply sim_create_routes. }
  intros _ _. apply sim_framed; apply seal_framed.
Qed.

Lemma sim_compile fuel config : sim (compile fuel config) (compile fuel config).
Proof.
  unfold compile.
  apply sim_lift; intros fc. cbv zeta.
  apply sim_bind; [apply sim_for_each; intros x; apply sim_load_facility|intros _ _].
  destruct (contains (snd fc) "filesystems"); [|apply sim_ret].
  apply sim_read_json; intros fss. apply sim_create_filesystems.
Qed.

Lemma sim_load_platform fuel src : sim (load_platform fuel src) (load_platform fuel src).
Proof.
  destruct src as [|config]; cbn [load_platform]; [|apply sim_compile].
  intros st1 st2 _. reflexivity.
Qed.

Lemma agree_same_registries (s1 s2 : state) : agree s1 s2 -> same_registries s1 s2.
Proof.
  intros [_ _ AZ AL AS]. unfold same_registries.
  repeat split; try assumption.
  - rewrite <- (dom_fmap_L (entry zone_attr (zones s1))).
    rewrite <- (dom_fmap_L (entry zone_attr (zones s2)) (zone_map s2)).
    unfold zone_view in AZ. rewrite AZ. reflexivity.
  - rewrite <- (dom_fmap_L (entry link_attr (links s1))).
    rewrite <- (dom_fmap_L (entry link_attr (links s2)) (link_map s2)).
    unfold link_view in AL. rewrite AL. reflexivity.
  - rewrite <- (dom_fmap_L (entry (storage_attr (disks s1)) (storages s1))).
    rewrite <- (dom_fmap_L (entry (storage_attr (disks s2)) (storages s2))
                  (storage_map s2)).
    unfold storage_view in AS. rewrite AS. reflexivity.
Qed.

(** A process with empty registries, whatever its engine already holds. *)
Lemma agree_empty_registries (st1 st2 : state) :
  zone_map st1 = ∅ -> link_map st1 = ∅ -> storage_map st1 = ∅ ->
  zone_map st2 = ∅ -> link_map st2 = ∅ -> storage_map st2 = ∅ ->
  agree st1 st2.
Proof.
  intros Z1 L1 S1 Z2 L2 S2.
  constructor; [constructor|constructor|..];
    unfold valid, valid_disks, zone_view, link_view, storage_view;
    rewrite ?Z1, ?L1, ?S1, ?Z2, ?L2, ?S2, ?fmap_empty;
    try reflexivity; intros *; rewrite lookup_empty; discriminate.
Qed.

(** C7.  Two passes over the same input, started in states whose
    registries agree (the same names, the same attributes behind the
    handles), end the same way; when they complete, the zone, link and
    storage registries hold the same names, and behind each name an
    entity with the same attributes, whatever the handles are.  Two
    processes that start with empty registries are such states. *)
Theorem compile_deterministic (fuel : nat) (src : config_source) (st1 st2 : state) :
  agree st1 st2 ->
  match load_platform fuel src st1, load_platform fuel src st2 with
  | Ok (_, s1), Ok (_, s2) => same_registries s1 s2
  | Err e1, Err e2 => e1 = e2
  | Timeout, Timeout => True
  | _, _ => False
  end.
Proof.
  intros Hag. pose proof (sim_load_platform fuel src st1 st2 Hag) as H.
  destruct (load_platform fuel src st1) as [[[] s1]| |],
           (load_platform fuel src st2) as [[[] s2]| |]; try assumption.
  apply agree_same_registries, H.
Qed.

Lemma compile_deterministic_witness :
  exists s1 s2,
    load_platform 1 (Parsed example_scratch_document) initial_state = Ok (tt, s1) /\
    load_platform 1 (Parsed example_scratch_document) busy_state = Ok (tt, s2) /\
    zone_map s1 !! "c0" = Some (Some 1%nat) /\
    zone_map s2 !! "c0" = Some (Some 2%nat) /\
    same_registries s1 s2.
Proof.
  assert (Hrun : exists s1 s2,
    load_platform 1 (Parsed example_scratch_document) initial_state = Ok (tt, s1) /\
    load_platform 1 (Parsed example_scratch_document) busy_state = Ok (tt, s2) /\
    zone_map s1 !! "c0" = Some (Some 1%nat) /\
    zone_map s2 !! "c0" = Some (Some 2%nat))
    by (eexists _, _; repeat split; vm_compute; reflexivity).
  destruct Hrun as (s1 & s2 & H1 & H2 & Hz1 & Hz2).
  exists s1, s2. repeat (split; [assumption|]).
  pose proof (compile_deterministic 1 (Parsed example_scratch_document)
                initial_state busy_state) as H.
  rewrite H1, H2 in H. apply H.
  apply agree_empty_registries; reflexivity.
Defined.

(** ** File systems on clusters *)

Lemma node_partitions_touch fuel pattern size info m k l :
  node_partitions fuel pattern size info (touch m k) l
  = node_partitions fuel pattern size info m l.
Proof.
  induction l as [|i l IH]; [reflexivity|].
  cbn [node_partitions]. rewrite IH, resolve_touch. reflexivity.
Qed.

Lemma mount_loop_effect (fuel fs : nat) (pattern size : string) (info : cluster_info)
    (l : list nat) :
  forall st,
    for_each l (mount_cluster_node fuel fs pattern size info) st =
    match node_partitions fuel pattern size info (storage_map st) l with
    | Some ps =>
        Ok (tt,
            with_filesystems (alter (add_partitions ps) fs)
              (with_storage_map (fun m =>
                 fold_left touch (map (mount_storage_name info) l) m) st))
    | None => Timeout
    end.
Proof.
  induction l as [|i l IH]; intros st.
  - cbn [for_each node_partitions map fold_left]. unfold ret.
    destruct st. unfold with_filesystems, with_storage_map. state_fields.
    rewrite list_alter_id; [reflexivity|].
    intros [n mx ps]. unfold add_partitions. state_fields. rewrite app_nil_r.
    reflexivity.
  - cbn [for_each node_partitions map fold_left].
    unfold mount_cluster_node at 1. cbv zeta.
    fold (hostname (ci_prefix info) (ci_suffix info) i).
    destruct (substitute_hostname fuel pattern _) as [mp|]; [|reflexivity].
    rewrite bind_assoc. do 2 call_step. rewrite IH. state_fields.
    fold (mount_storage_name info i).
    fold (touch (storage_map st) (mount_storage_name info i)).
    fold (resolve (storage_map st) (mount_storage_name info i)).
    rewrite node_partitions_touch.
    destruct (node_partitions fuel pattern size info (storage_map st) l) as [ps|];
      [|reflexivity].
    unfold with_filesystems, with_storage_map. state_fields.
    rewrite list_alter_alter_eq. do 3 f_equal.
    apply list_alter_ext; [|reflexivity].
    intros [n mx ps0] _. unfold add_partitions. cbn [compose]. state_fields.
    rewrite <- app_assoc. reflexivity.
Qed.

Lemma create_filesystem_cluster_effect (fuel : nat) (platform_config fs_cfg : json)
    (st : state) :
  contains fs_cfg "storage_system" = false ->
  contains fs_cfg "cluster" = true ->
  create_filesystem fuel platform_config fs_cfg st =
  rbind (mount_fields_of platform_config fs_cfg) (fun f =>
    match node_partitions fuel (mf_pattern f) (mf_size f) (mf_info f) (storage_map st)
            (range (ci_count (mf_info f))) with
    | Some ps => Ok (tt, cluster_mount_effect f ps st)
    | None => Timeout
    end).
Proof.
  intros Hsys Hcluster. unfold create_filesystem, mount_fields_of.
  do 3 read_step. call_step. rewrite Hsys, Hcluster.
  do 3 read_step. cbn [rbind mf_pattern mf_size mf_info mf_name mf_cluster].
  unfold bind at 1. rewrite mount_loop_effect. state_fields.
  destruct (node_partitions fuel x0 x1 x4 (storage_map st) (range (ci_count x4)))
    as [ps|]; [|reflexivity].
  call_step. unfold register_file_system, modify, cluster_mount_effect. state_fields.
  rewrite ?alter_last. unfold add_partitions. state_fields. reflexivity.
Qed.

(** C3 at a failing input.  The cluster of [example_brace_document] has
    one node, ["{hostname}-0"].  The claim asks for one partition at
    ["/{hostname}-0/scratch/"]; the loop of the loader puts the host name
    in place of the placeholder, finds the placeholder of the host name,
    and goes on for ever: no partition is mounted and the pass does not
    complete, whatever the fuel. *)
Theorem cluster_mount_rescans :
  replace_every_occurrence placeholder (hostname "{hostname}-" "" 0)
    "/{hostname}/scratch/" = "/{hostname}-0/scratch/" /\
  forall fuel,
    load_platform fuel (Parsed example_brace_document) initial_state = Timeout.
Proof.
  split; [reflexivity|]. intros fuel.
  cbn [load_platform]. unfold compile.
  erewrite bind_ok by (vm_compute; reflexivity). cbv zeta.
  erewrite bind_ok by (vm_compute; reflexivity).
  match goal with |- (if ?c then _ else _) _ = _ =>
    change c with true; cbv iota end.
  erewrite bind_ok by (vm_compute; reflexivity).
  unfold create_filesystems.
  match goal with |- for_each ?l _ _ = _ =>
    change l with [example_scratch_filesystem] end.
  cbn [for_each]. unfold bind at 1.
  rewrite create_filesystem_cluster_effect by reflexivity.
  match goal with |- context [mount_fields_of ?c ?f] =>
    let r := eval vm_compute in (mount_fields_of c f) in
    change (mount_fields_of c f) with r end.
  cbn [rbind mf_pattern mf_size mf_info mf_name mf_cluster ci_count].
  change (range 1) with [0%nat]. cbn [node_partitions ci_prefix ci_suffix].
  rewrite substitute_hostname_diverges; [reflexivity|exists 0%nat|exists 1%nat];
    reflexivity.
Qed.

Lemma replace_from_skip (h s : string) (k : nat) :
  replace_from placeholder h s k = replace_every_occurrence placeholder h (drop_str k s).
Proof.
  revert k. induction s as [|c s IH]; intros k.
  - destruct k; reflexivity.
  - destruct k as [|k]; [reflexivity|]. cbn [replace_from drop_str]. apply IH.
Qed.

Lemma replace_every_cons (h : string) (c : ascii) (s : string) :
  replace_every_occurrence placeholder h (String c s) =
  if String.prefix placeholder (String c s)
  then h +:+ replace_every_occurrence placeholder h (drop_str 10 (String c s))
  else String c (replace_every_occurrence placeholder h s).
Proof.
  unfold replace_every_occurrence at 1. cbn [replace_from].
  destruct (String.prefix placeholder (String c s)); [|reflexivity].
  rewrite replace_from_skip. reflexivity.
Qed.

Lemma prefix_other (c : ascii) (s : string) :
  c <> "{"%char -> String.prefix placeholder (String c s) = false.
Proof.
  intros Hc. unfold placeholder. rewrite prefix_cons.
  destruct (ascii_dec "{" c); [congruence|reflexivity].
Qed.

Lemma count_char_cons_0 (c x : ascii) (s : string) :
  count_char c (String x s) = 0%nat -> x <> c /\ count_char c s = 0%nat.
Proof.
  cbn [count_char]. destruct (Ascii.eqb_spec x c); [lia|]. intros H. split; [assumption|lia].
Qed.

(** The pass goes over a text without an opening brace unchanged. *)
Lemma replace_every_pass (h x s : string) :
  count_char "{" x = 0%nat ->
  replace_every_occurrence placeholder h (x +:+ s)
  = x +:+ replace_every_occurrence placeholder h s.
Proof.
  induction x as [|c x IH]; intros Hx; [reflexivity|].
  apply count_char_cons_0 in Hx. destruct Hx as [Hc Hx].
  rewrite !app_str_cons, replace_every_cons, prefix_other by assumption.
  f_equal. apply IH, Hx.
Qed.

Lemma replace_every_none (h s : string) :
  find placeholder s = None -> replace_every_occurrence placeholder h s = s.
Proof.
  induction s as [|c s IH]; intros H; [reflexivity|].
  rewrite find_cons in H. rewrite replace_every_cons.
  destruct (String.prefix placeholder (String c s)); [discriminate|].
  f_equal. apply IH. destruct (find placeholder s); [discriminate|reflexivity].
Qed.

Section Rescan.

(** A host name without braces that holds a character [d] foreign to the
    placeholder. *)
Variables (h : string) (d : ascii).
Hypothesis h_open : count_char "{" h = 0%nat.
Hypothesis h_close : count_char "}" h = 0%nat.
Hypothesis h_foreign : (1 <= count_char d h)%nat.

(** No end of the placeholder starts a text that starts with the host
    name. *)
Lemma no_prefix_host (b : string) :
  forall (h' q : string),
    (1 <= count_char d h')%nat ->
    count_char "}" h' = 0%nat ->
    q <> EmptyString ->
    count_char d q = 0%nat ->
    last_is "}" q ->
    String.prefix q (h' +:+ b) = true -> False.
Proof.
  induction h' as [|x h' IH]; intros q Hd Hclose Hq Hdq Hlast Hp.
  - cbn in Hd. lia.
  - destruct q as [|c q]; [congruence|].
    rewrite app_str_cons, prefix_cons in Hp.
    destruct (ascii_dec c x) as [->|]; [|discriminate].
    apply count_char_cons_0 in Hdq, Hclose.
    destruct Hdq as [Hxd Hdq], Hclose as [Hxc Hclose].
    destruct q as [|c' q]; [cbn in Hlast; congruence|].
    apply (IH (String c' q)); try assumption; try discriminate.
    cbn [count_char] in Hd. destruct (Ascii.eqb_spec x d); [congruence|lia].
Qed.

(** An occurrence that starts in [x] before the host name lies within
    [x]. *)
Lemma prefix_transfer (b y : string) :
  forall (x q : string),
    q = EmptyString \/ (count_char d q = 0%nat /\ last_is "}" q) ->
    String.prefix q (x +:+ h +:+ b) = true ->
    String.prefix q (x +:+ y) = true.
Proof.
  induction x as [|c x IH]; intros q Hq Hp.
  - destruct Hq as [->|[Hdq Hlast]]; [apply prefix_nil|].
    exfalso. rewrite app_str_nil_l in Hp.
    apply (no_prefix_host b h q); try assumption.
    intros ->. exact Hlast.
  - destruct q as [|c' q]; [apply prefix_nil|].
    rewrite app_str_cons, prefix_cons in *.
    destruct (ascii_dec c' c); [|discriminate].
    apply IH; [|assumption].
    destruct Hq as [Hq|[Hdq Hlast]]; [discriminate|].
    apply count_char_cons_0 in Hdq. destruct Hdq as [_ Hdq].
    destruct q as [|c'' q]; [left; reflexivity|right].
    split; assumption.
Qed.

Hypothesis d_foreign : count_char d placeholder = 0%nat.

(** One replacement of the loop does not change what the single pass
    makes of the string. *)
Lemma replace_every_step (s : string) :
  forall n, find placeholder s = Some n ->
  replace_every_occurrence placeholder h (replace n 10 h s)
  = replace_every_occurrence placeholder h s.
Proof.
  induction s as [|c s IH]; intros n Hfind; [discriminate|].
  pose proof (find_split _ _ _ Hfind) as Hsplit.
  rewrite find_cons in Hfind. unfold replace in *.
  rewrite (replace_every_cons h c s).
  destruct (String.prefix placeholder (String c s)) eqn:Hp.
  - injection Hfind as <-. cbn [take_str Nat.add]. rewrite app_str_nil_l.
    apply replace_every_pass, h_open.
  - destruct (find placeholder s) as [m|] eqn:Hm; [|discriminate].
    injection Hfind as <-. cbn [take_str drop_str Nat.add] in *.
    rewrite app_str_cons in *. rewrite replace_every_cons.
    destruct (String.prefix placeholder
                (String c (take_str m s +:+ h +:+ drop_str (m + 10) s))) eqn:Hp'.
    + exfalso. rewrite <- app_str_cons in Hp'.
      apply (prefix_transfer _ (placeholder +:+ drop_str (m + 10) s)) in Hp'.
      * rewrite app_str_cons in Hp'.
        change (String.length placeholder) with 10%nat in Hsplit.
        rewrite <- Hsplit in Hp'. congruence.
      * right. split; [exact d_foreign|reflexivity].
    + f_equal. apply IH. reflexivity.
Qed.

(** When the loop ends, its result is the template with every occurrence
    of the placeholder replaced by the host name. *)
Lemma substitute_hostname_result (fuel : nat) :
  forall s r,
    substitute_hostname fuel s h = Some r ->
    r = replace_every_occurrence placeholder h s.
Proof.
  induction fuel as [|fuel IH]; intros s r; rewrite substitute_hostname_eq;
    destruct (find placeholder s) as [n|] eqn:Hfind; intros H; try discriminate.
  - injection H as <-. symmetry. apply replace_every_none, Hfind.
  - rewrite <- (replace_every_step s n Hfind). apply IH, H.
  - injection H as <-. symmetry. apply replace_every_none, Hfind.
Qed.

Lemma substitute_hostname_replaces (fuel : nat) (template : string) :
  (count_char "{" template <= fuel)%nat ->
  substitute_hostname fuel template h
  = Some (replace_every_occurrence placeholder h template).
Proof.
  intros Hfuel.
  destruct (substitute_hostname_terminates "{" h fuel) with (template := template)
    as (r & Hr & _); [cbn; auto|exact h_open|exact Hfuel|].
  rewrite Hr. f_equal. eapply substitute_hostname_result, Hr.
Qed.

End Rescan.

Lemma digit_char_foreign (k : nat) :
  (k < 10)%nat ->
  digit_char k <> "{"%char /\ digit_char k <> "}"%char /\
  count_char (digit_char k) placeholder = 0%nat.
Proof.
  intros Hk.
  do 10 (destruct k as [|k]; [repeat split; discriminate|]). lia.
Qed.

Lemma digits_eq (fuel n : nat) (acc : string) :
  digits (S fuel) n acc =
  if (n / 10 =? 0)%nat then String (digit_char (n mod 10)) acc
  else digits fuel (n / 10) (String (digit_char (n mod 10)) acc).
Proof. reflexivity. Qed.

Lemma count_char_digits (c : ascii) (fuel : nat) :
  (forall k, (k < 10)%nat -> digit_char k <> c) ->
  forall n acc, count_char c (digits fuel n acc) = count_char c acc.
Proof.
  intros Hc. induction fuel as [|fuel IH]; intros n acc; [reflexivity|].
  rewrite digits_eq.
  assert (Hstep : count_char c (String (digit_char (n mod 10)) acc) = count_char c acc).
  { cbn [count_char].
    destruct (Ascii.eqb_spec (digit_char (n mod 10)) c) as [E|_]; [|reflexivity].
    exfalso. apply (Hc (n mod 10)%nat); [|exact E].
    apply Nat.mod_upper_bound. lia. }
  destruct (n / 10 =? 0)%nat; [exact Hstep|]. rewrite IH. exact Hstep.
Qed.

Lemma count_char_digits_le (c : ascii) (fuel : nat) :
  forall n acc, (count_char c acc <= count_char c (digits fuel n acc))%nat.
Proof.
  induction fuel as [|fuel IH]; intros n acc; [reflexivity|].
  rewrite digits_eq.
  assert (Hstep : (count_char c acc
                   <= count_char c (String (digit_char (n mod 10)) acc))%nat)
    by (cbn [count_char]; lia).
  destruct (n / 10 =? 0)%nat; [exact Hstep|].
  etrans; [exact Hstep|apply IH].
Qed.

Lemma to_string_last_digit (n : nat) :
  (1 <= count_char (digit_char (n mod 10)) (to_string n))%nat.
Proof.
  unfold to_string. rewrite digits_eq.
  assert (Hstep : (1 <= count_char (digit_char (n mod 10))
                          (String (digit_char (n mod 10)) ""))%nat)
    by (cbn [count_char]; rewrite Ascii.eqb_refl; lia).
  destruct (n / 10 =? 0)%nat; [exact Hstep|].
  etrans; [exact Hstep|apply count_char_digits_le].
Qed.

Lemma to_string_no_brace (c : ascii) (n : nat) :
  c = "{"%char \/ c = "}"%char -> count_char c (to_string n) = 0%nat.
Proof.
  intros Hc. unfold to_string. rewrite count_char_digits; [reflexivity|].
  intros k Hk. destruct (digit_char_foreign k Hk) as (H1 & H2 & _).
  destruct Hc as [->| ->]; assumption.
Qed.

Lemma hostname_no_brace (c : ascii) (prefix suffix : string) (i : nat) :
  c = "{"%char \/ c = "}"%char ->
  count_char c prefix = 0%nat -> count_char c suffix = 0%nat ->
  count_char c (hostname prefix suffix i) = 0%nat.
Proof.
  intros Hc Hp Hs. unfold hostname.
  rewrite !count_char_app, Hp, Hs, to_string_no_brace by assumption. reflexivity.
Qed.

Lemma hostname_digit (prefix suffix : string) (i : nat) :
  (1 <= count_char (digit_char (i mod 10)) (hostname prefix suffix i))%nat.
Proof.
  unfold hostname. rewrite !count_char_app.
  pose proof (to_string_last_digit i). lia.
Qed.

(** On host names made from a prefix and a suffix without braces, the
    loop computes the single pass. *)
Lemma substitute_synthesized (fuel : nat) (template prefix suffix : string) (i : nat) :
  count_char "{" prefix = 0%nat -> count_char "}" prefix = 0%nat ->
  count_char "{" suffix = 0%nat -> count_char "}" suffix = 0%nat ->
  (count_char "{" template <= fuel)%nat ->
  substitute_hostname fuel template (hostname prefix suffix i)
  = Some (replace_every_occurrence placeholder (hostname prefix suffix i) template).
Proof.
  intros Hpo Hpc Hso Hsc Hfuel.
  apply (substitute_hostname_replaces _ (digit_char (i mod 10))).
  - apply hostname_no_brace; auto.
  - apply hostname_no_brace; auto.
  - apply hostname_digit.
  - apply digit_char_foreign, Nat.mod_upper_bound. lia.
  - exact Hfuel.
Qed.

Lemma node_partitions_replaces (fuel : nat) (pattern size : string) (info : cluster_info)
    (m : gmap string (option nat)) (l : list nat) :
  count_char "{" (ci_prefix info) = 0%nat -> count_char "}" (ci_prefix info) = 0%nat ->
  count_char "{" (ci_suffix info) = 0%nat -> count_char "}" (ci_suffix info) = 0%nat ->
  (count_char "{" pattern <= fuel)%nat ->
  node_partitions fuel pattern size info m l =
  Some (map (fun i =>
          mk_partition
            (replace_every_occurrence placeholder
               (hostname (ci_prefix info) (ci_suffix info) i) pattern)
            (resolve m (mount_storage_name info i)) size) l).
Proof.
  intros Hpo Hpc Hso Hsc Hfuel. induction l as [|i l IH]; [reflexivity|].
  cbn [node_partitions map].
  rewrite substitute_synthesized, IH by assumption. reflexivity.
Qed.

(** The search stops at the first cluster of a facility that has the
    wanted name, and takes its prefix, suffix and count, and the name of
    its node storage if it has one. *)
Lemma field_string_at_key (j : json) (key s : string) :
  field_string j key = Ok s -> at_key j key = Ok (JStr s).
Proof.
  unfold field_string. destruct (at_key j key) as [v| |]; cbn [rbind]; try discriminate.
  destruct v; cbn; try discriminate. intros [= ->]. reflexivity.
Qed.

Lemma scan_clusters_found (cluster : json) (rest : list json) (info : cluster_info)
    (f : cluster_fields) :
  cluster_fields_of cluster = Ok f ->
  scan_clusters (cluster :: rest) (cf_name f) info
  = Ok (mk_cluster_info (cf_prefix f) (cf_suffix f)
          (if cf_has_storage f then cf_storage_base_name f
           else ci_storage_base_name info)
          (cf_count f)).
Proof.
  unfold cluster_fields_of. intros H.
  repeat match type of H with
  | rbind ?r _ = _ => destruct r eqn:?; cbn [rbind] in H; [|discriminate..]
  end.
  cbn [scan_clusters].
  repeat match goal with
  | E : field_string _ _ = Ok _ |- _ =>
      pose proof (field_string_at_key _ _ _ E); clear E
  end.
  match type of H with
  | (if contains ?n "storage" then _ else _) = _ =>
      destruct (contains n "storage") eqn:Hc
  end;
    repeat match type of H with
    | rbind ?r _ = _ => destruct r eqn:?; cbn [rbind] in H; [|discriminate..]
    end;
    repeat match goal with
    | E : field_string _ _ = Ok _ |- _ =>
        pose proof (field_string_at_key _ _ _ E); clear E
    end;
    injection H as <-; cbn [cf_name cf_prefix cf_suffix cf_count cf_has_storage
                            cf_storage_base_name];
    repeat match goal with
    | E : at_key _ _ = Ok _ |- _ => rewrite E; clear E
    | E : field_int _ _ = Ok _ |- _ => unfold field_int in E
    | E : rbind (at_key ?j ?k) get_int = Ok _ |- _ => rewrite E; clear E
    | _ => progress cbn [rbind json_eq_string get_string]
    | _ => rewrite String.eqb_refl
    | _ => rewrite Hc
    end; reflexivity.
Qed.

(** X20.  Where the claim on cluster-mode file systems holds.  For such an
    entry, when the prefix and the suffix of the cluster have no brace,
    the round mounts one partition per node index below the count, in
    increasing order; the mount point of node [i] is the template with
    every occurrence of the placeholder replaced by the host name of the
    node; the file system is registered once, against what the zone
    registry holds for the cluster name. *)
Theorem cluster_filesystem_mounts (fuel : nat) (platform_config fs_cfg : json)
    (f : mount_fields) (st : state) :
  contains fs_cfg "storage_system" = false ->
  contains fs_cfg "cluster" = true ->
  mount_fields_of platform_config fs_cfg = Ok f ->
  count_char "{" (ci_prefix (mf_info f)) = 0%nat ->
  count_char "}" (ci_prefix (mf_info f)) = 0%nat ->
  count_char "{" (ci_suffix (mf_info f)) = 0%nat ->
  count_char "}" (ci_suffix (mf_info f)) = 0%nat ->
  (count_char "{" (mf_pattern f) <= fuel)%nat ->
  exists st',
    create_filesystem fuel platform_config fs_cfg st = Ok (tt, st') /\
    filesystems st' = filesystems st ++
      [mk_filesystem (mf_name f) max_open_files
         (map (fun i =>
            mk_partition
              (replace_every_occurrence placeholder
                 (hostname (ci_prefix (mf_info f)) (ci_suffix (mf_info f)) i)
                 (mf_pattern f))
              (resolve (storage_map st) (mount_storage_name (mf_info f) i))
              (mf_size f))
            (range (ci_count (mf_info f))))] /\
    registered st' = registered st ++
      [(resolve (zone_map st) (mf_cluster f), length (filesystems st))].
Proof.
  intros Hsys Hcluster Hf Hpo Hpc Hso Hsc Hfuel.
  rewrite create_filesystem_cluster_effect, Hf by assumption. cbn [rbind].
  rewrite node_partitions_replaces by assumption.
  eexists. split; [reflexivity|]. split; reflexivity.
Qed.

(** The example scenario: the template ["/{hostname}/scratch/"] on the
    three nodes of [c0]. *)
Lemma cluster_filesystem_mounts_example :
  exists st',
    load_platform 1 (Parsed example_scratch_document) initial_state = Ok (tt, st') /\
    map (fun x => map p_mount_point (fs_partitions x)) (filesystems st')
      = [["/n0/scratch/"; "/n1/scratch/"; "/n2/scratch/"]] /\
    registered st' = [(Some 1%nat, 0%nat)] /\
    zone_map st' !! "c0" = Some (Some 1%nat).
Proof.
  eexists. split; [vm_compute; reflexivity|].
  repeat split; vm_compute; reflexivity.
Qed.

(** * More properties of the loader, and the summary *)

(** ** Decimal numbers and host names *)

Lemma digits_app (fuel : nat) :
  forall n acc, digits fuel n acc = digits fuel n "" +:+ acc.
Proof.
  induction fuel as [|fuel IH]; intros n acc.
  - reflexivity.
  - rewrite !digits_eq. destruct (n / 10 =? 0)%nat.
    + reflexivity.
    + rewrite IH, (IH _ (String _ "")), app_str_assoc, app_str_cons, app_str_nil_l.
      reflexivity.
Qed.

Lemma decimal_value_app (a b : string) :
  forall acc, decimal_value (a +:+ b) acc = decimal_value b (decimal_value a acc).
Proof.
  induction a as [|c a IH]; intros acc.
  - rewrite app_str_nil_l. reflexivity.
  - rewrite app_str_cons. cbn [decimal_value]. apply IH.
Qed.

Lemma decimal_value_digit (k acc : nat) :
  (k < 10)%nat -> decimal_value (String (digit_char k) "") acc = (10 * acc + k)%nat.
Proof.
  intros Hk. cbn [decimal_value]. unfold digit_char.
  rewrite nat_ascii_embedding by lia. lia.
Qed.

Lemma decimal_value_digits (fuel : nat) :
  forall n, (n < fuel)%nat -> decimal_value (digits fuel n "") 0 = n.
Proof.
  induction fuel as [|fuel IH]; intros n Hn; [lia|].
  rewrite digits_eq.
  assert (Hmod : (n mod 10 < 10)%nat) by (apply Nat.mod_upper_bound; lia).
  destruct (Nat.eqb_spec (n / 10) 0) as [H0|H0].
  - rewrite decimal_value_digit by assumption.
    pose proof (Nat.div_mod_eq n 10). lia.
  - assert (Hdiv : (n / 10 < fuel)%nat).
    { assert (0 < n)%nat by (destruct n; [contradiction H0; reflexivity | lia]).
      pose proof (Nat.div_lt n 10). lia. }
    rewrite digits_app, decimal_value_app, IH by assumption.
    rewrite decimal_value_digit by assumption.
    pose proof (Nat.div_mod_eq n 10). lia.
Qed.

Lemma decimal_value_to_string (n : nat) : decimal_value (to_string n) 0 = n.
Proof. unfold to_string. apply decimal_value_digits. lia. Qed.

Lemma to_string_inj (i j : nat) : to_string i = to_string j -> i = j.
Proof.
  intros H. rewrite <- (decimal_value_to_string i), <- (decimal_value_to_string j), H.
  reflexivity.
Qed.

Lemma app_str_inv_l (p a b : string) : p +:+ a = p +:+ b -> a = b.
Proof.
  induction p as [|c p IH]; rewrite ?app_str_nil_l; [auto|].
  rewrite !app_str_cons. intros [= H]. auto.
Qed.

Lemma app_str_inv_r (s : string) :
  forall a b, a +:+ s = b +:+ s -> a = b.
Proof.
  intros a. induction a as [|x a IH]; intros b H.
  - destruct b as [|y b]; [reflexivity|]. exfalso.
    apply (f_equal String.length) in H. rewrite !length_app_str in H.
    cbn [String.length] in H. lia.
  - destruct b as [|y b].
    + exfalso. apply (f_equal String.length) in H. rewrite !length_app_str in H.
      cbn [String.length] in H. lia.
    + rewrite !app_str_cons in H. injection H as -> H. f_equal. auto.
Qed.

Lemma hostname_inj (prefix suffix : string) (i j : nat) :
  hostname prefix suffix i = hostname prefix suffix j -> i = j.
Proof.
  unfold hostname. intros H. apply app_str_inv_r, app_str_inv_l in H.
  apply to_string_inj, H.
Qed.

Lemma last_char_app (a : string) (c : ascii) (b : string) :
  last_char (a +:+ String c b) = last_char (String c b).
Proof.
  induction a as [|x a IH].
  - rewrite app_str_nil_l. reflexivity.
  - rewrite app_str_cons. destruct a as [|y a].
    + rewrite app_str_nil_l in *. reflexivity.
    + rewrite app_str_cons in *. exact IH.
Qed.

(** ** Storage systems *)

Lemma NoDup_map_seq {A} (g : nat -> A) (n : nat) :
  (forall i j, g i = g j -> i = j) -> NoDup (map g (seq 0 n)).
Proof.
  intros Hg. apply (NoDup_fmap_2_strong g); [auto|apply NoDup_seq].
Qed.

(** X1.  A JBOD storage system with [disk_count = n] gets [n] disks on its
    server, named [<name>_disk] when [n] is 1 and [<name>_disk<i>]
    otherwise, no two of them with the same name; the one JBOD device
    groups exactly these disks, in their order, and is registered under
    [<name>_storage].  A count of zero or less gives a JBOD device without
    a disk. *)
Theorem jbod_storage_system (parent : nat) (storage_config : json)
    (f : storage_fields) (st : state) :
  storage_fields_of storage_config = Ok f ->
  sf_type f = "JBOD" ->
  exists st' new_disks,
    create_storage_system_zone parent storage_config st = Ok (tt, st') /\
    disks st' = disks st ++ new_disks /\
    new_disks =
      map (fun i =>
             mk_disk (if sf_disk_count f =? 1 then sf_name f +:+ "_disk"
                      else (sf_name f +:+ "_disk") +:+ to_string i)
               (sf_read_bw f) (sf_write_bw f) (length (hosts st)))
        (seq 0 (Z.to_nat (sf_disk_count f))) /\
    NoDup (map d_name new_disks) /\
    hosts st' = hosts st ++
      [mk_host (sf_name f +:+ "_server") (sf_server_speed f) 1 (length (zones st))] /\
    storages st' = storages st ++
      [mk_storage (sf_name f +:+ "_storage") JBOD
         (seq (length (disks st)) (length new_disks))] /\
    storage_map st' !! (sf_name f +:+ "_storage") = Some (Some (length (storages st))) /\
    (sf_disk_count f <= 0 -> new_disks = []).
Proof.
  intros Hf Htype.
  assert (Hkind : storage_system_kind f = Some JBOD).
  { unfold storage_system_kind. rewrite Htype. reflexivity. }
  rewrite create_storage_system_zone_effect, Hf. cbn [rbind].
  eexists _, _. split; [reflexivity|].
  unfold storage_system_effect, storage_system_disks, storage_system_storages,
    jbod_disk, range.
  rewrite Hkind. cbn [disks hosts storages storage_map].
  split; [reflexivity|]. split; [reflexivity|]. split.
  - rewrite map_map. cbn [d_name].
    destruct (Z.eqb_spec (sf_disk_count f) 1) as [H1|H1].
    + rewrite H1. cbn. apply NoDup_singleton.
    + apply NoDup_map_seq. intros i j H.
      apply app_str_inv_l in H. apply to_string_inj, H.
  - split; [reflexivity|]. split; [|split].
    + rewrite length_map, length_seq. reflexivity.
    + apply lookup_insert_eq.
    + intros Hle. replace (Z.to_nat (sf_disk_count f)) with O by lia. reflexivity.
Qed.

Lemma jbod_storage_system_witness :
  exists st' new_disks,
    create_storage_system_zone 0 example_jbod_system initial_state = Ok (tt, st') /\
    disks st' = new_disks /\
    map d_name new_disks = ["pfs_disk0"; "pfs_disk1"; "pfs_disk2"] /\
    storages st' = [mk_storage "pfs_storage" JBOD [0; 1; 2]%nat].
Proof.
  destruct (jbod_storage_system 0 example_jbod_system
              (mk_storage_fields "pfs" "1Gf" "JBOD" 3 "180MBps" "160MBps")
              initial_state eq_refl eq_refl)
    as (st' & new_disks & Hrun & Hdisks & Hnew & _ & _ & Hsto & _).
  exists st', new_disks. split; [exact Hrun|].
  split; [exact Hdisks|]. split.
  - rewrite Hnew. reflexivity.
  - rewrite Hsto, Hnew. reflexivity.
Defined.

(** X2.  A OneDisk storage system gets exactly one disk, [<name>_disk],
    whatever its [disk_count] says; but the member is read before the type
    is looked at, and a specification without it fails. *)
Theorem one_disk_storage_system (parent : nat) (storage_config : json) (st : state) :
  (forall f,
     storage_fields_of storage_config = Ok f ->
     sf_type f = "OneDisk" ->
     exists st',
       create_storage_system_zone parent storage_config st = Ok (tt, st') /\
       disks st' = disks st ++
         [mk_disk (sf_name f +:+ "_disk") (sf_read_bw f) (sf_write_bw f)
            (length (hosts st))] /\
       storages st' = storages st ++
         [mk_storage (sf_name f +:+ "_storage") OneDisk [length (disks st)]] /\
       storage_map st' !! (sf_name f +:+ "_storage")
         = Some (Some (length (storages st)))) /\
  (forall name speed type,
     field_string storage_config "name" = Ok name ->
     field_string storage_config "server_speed" = Ok speed ->
     field_string storage_config "type" = Ok type ->
     contains storage_config "disk_count" = false ->
     create_storage_system_zone parent storage_config st = Err key_absent).
Proof.
  split.
  - intros f Hf Htype.
    assert (Hkind : storage_system_kind f = Some OneDisk).
    { unfold storage_system_kind. rewrite Htype. reflexivity. }
    rewrite create_storage_system_zone_effect, Hf. cbn [rbind].
    eexists. split; [reflexivity|].
    unfold storage_system_effect, storage_system_disks, storage_system_storages.
    rewrite Hkind. cbn [disks hosts storages storage_map].
    repeat split. apply lookup_insert_eq.
  - intros name speed type Hname Hspeed Htype Hcount.
    rewrite create_storage_system_zone_effect. unfold storage_fields_of.
    rewrite Hname, Hspeed, Htype. cbn [rbind].
    destruct storage_config as [| | | | |members]; try discriminate Hname.
    unfold field_int, at_key. unfold contains in Hcount.
    destruct (assoc "disk_count" members) as [v|] eqn:Hv; [|reflexivity].
    exfalso. apply bool_decide_eq_false in Hcount. apply Hcount. eauto.
Qed.

Lemma one_disk_storage_system_witness :
  (exists st',
     create_storage_system_zone 0 example_one_disk_many initial_state = Ok (tt, st') /\
     disks st' = [mk_disk "pfs_disk" "180MBps" "160MBps" 0] /\
     storages st' = [mk_storage "pfs_storage" OneDisk [0%nat]]) /\
  create_storage_system_zone 0 example_one_disk_system initial_state = Err key_absent.
Proof.
  split.
  - destruct (proj1 (one_disk_storage_system 0 example_one_disk_many initial_state)
                (mk_storage_fields "pfs" "1Gf" "OneDisk" 8 "180MBps" "160MBps")
                eq_refl eq_refl)
      as (st' & Hrun & Hdisks & Hsto & _).
    exists st'. split; [exact Hrun|]. split; [exact Hdisks | exact Hsto].
  - apply (proj2 (one_disk_storage_system 0 example_one_disk_system initial_state)
             "pfs" "1Gf" "OneDisk"); reflexivity.
Defined.

(** ** Node storage of clusters *)

Lemma fold_insert_other (name : nat -> string) (b : nat) (key : string) (l : list nat) :
  forall m : gmap string (option nat),
    (forall i, i ∈ l -> name i <> key) ->
    fold_left (fun m i => <[name i := Some (b + i)%nat]> m) l m !! key = m !! key.
Proof.
  induction l as [|x l IH]; intros m Hl; [reflexivity|].
  cbn [fold_left]. rewrite IH.
  - apply lookup_insert_ne, Hl. left.
  - intros i Hi. apply Hl. right. exact Hi.
Qed.

Lemma fold_insert_lookup (name : nat -> string) (b : nat) (l : list nat) :
  (forall i j, name i = name j -> i = j) ->
  NoDup l ->
  forall (m : gmap string (option nat)) i, i ∈ l ->
    fold_left (fun m i => <[name i := Some (b + i)%nat]> m) l m !! name i
    = Some (Some (b + i)%nat).
Proof.
  intros Hinj Hnd. induction Hnd as [|x l Hx Hnd IH]; intros m i Hi.
  - inversion Hi.
  - cbn [fold_left]. apply elem_of_cons in Hi as [->|Hi].
    + rewrite fold_insert_other; [apply lookup_insert_eq|].
      intros j Hj Hname. apply Hinj in Hname. subst j. contradiction.
    + apply IH, Hi.
Qed.

Lemma node_storage_name_inj (f : cluster_fields) (i j : nat) :
  node_storage_name f i = node_storage_name f j -> i = j.
Proof.
  unfold node_storage_name. intros H.
  apply app_str_inv_r, app_str_inv_r in H. apply hostname_inj in H. exact H.
Qed.

(** X3.  A cluster whose nodes have storage of type OneDisk or JBOD: node
    [i] gets one disk, [<hostname>_<base>_disk], attached to its host, and
    one storage device, [<hostname>_<base>], on exactly that disk; the
    storage registry maps the device name to it. *)
Theorem cluster_node_storage (parent : nat) (cluster_config : json)
    (f : cluster_fields) (st : state) (i : nat) :
  cluster_fields_of cluster_config = Ok f ->
  cf_has_storage f = true ->
  cf_storage_type f = "OneDisk" \/ cf_storage_type f = "JBOD" ->
  (i < Z.to_nat (cf_count f))%nat ->
  exists st',
    create_cluster_zone parent cluster_config st = Ok (tt, st') /\
    let name := (hostname (cf_prefix f) (cf_suffix f) i +:+ "_") +:+ cf_storage_base_name f in
    let h := (length (hosts st) + i)%nat in
    let d := (length (disks st) + i)%nat in
    let s := (length (storages st) + i)%nat in
    hosts st' !! h
      = Some (mk_host (hostname (cf_prefix f) (cf_suffix f) i)
                (cf_host_speed f) (cf_host_cores f) (length (zones st))) /\
    disks st' !! d
      = Some (mk_disk (name +:+ "_disk") (cf_storage_read_bw f) (cf_storage_write_bw f) h) /\
    storages st' !! s
      = Some (mk_storage name
                (if String.eqb (cf_storage_type f) "OneDisk" then OneDisk else JBOD) [d]) /\
    storage_map st' !! name = Some (Some s).
Proof.
  intros Hf Hhas Htype Hi.
  set (k := if String.eqb (cf_storage_type f) "OneDisk" then OneDisk else JBOD).
  assert (Hkind : node_storage_kind f = Some k).
  { unfold node_storage_kind, k. rewrite Hhas.
    destruct Htype as [-> | ->]; reflexivity. }
  rewrite create_cluster_zone_effect, Hf. cbn [rbind].
  eexists. split; [reflexivity|]. cbv zeta.
  destruct (cluster_storage_entry parent f st k i Hkind Hi) as [Hsto Hdisk].
  split; [|split; [exact Hdisk | split; [exact Hsto|]]].
  - unfold cluster_effect. cbn [hosts].
    rewrite lookup_app_r by lia.
    replace (length (hosts st) + i - length (hosts st))%nat with i by lia.
    rewrite lookup_map_seq by assumption. reflexivity.
  - unfold cluster_effect. cbn [storage_map]. rewrite Hkind. cbv beta iota.
    apply (fold_insert_lookup (node_storage_name f)).
    + apply node_storage_name_inj.
    + apply NoDup_seq.
    + apply elem_of_seq. lia.
Qed.

Lemma cluster_node_storage_witness :
  exists st',
    create_cluster_zone 0 example_storage_cluster initial_state = Ok (tt, st') /\
    hosts st' !! 2%nat = Some (mk_host "n2" "1Gf" 4 0) /\
    disks st' !! 2%nat = Some (mk_disk "n2_ssd_disk" "1GBps" "500MBps" 2) /\
    storages st' !! 2%nat = Some (mk_storage "n2_ssd" OneDisk [2%nat]) /\
    storage_map st' !! "n2_ssd" = Some (Some 2%nat).
Proof.
  apply (cluster_node_storage 0 example_storage_cluster example_storage_cluster_fields
           initial_state 2).
  - reflexivity.
  - reflexivity.
  - left. reflexivity.
  - cbn. lia.
Defined.

(** X4.  A cluster whose nodes have storage of a type the loader does not
    know: every node still gets its disk, but no storage device is created
    and the storage registry stays as it was. *)
Theorem cluster_node_storage_unsupported (parent : nat) (cluster_config : json)
    (f : cluster_fields) (st : state) :
  cluster_fields_of cluster_config = Ok f ->
  cf_has_storage f = true ->
  cf_storage_type f <> "OneDisk" ->
  cf_storage_type f <> "JBOD" ->
  exists st',
    create_cluster_zone parent cluster_config st = Ok (tt, st') /\
    disks st' = disks st ++
      map (fun i =>
             mk_disk (((hostname (cf_prefix f) (cf_suffix f) i +:+ "_")
                        +:+ cf_storage_base_name f) +:+ "_disk")
               (cf_storage_read_bw f) (cf_storage_write_bw f)
               (length (hosts st) + i)%nat)
        (seq 0 (Z.to_nat (cf_count f))) /\
    storages st' = storages st /\
    storage_map st' = storage_map st.
Proof.
  intros Hf Hhas H1 H2.
  assert (Hkind : node_storage_kind f = None).
  { unfold node_storage_kind. rewrite Hhas.
    destruct (String.eqb_spec (cf_storage_type f) "OneDisk"); [contradiction|].
    destruct (String.eqb_spec (cf_storage_type f) "JBOD"); [contradiction|].
    reflexivity. }
  rewrite create_cluster_zone_effect, Hf. cbn [rbind].
  eexists. split; [reflexivity|].
  unfold cluster_effect. cbn [disks storages storage_map].
  unfold node_storages, node_disks, node_storage_name. rewrite Hkind, Hhas.
  cbv beta iota. split; [|split].
  - reflexivity.
  - induction (seq 0 (Z.to_nat (cf_count f))) as [|x l IH].
    + cbn [flat_map]. apply app_nil_r.
    + cbn [flat_map app]. exact IH.
  - apply fold_left_const.
Qed.

Lemma cluster_node_storage_unsupported_witness :
  exists st',
    create_cluster_zone 0 example_tape_cluster initial_state = Ok (tt, st') /\
    map d_name (disks st') = ["n0_tape_disk"; "n1_tape_disk"; "n2_tape_disk"] /\
    storages st' = [] /\
    storage_map st' = ∅.
Proof.
  destruct (cluster_node_storage_unsupported 0 example_tape_cluster
              example_tape_cluster_fields initial_state eq_refl eq_refl)
    as (st' & Hrun & Hdisks & Hsto & Hmap); [discriminate | discriminate |].
  exists st'. split; [exact Hrun|]. split; [|split; assumption].
  rewrite Hdisks. reflexivity.
Defined.

(** ** The zone of a cluster and the names in it *)

(** X5.  Whatever the node count, [create_cluster_zone] adds one star zone
    under its parent, registers it under the cluster name, gives it a
    router [<name>_router] as gateway and seals it.  With a count of zero
    or less the zone holds the backbone link and the router and nothing
    else: no host, no route, no disk. *)
Theorem cluster_zone_shell (parent : nat) (cluster_config : json)
    (f : cluster_fields) (st : state) :
  cluster_fields_of cluster_config = Ok f ->
  exists st',
    create_cluster_zone parent cluster_config st = Ok (tt, st') /\
    zones st' = zones st ++
      [mk_zone (cf_name f) Star (ZoneAt parent) (Some (length (routers st))) true] /\
    routers st' = routers st ++ [mk_router (cf_name f +:+ "_router") (length (zones st))] /\
    zone_map st' !! cf_name f = Some (Some (length (zones st))) /\
    link_map st' = link_map st /\
    (cf_count f <= 0 ->
     hosts st' = hosts st /\ routes st' = routes st /\ disks st' = disks st /\
     storages st' = storages st /\ storage_map st' = storage_map st /\
     links st' = links st ++
       [mk_link (cf_name f +:+ "_backbone") (cf_backbone_bw f)
          (Some (cf_backbone_lat f)) SHARED (length (zones st))]).
Proof.
  intros Hf. rewrite create_cluster_zone_effect, Hf. cbn [rbind].
  eexists. split; [reflexivity|].
  unfold cluster_effect.
  cbn [zones routers zone_map link_map hosts routes disks storages storage_map links].
  split; [reflexivity|]. split; [reflexivity|]. split; [apply lookup_insert_eq|].
  split; [reflexivity|].
  intros Hle. replace (Z.to_nat (cf_count f)) with O by lia.
  cbn [seq map flat_map fold_left]. rewrite !app_nil_r. repeat split.
Qed.

Lemma cluster_zone_shell_witness :
  exists st',
    create_cluster_zone 0 example_empty_cluster initial_state = Ok (tt, st') /\
    zones st' = [mk_zone "c0" Star (ZoneAt 0) (Some 0%nat) true] /\
    routers st' = [mk_router "c0_router" 0] /\
    hosts st' = [] /\ routes st' = [] /\
    links st' = [mk_link "c0_backbone" "10Gbps" (Some "1ms") SHARED 0].
Proof.
  destruct (cluster_zone_shell 0 example_empty_cluster
              (mk_cluster_fields "c0" "n" "" (-2) "10Gbps" "1ms" "1Gf" 4 "1Gbps" "10us"
                 "100Gbps" "0us" false "" "" "" "")
              initial_state eq_refl)
    as (st' & Hrun & Hzones & Hrouters & _ & _ & Hempty).
  destruct Hempty as (Hhosts & Hroutes & _ & _ & _ & Hlinks); [cbn; lia|].
  exists st'. repeat split; assumption.
Defined.

Lemma flat_map_bind {A B} (g : A -> list B) (l : list A) : flat_map g l = l ≫= g.
Proof. induction l as [|x l IH]; [reflexivity|]. cbn. rewrite IH. reflexivity. Qed.

Lemma map_flat_map {A B C} (h : B -> C) (g : A -> list B) (l : list A) :
  map h (flat_map g l) = flat_map (fun x => map h (g x)) l.
Proof.
  induction l as [|x l IH]; [reflexivity|].
  cbn [flat_map]. rewrite map_app, IH. reflexivity.
Qed.

Lemma link_names_distinct (name : string) (h : nat -> string) (n : nat) :
  (forall i j, h i = h j -> i = j) ->
  NoDup ((name +:+ "_backbone")
         :: flat_map (fun i => [h i +:+ "_LinkUP"; h i +:+ "_LinkDOWN"; h i +:+ "_loopback"])
              (seq 0 n)).
Proof.
  intros Hinj. apply NoDup_cons_2.
  - intros Hin. apply list_elem_of_In, in_flat_map in Hin as (i & _ & Hin).
    cbn [In] in Hin.
    destruct Hin as [H|[H|[H|[]]]]; apply (f_equal last_char) in H;
      rewrite !last_char_app in H; discriminate H.
  - rewrite flat_map_bind. apply NoDup_bind.
    + intros i j y _ _ Hi Hj.
      apply list_elem_of_In in Hi, Hj. cbn [In] in Hi, Hj.
      destruct Hi as [<-|[<-|[<-|[]]]]; destruct Hj as [H|[H|[H|[]]]];
        first [ apply app_str_inv_r in H; symmetry; apply Hinj, H
              | apply (f_equal last_char) in H; rewrite !last_char_app in H;
                discriminate H ].
    + intros i _.
      repeat (apply NoDup_cons_2; [rewrite ?elem_of_cons, elem_of_nil|]).
      * intros [H|[H|[]]]; apply (f_equal last_char) in H;
          rewrite !last_char_app in H; discriminate H.
      * intros [H|[]]; apply (f_equal last_char) in H;
          rewrite !last_char_app in H; discriminate H.
      * intros [].
      * apply NoDup_nil_2.
    + apply NoDup_seq.
Qed.

(** X6.  [create_cluster_zone] gives the hosts of a cluster pairwise
    different names, and its links (backbone, uplinks, downlinks,
    loopbacks) pairwise different names, whatever the prefix, the suffix
    and the count. *)
Theorem cluster_names_distinct (parent : nat) (cluster_config : json)
    (f : cluster_fields) (st : state) :
  cluster_fields_of cluster_config = Ok f ->
  exists st' new_hosts new_links,
    create_cluster_zone parent cluster_config st = Ok (tt, st') /\
    hosts st' = hosts st ++ new_hosts /\
    links st' = links st ++ new_links /\
    NoDup (map h_name new_hosts) /\
    NoDup (map l_name new_links).
Proof.
  intros Hf. rewrite create_cluster_zone_effect, Hf. cbn [rbind].
  eexists _, _, _. split; [reflexivity|].
  unfold cluster_effect. cbn [hosts links].
  split; [reflexivity|]. split; [reflexivity|]. split.
  - rewrite map_map. cbn [node_host h_name].
    apply NoDup_map_seq. intros i j. apply hostname_inj.
  - cbn [map l_name]. rewrite map_flat_map. unfold node_links.
    cbn [map l_name].
    apply (link_names_distinct (cf_name f) (hostname (cf_prefix f) (cf_suffix f))).
    intros i j. apply hostname_inj.
Qed.

Lemma cluster_names_distinct_witness :
  exists st' new_hosts new_links,
    create_cluster_zone 0 example_cluster initial_state = Ok (tt, st') /\
    hosts st' = hosts initial_state ++ new_hosts /\
    links st' = links initial_state ++ new_links /\
    NoDup (map h_name new_hosts) /\
    NoDup (map l_name new_links).
Proof.
  apply (cluster_names_distinct 0 example_cluster example_cluster_fields initial_state).
  reflexivity.
Defined.

(** ** File systems on storage systems and on nothing *)

Lemma contains_field_string (j : json) (key s : string) :
  field_string j key = Ok s -> contains j key = true.
Proof.
  intros H. apply field_string_at_key in H. unfold at_key in H.
  destruct j; try discriminate H. unfold contains.
  destruct (assoc key members); [|discriminate H].
  apply bool_decide_eq_true. eauto.
Qed.

Lemma create_filesystem_system_effect (fuel : nat) (platform_config fs_cfg : json)
    (st : state) :
  contains fs_cfg "storage_system" = true ->
  create_filesystem fuel platform_config fs_cfg st =
  rbind (field_string fs_cfg "name") (fun name =>
  rbind (field_string fs_cfg "mount_point") (fun pattern =>
  rbind (field_string fs_cfg "size") (fun size =>
  rbind (field_string fs_cfg "storage_system") (fun system =>
    Ok (tt, system_mount_effect name pattern size system st))))).
Proof.
  intros Hsys. unfold create_filesystem.
  do 3 read_step. call_step. rewrite Hsys. read_step.
  do 3 call_step. unfold register_file_system, modify, system_mount_effect.
  state_fields. reflexivity.
Qed.

Lemma create_filesystem_loose_effect (fuel : nat) (platform_config fs_cfg : json)
    (st : state) :
  contains fs_cfg "storage_system" = false ->
  contains fs_cfg "cluster" = false ->
  create_filesystem fuel platform_config fs_cfg st =
  rbind (field_string fs_cfg "name") (fun name =>
  rbind (field_string fs_cfg "mount_point") (fun pattern =>
  rbind (field_string fs_cfg "size") (fun size =>
    Ok (tt, with_filesystems (fun l => l ++ [mk_filesystem name max_open_files []]) st)))).
Proof.
  intros Hsys Hcluster. unfold create_filesystem.
  do 3 read_step. call_step. rewrite Hsys, Hcluster. reflexivity.
Qed.

Lemma resolve_default (m : gmap string (option nat)) (key : string) :
  resolve m key = default None (m !! key).
Proof. unfold resolve, map_at. destruct (m !! key); reflexivity. Qed.

(** X7.  A file system entry with a ["storage_system"] member gets exactly
    one partition, mounted at the mount point as it is written (the
    placeholder is not replaced there), on what the storage registry holds
    for [<system>_storage] (null when it holds nothing), and is registered
    against what the zone registry holds for the system name.  A
    ["cluster"] member of the same entry is not looked at, nor is the rest
    of the document. *)
Theorem filesystem_on_storage_system (fuel : nat) (platform_config fs_cfg : json)
    (name pattern size system : string) (st : state) :
  field_string fs_cfg "name" = Ok name ->
  field_string fs_cfg "mount_point" = Ok pattern ->
  field_string fs_cfg "size" = Ok size ->
  field_string fs_cfg "storage_system" = Ok system ->
  exists st',
    create_filesystem fuel platform_config fs_cfg st = Ok (tt, st') /\
    filesystems st' = filesystems st ++
      [mk_filesystem name 100000000
         [mk_partition pattern
            (default None (storage_map st !! (system +:+ "_storage"))) size]] /\
    registered st' = registered st ++
      [(default None (zone_map st !! system), length (filesystems st))].
Proof.
  intros Hname Hpattern Hsize Hsystem.
  rewrite create_filesystem_system_effect by (eapply contains_field_string; eassumption).
  rewrite Hname, Hpattern, Hsize, Hsystem. cbn [rbind].
  eexists. split; [reflexivity|].
  unfold system_mount_effect. cbn [filesystems registered].
  rewrite !resolve_default. split; reflexivity.
Qed.

Lemma filesystem_on_storage_system_witness :
  exists st',
    create_filesystem 0 JNull example_both_filesystem
      (mk_state [mk_zone "pfs" Empty RootZone None true] [] [] [] [] []
         [mk_storage "pfs_storage" OneDisk [0%nat]] [] []
         {["pfs" := Some 0%nat]} ∅ {["pfs_storage" := Some 0%nat]})
    = Ok (tt, st') /\
    filesystems st'
      = [mk_filesystem "home" 100000000
           [mk_partition "/{hostname}/home/" (Some 0%nat) "10TB"]] /\
    registered st' = [(Some 0%nat, 0%nat)].
Proof.
  destruct (filesystem_on_storage_system 0 JNull example_both_filesystem
              "home" "/{hostname}/home/" "10TB" "pfs"
              (mk_state [mk_zone "pfs" Empty RootZone None true] [] [] [] [] []
                 [mk_storage "pfs_storage" OneDisk [0%nat]] [] []
                 {["pfs" := Some 0%nat]} ∅ {["pfs_storage" := Some 0%nat]})
              eq_refl eq_refl eq_refl eq_refl)
    as (st' & Hrun & Hfs & Hreg).
  exists st'. split; [exact Hrun|].
  split; [rewrite Hfs | rewrite Hreg]; vm_compute; reflexivity.
Defined.

(** X8.  A file system entry with neither a ["storage_system"] nor a
    ["cluster"] member: the file system is created, with no partition, and
    is registered against no zone; nothing else changes. *)
Theorem filesystem_without_target (fuel : nat) (platform_config fs_cfg : json)
    (name pattern size : string) (st : state) :
  field_string fs_cfg "name" = Ok name ->
  field_string fs_cfg "mount_point" = Ok pattern ->
  field_string fs_cfg "size" = Ok size ->
  contains fs_cfg "storage_system" = false ->
  contains fs_cfg "cluster" = false ->
  exists st',
    create_filesystem fuel platform_config fs_cfg st = Ok (tt, st') /\
    filesystems st' = filesystems st ++ [mk_filesystem name 100000000 []] /\
    registered st' = registered st /\
    zone_map st' = zone_map st /\ storage_map st' = storage_map st.
Proof.
  intros Hname Hpattern Hsize Hsys Hcluster.
  rewrite create_filesystem_loose_effect by assumption.
  rewrite Hname, Hpattern, Hsize. cbn [rbind].
  eexists. split; [reflexivity|]. repeat split.
Qed.

Lemma filesystem_without_target_witness :
  exists st',
    create_filesystem 0 JNull example_loose_filesystem initial_state = Ok (tt, st') /\
    filesystems st' = [mk_filesystem "tmp" 100000000 []] /\
    registered st' = [].
Proof.
  destruct (filesystem_without_target 0 JNull example_loose_filesystem
              "tmp" "/tmp/" "1GB" initial_state
              eq_refl eq_refl eq_refl eq_refl eq_refl)
    as (st' & Hrun & Hfs & Hreg & _).
  exists st'. repeat split; assumption.
Defined.

(** ** File systems on clusters: the search, and what the pass leaves alone *)

(** One step of a proof that every call of a computation is in a
    preorder [R]. *)
Ltac post_step R Rrefl Rtrans :=
  first
    [ apply (post_ret R Rrefl)
    | apply (post_lift R Rrefl)
    | apply (post_read_json R Rrefl)
    | apply (post_read_string R Rrefl Rtrans)
    | apply (post_read_int R Rrefl Rtrans)
    | apply post_timeout
    | apply (post_for_each R Rrefl Rtrans); intro
    | apply (post_for_collect R Rrefl Rtrans); intro
    | apply (post_bind R Rtrans); [|intro]
    | match goal with
      | |- post _ (if ?b then _ else _) => destruct b
      | |- post _ (match ?o with Some _ => _ | None => _ end) => destruct o
      end ].

(** *** The search for the cluster of a file system *)

Lemma contains_at_key (j : json) (key : string) :
  contains j key = true -> exists v, at_key j key = Ok v.
Proof.
  destruct j; try discriminate. unfold contains, at_key.
  intros H. apply bool_decide_eq_true in H as [v Hv]. rewrite Hv. eauto.
Qed.

Lemma scan_clusters_none (cluster_name : string) (info : cluster_info)
    (clusters : list json) :
  Forall (fun c => exists n, at_key c "name" = Ok n /\
                             json_eq_string n cluster_name = false) clusters ->
  scan_clusters clusters cluster_name info = Ok info.
Proof.
  induction 1 as [|c cs (n & Hn & Hne) _ IH]; [reflexivity|].
  cbn [scan_clusters]. rewrite Hn. cbn [rbind]. rewrite Hne. exact IH.
Qed.

Lemma scan_facilities_none (cluster_name : string) (info : cluster_info)
    (facilities : list json) :
  no_cluster_named cluster_name facilities ->
  scan_facilities facilities cluster_name info = Ok info.
Proof.
  induction 1 as [|dc fs Hdc _ IH]; [reflexivity|].
  cbn [scan_facilities].
  destruct (contains dc "clusters") eqn:Hc; [|exact IH].
  destruct (contains_at_key _ _ Hc) as [cs Hcs]. rewrite Hcs. cbn [rbind].
  rewrite scan_clusters_none by (apply Hdc, Hcs). cbn [rbind]. exact IH.
Qed.

Lemma scan_facilities_app (cluster_name : string) (a b : list json) :
  forall info,
    scan_facilities (a ++ b) cluster_name info
    = rbind (scan_facilities a cluster_name info) (scan_facilities b cluster_name).
Proof.
  induction a as [|dc a IH]; intros info; [reflexivity|].
  cbn [app scan_facilities].
  destruct (contains dc "clusters"); [|apply IH].
  destruct (at_key dc "clusters") as [cs| |]; cbn [rbind]; try reflexivity.
  destruct (scan_clusters (items cs) cluster_name info) as [info'| |];
    cbn [rbind]; try reflexivity.
  apply IH.
Qed.

Lemma scan_clusters_skip (cluster_name : string) (info : cluster_info)
    (skipped rest : list json) :
  Forall (fun c => exists n, at_key c "name" = Ok n /\
                             json_eq_string n cluster_name = false) skipped ->
  scan_clusters (skipped ++ rest) cluster_name info
  = scan_clusters rest cluster_name info.
Proof.
  induction 1 as [|c cs (n & Hn & Hne) _ IH]; [reflexivity|].
  cbn [app scan_clusters]. rewrite Hn. cbn [rbind]. rewrite Hne. exact IH.
Qed.

(** X9.  The search for the cluster of a file system goes through every
    facility, and stops only within a facility: what it keeps is the first
    cluster with the wanted name of the last facility that has one.  Its
    prefix, suffix and count replace what an earlier facility gave; the
    name of the node storage of an earlier match stays when this cluster
    has no node storage. *)
Theorem cluster_lookup_last_facility (cluster_name : string)
    (before after skipped rest : list json) (dc clusters c : json)
    (info0 info1 : cluster_info) (f : cluster_fields) :
  scan_facilities before cluster_name info0 = Ok info1 ->
  at_key dc "clusters" = Ok clusters ->
  items clusters = skipped ++ c :: rest ->
  Forall (fun c => exists n, at_key c "name" = Ok n /\
                             json_eq_string n cluster_name = false) skipped ->
  cluster_fields_of c = Ok f ->
  cf_name f = cluster_name ->
  no_cluster_named cluster_name after ->
  scan_facilities (before ++ dc :: after) cluster_name info0
  = Ok (mk_cluster_info (cf_prefix f) (cf_suffix f)
          (if cf_has_storage f then cf_storage_base_name f
           else ci_storage_base_name info1)
          (cf_count f)).
Proof.
  intros Hbefore Hdc Hitems Hskipped Hf Hname Hafter.
  rewrite scan_facilities_app, Hbefore. cbn [rbind scan_facilities].
  assert (Hc : contains dc "clusters" = true).
  { destruct dc; try discriminate Hdc. unfold at_key in Hdc. unfold contains.
    destruct (assoc "clusters" members); [|discriminate Hdc].
    apply bool_decide_eq_true. eauto. }
  rewrite Hc, Hdc. cbn [rbind].
  rewrite Hitems, scan_clusters_skip by assumption.
  rewrite <- Hname, scan_clusters_found by assumption. cbn [rbind].
  rewrite Hname. apply scan_facilities_none, Hafter.
Qed.

Lemma cluster_lookup_last_facility_witness :
  scan_facilities example_two_facilities "c0" (mk_cluster_info "" "" "" 0)
  = Ok (mk_cluster_info "m" "" "ssd" 2).
Proof.
  apply (cluster_lookup_last_facility "c0"
           [JObj [("name", JStr "dc"); ("routing", JStr "full");
                  ("clusters", JArr [example_storage_cluster])]]
           [] [] [example_cluster]
           (JObj [("name", JStr "dc2"); ("routing", JStr "full");
                  ("clusters", JArr [example_bare_cluster; example_cluster])])
           (JArr [example_bare_cluster; example_cluster]) example_bare_cluster
           (mk_cluster_info "" "" "" 0) (mk_cluster_info "n" "" "ssd" 3)
           (mk_cluster_fields "c0" "m" "" 2 "10Gbps" "1ms" "1Gf" 4 "1Gbps" "10us"
              "100Gbps" "0us" false "" "" "" "")).
  - reflexivity.
  - reflexivity.
  - reflexivity.
  - constructor.
  - reflexivity.
  - reflexivity.
  - constructor.
Defined.

(** X10.  A file system on a cluster that no facility of the document
    declares: no error is raised and the placeholder loop is not entered;
    the file system is created without a partition and registered against
    what the zone registry holds for the name, the null zone when it holds
    nothing, and the name is then in the zone registry, bound to null. *)
Theorem filesystem_on_unknown_cluster (fuel : nat) (platform_config fs_cfg facilities : json)
    (name pattern size cluster : string) (st : state) :
  field_string fs_cfg "name" = Ok name ->
  field_string fs_cfg "mount_point" = Ok pattern ->
  field_string fs_cfg "size" = Ok size ->
  contains fs_cfg "storage_system" = false ->
  field_string fs_cfg "cluster" = Ok cluster ->
  at_key platform_config "facilities" = Ok facilities ->
  no_cluster_named cluster (items facilities) ->
  exists st',
    create_filesystem fuel platform_config fs_cfg st = Ok (tt, st') /\
    filesystems st' = filesystems st ++ [mk_filesystem name 100000000 []] /\
    registered st' = registered st ++
      [(default None (zone_map st !! cluster), length (filesystems st))] /\
    storage_map st' = storage_map st /\
    (zone_map st !! cluster = None -> zone_map st' !! cluster = Some None).
Proof.
  intros Hname Hpattern Hsize Hsys Hcluster Hfacilities Hnone.
  rewrite create_filesystem_cluster_effect;
    [|assumption|eapply contains_field_string; eassumption].
  unfold mount_fields_of.
  rewrite Hname, Hpattern, Hsize, Hcluster, Hfacilities. cbn [rbind].
  rewrite scan_facilities_none by assumption.
  cbn [rbind mf_pattern mf_size mf_info ci_count range Z.to_nat seq node_partitions].
  eexists. split; [reflexivity|].
  unfold cluster_mount_effect.
  cbn [filesystems registered storage_map zone_map mf_name mf_cluster mf_info ci_count
       range Z.to_nat seq map fold_left].
  rewrite resolve_default.
  split; [reflexivity|]. split; [reflexivity|]. split; [reflexivity|].
  intros Habsent. rewrite touch_lookup, resolve_default, Habsent. reflexivity.
Qed.

Lemma filesystem_on_unknown_cluster_witness :
  exists st',
    create_filesystem 0 example_document example_lost_filesystem initial_state
    = Ok (tt, st') /\
    filesystems st' = [mk_filesystem "scratch" 100000000 []] /\
    registered st' = [(None, 0%nat)] /\
    zone_map st' !! "c9" = Some None.
Proof.
  destruct (filesystem_on_unknown_cluster 0 example_document example_lost_filesystem
              (JArr [JObj [("name", JStr "dc"); ("routing", JStr "full");
                           ("clusters", JArr [example_cluster])]])
              "scratch" "/{hostname}/scratch/" "1TB" "c9" initial_state
              eq_refl eq_refl eq_refl eq_refl eq_refl eq_refl)
    as (st' & Hrun & Hfs & Hreg & _ & Hzone).
  - repeat constructor. intros clusters [= <-]. repeat constructor.
    exists (JStr "c0"). split; reflexivity.
  - exists st'. split; [exact Hrun|]. split; [exact Hfs|].
    split; [exact Hreg|]. apply Hzone. reflexivity.
Defined.

(** *** What the file system pass leaves alone *)

Lemma same_platform_refl (st : state) : same_platform st st.
Proof. constructor; auto. Qed.

Lemma same_platform_trans (st1 st2 st3 : state) :
  same_platform st1 st2 -> same_platform st2 st3 -> same_platform st1 st3.
Proof.
  intros [] []. constructor; try congruence; auto.
Qed.

Ltac call_same_platform :=
  let st := fresh "st" in
  intros st ? ? [= _ <-];
  constructor; state_fields;
  first [ reflexivity | intros ? ?; apply touch_inv | auto ].

Lemma file_system_create_same_platform name n :
  post same_platform (file_system_create name n).
Proof. unfold file_system_create. call_same_platform. Qed.

Lemma mount_partition_same_platform fs mp sto size :
  post same_platform (mount_partition fs mp sto size).
Proof. unfold mount_partition, modify. call_same_platform. Qed.

Lemma register_file_system_same_platform z fs :
  post same_platform (register_file_system z fs).
Proof. unfold register_file_system, modify. call_same_platform. Qed.

Lemma zone_map_at_same_platform name : post same_platform (zone_map_at name).
Proof. unfold zone_map_at. call_same_platform. Qed.

Lemma storage_map_at_same_platform name : post same_platform (storage_map_at name).
Proof. unfold storage_map_at. call_same_platform. Qed.

Lemma create_filesystems_same_platform fuel fss cfg :
  post same_platform (create_filesystems fuel fss cfg).
Proof.
  unfold create_filesystems, create_filesystem, mount_cluster_node. cbv zeta.
  repeat first
    [ apply file_system_create_same_platform | apply mount_partition_same_platform
    | apply register_file_system_same_platform | apply zone_map_at_same_platform
    | apply storage_map_at_same_platform
    | post_step same_platform same_platform_refl same_platform_trans ].
Qed.

(** X11.  The file system pass builds no part of the platform and binds no
    name: after it the zones, hosts, disks, links, routers, routes and
    storage devices are those from before, the link registry is unchanged,
    and every name that the zone or the storage registry binds to an
    entity was bound to it before (what the pass adds to them is bound to
    null). *)
Theorem filesystem_pass_frame (fuel : nat) (filesystems_config platform_config : json)
    (st st' : state) :
  create_filesystems fuel filesystems_config platform_config st = Ok (tt, st') ->
  zones st' = zones st /\ hosts st' = hosts st /\ disks st' = disks st /\
  links st' = links st /\ routers st' = routers st /\ routes st' = routes st /\
  storages st' = storages st /\ link_map st' = link_map st /\
  (forall k h, zone_map st' !! k = Some (Some h) -> zone_map st !! k = Some (Some h)) /\
  (forall k h, storage_map st' !! k = Some (Some h) ->
     storage_map st !! k = Some (Some h)).
Proof.
  intros H. apply create_filesystems_same_platform in H. destruct H.
  repeat split; assumption.
Qed.

Lemma filesystem_pass_frame_witness :
  exists st',
    create_filesystems 0 (JArr [example_lost_filesystem]) example_document busy_state
    = Ok (tt, st') /\
    zones st' = zones busy_state /\ hosts st' = hosts busy_state /\
    links st' = links busy_state /\ storages st' = storages busy_state.
Proof.
  assert (Hrun : exists st',
    create_filesystems 0 (JArr [example_lost_filesystem]) example_document busy_state
    = Ok (tt, st'))
    by (eexists; vm_compute; reflexivity).
  destruct Hrun as (st' & Hrun).
  exists st'. split; [exact Hrun|].
  pose proof (filesystem_pass_frame 0 (JArr [example_lost_filesystem]) example_document
                busy_state st' Hrun) as (Hz & Hh & _ & Hl & _ & _ & Hs & _).
  repeat split; assumption.
Defined.

(** ** What a pass builds *)

Lemma bind_inv {A B} (m : M A) (k : A -> M B) (st st' : state) (b : B) :
  bind m k st = Ok (b, st') ->
  exists a st1, m st = Ok (a, st1) /\ k a st1 = Ok (b, st').
Proof.
  unfold bind. destruct (m st) as [[a st1]| |]; try discriminate. eauto.
Qed.

Lemma prefix_of_app {A} (l k : list A) : l `prefix_of` l ++ k.
Proof. exists k. reflexivity. Qed.

Lemma built_refl (st : state) : built st st.
Proof.
  constructor; try reflexivity.
  intros i z Hz Hi. apply lookup_lt_Some in Hz. lia.
Qed.

Lemma built_trans (st1 st2 st3 : state) : built st1 st2 -> built st2 st3 -> built st1 st3.
Proof.
  intros [] []. constructor; try (etransitivity; eassumption).
  intros i z Hz Hi.
  destruct (Nat.le_gt_cases (length (zones st2)) i) as [Hle|Hgt]; [eauto|].
  eapply built_sealed0; [|exact Hi].
  destruct built_zones1 as [k Hk]. rewrite Hk, lookup_app_l in Hz by assumption.
  exact Hz.
Qed.

Lemma new_zone_sealed (l : list zone) (x : zone) :
  z_sealed x = true ->
  forall i z, (l ++ [x]) !! i = Some z -> (length l <= i)%nat -> z_sealed z = true.
Proof.
  intros Hx i z Hz Hi. rewrite lookup_app_r in Hz by assumption.
  destruct (i - length l)%nat; [|discriminate Hz]. injection Hz as <-. exact Hx.
Qed.

Lemma no_new_zone (l : list zone) :
  forall i z, l !! i = Some z -> (length l <= i)%nat -> z_sealed z = true.
Proof. intros i z Hz Hi. apply lookup_lt_Some in Hz. lia. Qed.

Ltac built_fields :=
  constructor;
  cbn [zones hosts disks links routers routes storages filesystems registered];
  first [ reflexivity | apply prefix_of_app | apply no_new_zone
        | apply new_zone_sealed; reflexivity ].

Lemma create_cluster_zone_built parent cfg : post built (create_cluster_zone parent cfg).
Proof.
  intros st a st' H. rewrite create_cluster_zone_effect in H.
  destruct (cluster_fields_of cfg) as [f| |]; try discriminate H.
  injection H as _ <-. unfold cluster_effect. built_fields.
Qed.

Lemma create_storage_system_zone_built parent cfg :
  post built (create_storage_system_zone parent cfg).
Proof.
  intros st a st' H. rewrite create_storage_system_zone_effect in H.
  destruct (storage_fields_of cfg) as [f| |]; try discriminate H.
  injection H as _ <-. unfold storage_system_effect. built_fields.
Qed.

Lemma create_inter_zone_links_built datacenter cfg :
  post built (create_inter_zone_links datacenter cfg).
Proof.
  unfold create_inter_zone_links.
  apply (post_for_each built built_refl built_trans). intros link_cfg st a st' H.
  rewrite create_inter_zone_link_effect in H.
  destruct (field_string link_cfg "name"); try discriminate H.
  destruct (field_string link_cfg "bandwidth"); try discriminate H.
  destruct (field_string link_cfg "latency"); try discriminate H.
  injection H as _ <-. unfold with_link_map, with_links. built_fields.
Qed.

Lemma create_routes_built datacenter cfg : post built (create_routes datacenter cfg).
Proof.
  unfold create_routes.
  apply (post_for_each built built_refl built_trans). intros route_cfg st a st' H.
  rewrite create_route_effect in H.
  destruct (route_fields_of route_cfg) as [f| |]; try discriminate H.
  injection H as _ <-. unfold route_effect. built_fields.
Qed.

Lemma create_filesystems_built fuel fss cfg : post built (create_filesystems fuel fss cfg).
Proof.
  unfold create_filesystems.
  apply (post_for_each built built_refl built_trans). intros fs_cfg st a st' H.
  destruct (contains fs_cfg "storage_system") eqn:Hsys.
  - rewrite create_filesystem_system_effect in H by assumption.
    repeat match type of H with
    | rbind ?r _ = _ => destruct r; cbn [rbind] in H; [|discriminate..]
    end.
    injection H as _ <-. unfold system_mount_effect. built_fields.
  - destruct (contains fs_cfg "cluster") eqn:Hcluster.
    + rewrite create_filesystem_cluster_effect in H by assumption.
      destruct (mount_fields_of cfg fs_cfg) as [f| |]; try discriminate H.
      cbn [rbind] in H.
      destruct (node_partitions _ _ _ _ _ _) as [ps|]; [|discriminate H].
      injection H as _ <-. unfold cluster_mount_effect. built_fields.
    + rewrite create_filesystem_loose_effect in H by assumption.
      repeat match type of H with
      | rbind ?r _ = _ => destruct r; cbn [rbind] in H; [|discriminate..]
      end.
      injection H as _ <-. unfold with_filesystems. built_fields.
Qed.

Lemma seal_facility_built (st st1 st5 : state) (name : string) (kind : routing) :
  zones st1 = zones st ++ [mk_zone name kind RootZone None false] ->
  hosts st1 = hosts st -> disks st1 = disks st -> links st1 = links st ->
  routers st1 = routers st -> routes st1 = routes st -> storages st1 = storages st ->
  filesystems st1 = filesystems st -> registered st1 = registered st ->
  built st1 st5 ->
  built st (with_zones (alter (fun zn =>
              mk_zone (z_name zn) (z_routing zn) (z_parent zn) (z_gateway zn) true)
              (length (zones st))) st5).
Proof.
  intros Hz Hh Hd Hl Hrt Hr Hs Hf Hg [].
  rewrite Hz in built_zones0. destruct built_zones0 as [k Hk].
  rewrite Hh, Hd, Hl, Hrt, Hr, Hs, Hf, Hg in *.
  assert (Hzones : alter (fun zn =>
             mk_zone (z_name zn) (z_routing zn) (z_parent zn) (z_gateway zn) true)
             (length (zones st)) (zones st5)
           = zones st ++ mk_zone name kind RootZone None true :: k).
  { rewrite Hk, alter_app_l by (rewrite length_app; cbn; lia).
    rewrite alter_last, <- app_assoc. reflexivity. }
  unfold with_zones.
  constructor;
    cbn [zones hosts disks links routers routes storages filesystems registered];
    try assumption.
  - rewrite Hzones. apply prefix_of_app.
  - rewrite Hzones. intros i z Hi Hle. rewrite lookup_app_r in Hi by assumption.
    destruct (i - length (zones st))%nat as [|j] eqn:Hj.
    + injection Hi as <-. reflexivity.
    + cbn in Hi. apply (built_sealed0 i).
      * rewrite Hk, lookup_app_r by (rewrite length_app; cbn; lia).
        rewrite length_app. cbn [length].
        replace (i - (length (zones st) + 1))%nat with j by lia. exact Hi.
      * rewrite Hz, length_app. cbn. lia.
Qed.

Lemma load_facility_built cfg : post built (load_facility cfg).
Proof.
  intros st a st' H. unfold load_facility in H.
  apply bind_inv in H as (d & st1 & H1 & H).
  rewrite create_facility_zone_effect in H1.
  destruct (field_string cfg "name") as [name| |]; try discriminate H1.
  destruct (field_string cfg "routing") as [r| |]; try discriminate H1.
  cbn [rbind] in H1. injection H1 as <- <-.
  apply bind_inv in H as (? & st2 & H2 & H).
  apply bind_inv in H as (? & st3 & H3 & H).
  apply bind_inv in H as (? & st4 & H4 & H).
  apply bind_inv in H as (? & st5 & H5 & H).
  injection H as _ <-.
  match type of H2 with _ ?s = _ => set (st1 := s) in * end.
  assert (B2 : built st1 st2).
  { match type of H2 with ?m _ = _ => assert (P : post built m) end;
      [|exact (P _ _ _ H2)].
    repeat first [ apply create_storage_system_zone_built
                 | post_step built built_refl built_trans ]. }
  assert (B3 : built st2 st3).
  { match type of H3 with ?m _ = _ => assert (P : post built m) end;
      [|exact (P _ _ _ H3)].
    repeat first [ apply create_cluster_zone_built
                 | post_step built built_refl built_trans ]. }
  assert (B4 : built st3 st4).
  { match type of H4 with ?m _ = _ => assert (P : post built m) end;
      [|exact (P _ _ _ H4)].
    repeat first [ apply create_inter_zone_links_built
                 | post_step built built_refl built_trans ]. }
  assert (B5 : built st4 st5).
  { match type of H5 with ?m _ = _ => assert (P : post built m) end;
      [|exact (P _ _ _ H5)].
    repeat first [ apply create_routes_built
                 | post_step built built_refl built_trans ]. }
  apply (seal_facility_built st st1 st5 name (facility_routing r));
    [reflexivity..|exact (built_trans _ _ _ B2 (built_trans _ _ _ B3
                            (built_trans _ _ _ B4 B5)))].
Qed.

Lemma load_platform_built fuel src : post built (load_platform fuel src).
Proof.
  destruct src; cbn [load_platform]; [apply (post_lift built built_refl)|].
  unfold compile. cbv zeta.
  repeat first
    [ apply load_facility_built | apply create_filesystems_built
    | post_step built built_refl built_trans ].
Qed.

(** X12.  Every zone that a pass of [load_platform] creates is sealed when
    the pass completes: the storage system and cluster zones by their
    builders, the facility zone at the end of its round.  Zones sealed
    before stay sealed. *)
Theorem loaded_zones_sealed (fuel : nat) (src : config_source) (st st' : state) :
  load_platform fuel src st = Ok (tt, st') ->
  (forall i z, zones st' !! i = Some z -> (length (zones st) <= i)%nat ->
     z_sealed z = true) /\
  (Forall (fun z => z_sealed z = true) (zones st) ->
   Forall (fun z => z_sealed z = true) (zones st')).
Proof.
  intros H. apply load_platform_built in H. destruct H as [[k Hk] _ _ _ _ _ _ _ _ Hs].
  split; [exact Hs|].
  intros Hold. apply Forall_lookup. intros i z Hz.
  destruct (Nat.le_gt_cases (length (zones st)) i) as [Hle|Hgt]; [eauto|].
  rewrite Hk, lookup_app_l in Hz by assumption.
  exact (proj1 (Forall_lookup _ _) Hold i z Hz).
Qed.

Lemma loaded_zones_sealed_witness :
  exists st',
    load_platform 1 (Parsed example_site_document) busy_state = Ok (tt, st') /\
    map z_name (zones st') = ["site"; "dc"; "pfs"; "c0"; "dc2"; "c0"] /\
    Forall (fun z => z_sealed z = true) (zones st').
Proof.
  assert (Hrun : exists st',
    load_platform 1 (Parsed example_site_document) busy_state = Ok (tt, st') /\
    map z_name (zones st') = ["site"; "dc"; "pfs"; "c0"; "dc2"; "c0"])
    by (eexists; split; vm_compute; reflexivity).
  destruct Hrun as (st' & Hrun & Hnames).
  exists st'. split; [exact Hrun|]. split; [exact Hnames|].
  apply (proj2 (loaded_zones_sealed 1 (Parsed example_site_document) busy_state st' Hrun)).
  repeat constructor.
Defined.

(** X13.  A pass of [load_platform] only adds to the platform: every zone,
    host, disk, link, router, route, storage device, file system and
    registration that was there before the pass is there after it, under
    the same handle and with every attribute unchanged. *)
Theorem load_platform_adds_only (fuel : nat) (src : config_source) (st st' : state) :
  load_platform fuel src st = Ok (tt, st') ->
  (forall i x, zones st !! i = Some x -> zones st' !! i = Some x) /\
  (forall i x, hosts st !! i = Some x -> hosts st' !! i = Some x) /\
  (forall i x, disks st !! i = Some x -> disks st' !! i = Some x) /\
  (forall i x, links st !! i = Some x -> links st' !! i = Some x) /\
  (forall i x, routers st !! i = Some x -> routers st' !! i = Some x) /\
  (forall i x, routes st !! i = Some x -> routes st' !! i = Some x) /\
  (forall i x, storages st !! i = Some x -> storages st' !! i = Some x) /\
  (forall i x, filesystems st !! i = Some x -> filesystems st' !! i = Some x) /\
  (forall i x, registered st !! i = Some x -> registered st' !! i = Some x).
Proof.
  intros H. apply load_platform_built in H. destruct H.
  repeat split; intros i x Hx; eapply prefix_lookup_Some; eassumption.
Qed.

Lemma load_platform_adds_only_witness :
  exists st',
    load_platform 1 (Parsed example_site_document) busy_state = Ok (tt, st') /\
    zones st' !! 0%nat = Some (mk_zone "site" Full RootZone None true) /\
    hosts st' !! 0%nat = Some (mk_host "frontend" "1Gf" 1 0) /\
    links st' !! 0%nat = Some (mk_link "uplink" "1Gbps" (Some "1ms") SHARED 0).
Proof.
  assert (Hrun : exists st',
    load_platform 1 (Parsed example_site_document) busy_state = Ok (tt, st'))
    by (eexists; vm_compute; reflexivity).
  destruct Hrun as (st' & Hrun).
  exists st'. split; [exact Hrun|].
  pose proof (load_platform_adds_only 1 (Parsed example_site_document) busy_state
                st' Hrun) as (Hz & Hh & _ & Hl & _).
  split; [apply Hz|split; [apply Hh|apply Hl]]; reflexivity.
Defined.

(** ** Links between zones *)

Lemma create_inter_zone_link_fields (datacenter : nat) (cfg : json) (st : state) :
  create_inter_zone_link datacenter cfg st =
  rbind (link_fields_of cfg) (fun f =>
    Ok (tt,
        with_link_map (fun m => <[lf_name f := Some (length (links st))]> m)
          (with_links (fun l =>
             l ++ [mk_link (lf_name f) (lf_bandwidth f) (Some (lf_latency f)) SHARED
                     datacenter]) st))).
Proof.
  rewrite create_inter_zone_link_effect. unfold link_fields_of.
  rewrite !rbind_assoc. apply rbind_ext. intros name.
  rewrite !rbind_assoc. apply rbind_ext. intros bw.
  rewrite !rbind_assoc. apply rbind_ext. intros lat. reflexivity.
Qed.

Lemma inter_zone_links_run (datacenter : nat) (cfgs : list json) :
  forall (fs : list link_fields) (st : state),
    all_results link_fields_of cfgs = Ok fs ->
    exists st',
      for_each cfgs (create_inter_zone_link datacenter) st = Ok (tt, st') /\
      links st' = links st ++
        map (fun f => mk_link (lf_name f) (lf_bandwidth f) (Some (lf_latency f)) SHARED
                        datacenter) fs /\
      (forall i f, fs !! i = Some f ->
         (forall j f', fs !! j = Some f' -> (i < j)%nat -> lf_name f' <> lf_name f) ->
         link_map st' !! lf_name f = Some (Some (length (links st) + i)%nat)) /\
      (forall n, (forall f, f ∈ fs -> lf_name f <> n) ->
         link_map st' !! n = link_map st !! n) /\
      zone_map st' = zone_map st /\ storage_map st' = storage_map st /\
      zones st' = zones st /\ hosts st' = hosts st /\ routes st' = routes st.
Proof.
  induction cfgs as [|cfg cfgs IH]; intros fs st Hfs.
  - injection Hfs as <-. exists st. split; [reflexivity|].
    cbn [map]. rewrite app_nil_r. repeat split; try reflexivity.
    intros i f Hf. discriminate Hf.
  - cbn [all_results] in Hfs.
    destruct (link_fields_of cfg) as [f0| |] eqn:Hf0; try discriminate Hfs.
    cbn [rbind] in Hfs.
    destruct (all_results link_fields_of cfgs) as [fs0| |] eqn:Hfs0; try discriminate Hfs.
    injection Hfs as <-.
    cbn [for_each]. unfold bind at 1.
    rewrite create_inter_zone_link_fields, Hf0. cbn [rbind].
    set (st1 := with_link_map _ _).
    destruct (IH fs0 st1 eq_refl)
      as (st' & Hrun & Hlinks & Hlast & Hother & Hzm & Hsm & Hz & Hh & Hr).
    exists st'. split; [exact Hrun|].
    assert (Hlen : length (links st1) = S (length (links st))).
    { unfold st1, with_link_map, with_links. cbn [links].
      rewrite length_app. cbn. lia. }
    split; [|split; [|split; [|repeat split; assumption]]].
    + rewrite Hlinks. unfold st1, with_link_map, with_links. cbn [links map].
      rewrite <- app_assoc. reflexivity.
    + intros [|i] f Hf Hlater.
      * injection Hf as <-. rewrite Hother.
        -- unfold st1, with_link_map, with_links. cbn [link_map].
           rewrite Nat.add_0_r. apply lookup_insert_eq.
        -- intros f' Hf'. apply list_elem_of_lookup in Hf' as [j Hj].
           apply (Hlater (S j) f' Hj). lia.
      * cbn [lookup list_lookup] in Hf. rewrite (Hlast i f Hf).
        -- rewrite Hlen. do 2 f_equal. lia.
        -- intros j f' Hj Hij. apply (Hlater (S j) f' Hj). lia.
    + intros n Hn. rewrite Hother.
      * unfold st1, with_link_map, with_links. cbn [link_map].
        apply lookup_insert_ne, Hn. left.
      * intros f Hf. apply Hn. right. exact Hf.
Qed.

(** X14.  [create_inter_zone_links] adds one link per entry, in the order
    of the entries, each with its bandwidth, its latency and the default
    sharing policy, and binds each name in the link registry to the link
    of the last entry with that name: the link of an earlier entry with
    the same name stays in the platform, and no name leads to it.  Names
    that no entry has keep what the registry held for them. *)
Theorem inter_zone_links_registered (datacenter : nat) (links_config : json)
    (fs : list link_fields) (st : state) :
  all_results link_fields_of (items links_config) = Ok fs ->
  exists st',
    create_inter_zone_links datacenter links_config st = Ok (tt, st') /\
    links st' = links st ++
      map (fun f => mk_link (lf_name f) (lf_bandwidth f) (Some (lf_latency f)) SHARED
                      datacenter) fs /\
    (forall i f, fs !! i = Some f ->
       (forall j f', fs !! j = Some f' -> (i < j)%nat -> lf_name f' <> lf_name f) ->
       link_map st' !! lf_name f = Some (Some (length (links st) + i)%nat)) /\
    (forall n, (forall f, f ∈ fs -> lf_name f <> n) ->
       link_map st' !! n = link_map st !! n).
Proof.
  intros Hfs. unfold create_inter_zone_links.
  destruct (inter_zone_links_run datacenter (items links_config) fs st Hfs)
    as (st' & Hrun & Hlinks & Hlast & Hother & _).
  exists st'. repeat split; assumption.
Qed.

Lemma inter_zone_links_registered_witness :
  exists st',
    create_inter_zone_links 0 example_twin_links busy_state = Ok (tt, st') /\
    map l_name (links st') = ["uplink"; "wan"; "lan"; "wan"] /\
    link_map st' !! "wan" = Some (Some 3%nat) /\
    link_map st' !! "lan" = Some (Some 2%nat) /\
    link_map st' !! "uplink" = None.
Proof.
  destruct (inter_zone_links_registered 0 example_twin_links
              [mk_link_fields "wan" "10Gbps" "5ms"; mk_link_fields "lan" "40Gbps" "1ms";
               mk_link_fields "wan" "1Gbps" "9ms"] busy_state eq_refl)
    as (st' & Hrun & Hlinks & Hlast & Hother).
  exists st'. split; [exact Hrun|]. split; [rewrite Hlinks; reflexivity|].
  split; [|split].
  - apply (Hlast 2%nat (mk_link_fields "wan" "1Gbps" "9ms") eq_refl).
    intros [|[|[|j]]] f' Hj Hlt; try lia. discriminate Hj.
  - apply (Hlast 1%nat (mk_link_fields "lan" "40Gbps" "1ms") eq_refl).
    intros [|[|[|j]]] f' Hj Hlt; try lia; [|discriminate Hj].
    injection Hj as <-. discriminate.
  - rewrite Hother; [reflexivity|].
    intros f Hf. repeat (apply elem_of_cons in Hf as [->|Hf]; [discriminate|]).
    inversion Hf.
Defined.

(** ** Routes of a facility *)

Lemma bound_insert (m : gmap string (option nat)) (n k : string) (h : nat) :
  bound m k -> bound (<[n := Some h]> m) k.
Proof.
  intros [h' Hk]. unfold bound. destruct (decide (n = k)) as [->|Hne].
  - rewrite lookup_insert_eq. eauto.
  - rewrite lookup_insert_ne by assumption. eauto.
Qed.

Lemma bound_insert_eq (m : gmap string (option nat)) (n : string) (h : nat) :
  bound (<[n := Some h]> m) n.
Proof. exists h. apply lookup_insert_eq. Qed.

Lemma binds_refl (st : state) : binds st st.
Proof. constructor; auto. Qed.

Lemma binds_trans (st1 st2 st3 : state) : binds st1 st2 -> binds st2 st3 -> binds st1 st3.
Proof. intros [] []. constructor; auto. Qed.

Lemma entry_name_field (cfg : json) (n : string) :
  entry_name cfg = Some n <-> field_string cfg "name" = Ok n.
Proof.
  unfold entry_name. destruct (field_string cfg "name"); split; congruence.
Qed.

Lemma cluster_fields_name (cfg : json) (f : cluster_fields) :
  cluster_fields_of cfg = Ok f -> field_string cfg "name" = Ok (cf_name f).
Proof.
  unfold cluster_fields_of. intros H.
  destruct (field_string cfg "name") as [n| |]; try discriminate H.
  cbn [rbind] in H.
  repeat match type of H with
  | rbind ?r _ = _ => destruct r; cbn [rbind] in H; [|discriminate..]
  | (if ?b then _ else _) = _ => destruct b
  end; injection H as <-; reflexivity.
Qed.

Lemma storage_fields_name (cfg : json) (f : storage_fields) :
  storage_fields_of cfg = Ok f -> field_string cfg "name" = Ok (sf_name f).
Proof.
  unfold storage_fields_of. intros H.
  destruct (field_string cfg "name") as [n| |]; try discriminate H.
  cbn [rbind] in H.
  repeat match type of H with
  | rbind ?r _ = _ => destruct r; cbn [rbind] in H; [|discriminate..]
  end; injection H as <-; reflexivity.
Qed.

Lemma create_cluster_zone_registers parent :
  registers zone_map (create_cluster_zone parent).
Proof.
  intros cfg st st' H. rewrite create_cluster_zone_effect in H.
  destruct (cluster_fields_of cfg) as [f| |] eqn:Hf; try discriminate H.
  injection H as <-. unfold cluster_effect. split.
  - constructor; cbn [zone_map link_map]; [intros k; apply bound_insert | auto].
  - intros n Hn. apply entry_name_field in Hn.
    rewrite (cluster_fields_name _ _ Hf) in Hn. injection Hn as <-.
    cbn [zone_map]. apply bound_insert_eq.
Qed.

Lemma create_storage_system_zone_registers parent :
  registers zone_map (create_storage_system_zone parent).
Proof.
  intros cfg st st' H. rewrite create_storage_system_zone_effect in H.
  destruct (storage_fields_of cfg) as [f| |] eqn:Hf; try discriminate H.
  injection H as <-. unfold storage_system_effect. split.
  - constructor; cbn [zone_map link_map]; [intros k; apply bound_insert | auto].
  - intros n Hn. apply entry_name_field in Hn.
    rewrite (storage_fields_name _ _ Hf) in Hn. injection Hn as <-.
    cbn [zone_map]. apply bound_insert_eq.
Qed.

Lemma create_inter_zone_link_registers datacenter :
  registers link_map (create_inter_zone_link datacenter).
Proof.
  intros cfg st st' H. rewrite create_inter_zone_link_effect in H.
  destruct (field_string cfg "name") as [name| |] eqn:Hname; try discriminate H.
  destruct (field_string cfg "bandwidth") as [bw| |]; try discriminate H.
  destruct (field_string cfg "latency") as [lat| |]; try discriminate H.
  injection H as <-. unfold with_link_map, with_links. split.
  - constructor; cbn [zone_map link_map]; [auto | intros k; apply bound_insert].
  - intros n Hn. apply entry_name_field in Hn. rewrite Hname in Hn.
    injection Hn as <-. cbn [link_map]. apply bound_insert_eq.
Qed.

Lemma for_each_registers (sel : state -> gmap string (option nat))
    (body : json -> M unit) :
  (forall st st', binds st st' -> forall k, bound (sel st) k -> bound (sel st') k) ->
  registers sel body ->
  forall l st st',
    for_each l body st = Ok (tt, st') ->
    binds st st' /\ forall n, n ∈ omap entry_name l -> bound (sel st') n.
Proof.
  intros Hsel Hbody l. induction l as [|cfg l IH]; intros st st' H.
  - injection H as <-. split; [apply binds_refl|]. intros n Hn. inversion Hn.
  - cbn [for_each] in H. apply bind_inv in H as ([] & st1 & H1 & H).
    apply Hbody in H1 as [B1 N1]. apply IH in H as [B2 N2].
    split; [eapply binds_trans; eassumption|].
    intros n Hn. cbn [omap list_omap] in Hn.
    destruct (entry_name cfg) as [n0|] eqn:Hcfg; [|auto].
    apply elem_of_cons in Hn as [->|Hn]; [|auto].
    eapply Hsel; [exact B2|]. apply N1. reflexivity.
Qed.

(** The part of a round of the facility loop under the member [key]. *)
Lemma section_registers (sel : state -> gmap string (option nat))
    (body : json -> M unit) (dc_config : json) (key : string) (st st' : state) (a : unit) :
  (forall st st', binds st st' -> forall k, bound (sel st) k -> bound (sel st') k) ->
  registers sel body ->
  (if contains dc_config key then
     let* cfgs := read_json dc_config key in for_each (items cfgs) body
   else ret tt) st = Ok (a, st') ->
  binds st st' /\ forall n, n ∈ declared_names dc_config key -> bound (sel st') n.
Proof.
  intros Hsel Hbody H. unfold declared_names. destruct a.
  destruct (contains dc_config key) eqn:Hc.
  - rewrite bind_read_json in H.
    destruct (at_key dc_config key) as [v| |]; try discriminate H.
    cbn [rbind] in H. eapply for_each_registers; eassumption.
  - injection H as <-. split; [apply binds_refl|].
    assert (Hk : forall v, at_key dc_config key <> Ok v).
    { intros v Hv. destruct dc_config; try discriminate Hv.
      unfold at_key in Hv. unfold contains in Hc.
      apply bool_decide_eq_false in Hc. apply Hc.
      destruct (assoc key members); [eauto|discriminate Hv]. }
    destruct (at_key dc_config key) as [v| |]; [destruct (Hk v eq_refl)| |];
      intros n Hn; inversion Hn.
Qed.

Lemma fold_touch_bound (names : list string) :
  forall m, Forall (bound m) names -> fold_left touch names m = m.
Proof.
  induction names as [|n names IH]; intros m Hall; [reflexivity|].
  inversion Hall as [|? ? [h Hn] Hrest]; subst.
  cbn [fold_left]. rewrite (proj2 (resolve_present _ _ _ Hn)). apply IH, Hrest.
Qed.

Lemma create_routes_resolved (datacenter : nat) (entries : list json) :
  forall st st',
    Forall (fun cfg => forall f, route_fields_of cfg = Ok f ->
              bound (zone_map st) (rf_src f) /\ bound (zone_map st) (rf_dst f) /\
              Forall (bound (link_map st)) (rf_links f)) entries ->
    for_each entries (create_route datacenter) st = Ok (tt, st') ->
    exists new,
      routes st' = routes st ++ new /\ length new = length entries /\
      Forall (fun r => r_zone r = datacenter /\ resolved r) new /\
      zones st' = zones st.
Proof.
  induction entries as [|cfg entries IH]; intros st st' Hall H.
  - injection H as <-. exists []. rewrite app_nil_r. repeat split. constructor.
  - cbn [for_each] in H. apply bind_inv in H as ([] & st1 & H1 & H).
    rewrite create_route_effect in H1.
    destruct (route_fields_of cfg) as [f| |] eqn:Hf; try discriminate H1.
    injection H1 as <-.
    inversion Hall as [|? ? Hcfg Hrest]; subst.
    destruct (Hcfg f Hf) as ([hs Hs] & [hd Hd] & Hl).
    assert (Hzm : zone_map (route_effect datacenter f st) = zone_map st).
    { unfold route_effect. cbn [zone_map].
      rewrite (proj2 (resolve_present _ _ _ Hs)), (proj2 (resolve_present _ _ _ Hd)).
      reflexivity. }
    assert (Hlm : link_map (route_effect datacenter f st) = link_map st).
    { unfold route_effect. cbn [link_map]. apply fold_touch_bound, Hl. }
    apply IH in H as (new & Hroutes & Hlen & Hnew & Hzones).
    + eexists (_ :: new). split; [|split; [|split]].
      * rewrite Hroutes. unfold route_effect. cbn [routes].
        rewrite <- app_assoc. reflexivity.
      * cbn [length]. rewrite Hlen. reflexivity.
      * constructor; [|exact Hnew]. cbn [r_zone]. split; [reflexivity|].
        unfold resolved. cbn [r_src r_dst r_links].
        rewrite (proj1 (resolve_present _ _ _ Hs)), (proj1 (resolve_present _ _ _ Hd)).
        split; [eauto|]. split; [eauto|].
        apply Forall_fmap. eapply Forall_impl; [exact Hl|].
        intros n [h Hn]. cbn. rewrite (proj1 (resolve_present _ _ _ Hn)). eauto.
      * rewrite Hzones. reflexivity.
    + rewrite Hzm, Hlm. exact Hrest.
Qed.

(** X15.  Within a facility the order of the members of the document does
    not matter: the storage systems, the clusters and the links are built
    before the routes.  When every route entry of a facility names, as its
    ends, the facility, one of its storage systems, one of its clusters or
    a zone that the registry already binds, and as its links, links of the
    facility or links that the registry already binds, then the round
    installs one route per entry in the facility zone, and no end and no
    link of these routes is null. *)
Theorem facility_routes_resolve (dc_config routes_config : json) (st st' : state) :
  load_facility dc_config st = Ok (tt, st') ->
  at_key dc_config "routes" = Ok routes_config ->
  Forall (fun route_cfg => forall f, route_fields_of route_cfg = Ok f ->
            let zone_ok n := n ∈ facility_zone_names dc_config \/ bound (zone_map st) n in
            let link_ok n := n ∈ declared_names dc_config "links" \/ bound (link_map st) n in
            zone_ok (rf_src f) /\ zone_ok (rf_dst f) /\ Forall link_ok (rf_links f))
    (items routes_config) ->
  exists earlier new,
    routes st' = earlier ++ new /\
    length new = length (items routes_config) /\
    Forall (fun r => r_zone r = length (zones st) /\ resolved r) new.
Proof.
  intros H Hroutes Hall. unfold load_facility in H.
  apply bind_inv in H as (d & st1 & H1 & H).
  rewrite create_facility_zone_effect in H1.
  destruct (field_string dc_config "name") as [name| |] eqn:Hname; try discriminate H1.
  destruct (field_string dc_config "routing") as [r| |]; try discriminate H1.
  cbn [rbind] in H1. injection H1 as <- <-.
  match type of H with _ ?s = _ => set (st1 := s) in * end.
  apply bind_inv in H as (? & st2 & H2 & H).
  apply bind_inv in H as (? & st3 & H3 & H).
  apply bind_inv in H as (? & st4 & H4 & H).
  apply bind_inv in H as (? & st5 & H5 & H).
  injection H as <-.
  assert (B1 : binds st st1 /\ bound (zone_map st1) name).
  { unfold st1, with_zone_map, with_zones. split.
    - constructor; cbn [zone_map link_map]; [intros k; apply bound_insert | auto].
    - cbn [zone_map]. apply bound_insert_eq. }
  destruct B1 as [B1 N1].
  apply (section_registers zone_map) in H2 as [B2 N2];
    [|intros ? ? []; auto|apply create_storage_system_zone_registers].
  apply (section_registers zone_map) in H3 as [B3 N3];
    [|intros ? ? []; auto|apply create_cluster_zone_registers].
  assert (H4' : (if contains dc_config "links" then
                   let* cfgs := read_json dc_config "links" in
                   for_each (items cfgs) (create_inter_zone_link (length (zones st)))
                 else ret tt) st3 = Ok (x1, st4)) by exact H4.
  apply (section_registers link_map) in H4' as [B4 N4];
    [|intros ? ? []; auto|apply create_inter_zone_link_registers].
  assert (Hc : contains dc_config "routes" = true).
  { destruct dc_config; try discriminate Hroutes. unfold at_key in Hroutes.
    unfold contains. destruct (assoc "routes" members); [|discriminate Hroutes].
    apply bool_decide_eq_true. eauto. }
  rewrite Hc, bind_read_json, Hroutes in H5. cbn [rbind] in H5.
  unfold create_routes in H5. destruct x2.
  apply create_routes_resolved in H5 as (new & Hr & Hlen & Hnew & _).
  - exists (routes st4), new. split; [|split; assumption].
    unfold with_zones. cbn [routes]. exact Hr.
  - eapply Forall_impl; [exact Hall|]. cbv zeta. intros cfg Hcfg f Hf.
    destruct (Hcfg f Hf) as (Hsrc & Hdst & Hlinks).
    assert (Hzone : forall n,
              n ∈ facility_zone_names dc_config \/ bound (zone_map st) n ->
              bound (zone_map st4) n).
    { intros n [Hn|Hn].
      - unfold facility_zone_names in Hn. unfold entry_name in Hn. rewrite Hname in Hn.
        cbn [option_list app] in Hn.
        apply binds_zones with st3; [exact B4|].
        apply elem_of_cons in Hn as [->|Hn].
        + apply binds_zones with st2; [exact B3|].
          apply binds_zones with st1; [exact B2|]. exact N1.
        + apply elem_of_app in Hn as [Hn|Hn].
          * apply binds_zones with st2; [exact B3|]. apply N2, Hn.
          * apply N3, Hn.
      - apply binds_zones with st3; [exact B4|].
        apply binds_zones with st2; [exact B3|].
        apply binds_zones with st1; [exact B2|].
        apply binds_zones with st; [exact B1|]. exact Hn. }
    split; [apply Hzone, Hsrc|]. split; [apply Hzone, Hdst|].
    eapply Forall_impl; [exact Hlinks|]. intros n [Hn|Hn].
    + apply N4, Hn.
    + apply binds_links with st3; [exact B4|].
      apply binds_links with st2; [exact B3|].
      apply binds_links with st1; [exact B2|].
      apply binds_links with st; [exact B1|]. exact Hn.
Qed.

Lemma facility_routes_resolve_witness :
  exists st' earlier new,
    load_facility example_site_facility initial_state = Ok (tt, st') /\
    routes st' = earlier ++ new /\
    length new = 1%nat /\
    Forall (fun r => r_zone r = 0%nat /\ resolved r) new.
Proof.
  assert (Hrun : exists st',
    load_facility example_site_facility initial_state = Ok (tt, st'))
    by (eexists; vm_compute; reflexivity).
  destruct Hrun as (st' & Hrun).
  destruct (facility_routes_resolve example_site_facility
              (JArr [JObj [("src", JStr "c0"); ("dst", JStr "pfs");
                           ("links", JArr [JStr "c0-pfs"])]])
              initial_state st' Hrun eq_refl)
    as (earlier & new & Hroutes & Hlen & Hnew).
  - constructor; [|constructor]. intros f [= <-]. cbv zeta.
    cbn [rf_src rf_dst rf_links].
    split; [left; apply list_elem_of_In; vm_compute; auto|].
    split; [left; apply list_elem_of_In; vm_compute; auto|].
    constructor; [|constructor].
    left. apply list_elem_of_In. vm_compute. auto.
  - exists st', earlier, new. repeat split; assumption.
Defined.

(** ** The shape of the platform *)

Lemma same_tree_refl (st : state) : same_tree st st.
Proof. constructor; reflexivity. Qed.

Lemma same_tree_trans (st1 st2 st3 : state) :
  same_tree st1 st2 -> same_tree st2 st3 -> same_tree st1 st3.
Proof. intros [] []. constructor; congruence. Qed.

Lemma same_tree_ordered (st st' : state) :
  same_tree st st' -> tree_ordered st -> tree_ordered st'.
Proof.
  intros [Hz Hh Hd] []. constructor; rewrite ?Hz, ?Hh, ?Hd; assumption.
Qed.

Ltac call_same_tree :=
  let st := fresh "st" in
  intros st ? ? [= _ <-]; constructor; reflexivity.

Lemma create_inter_zone_links_same_tree datacenter cfg :
  post same_tree (create_inter_zone_links datacenter cfg).
Proof.
  unfold create_inter_zone_links, create_inter_zone_link.
  repeat first
    [ post_step same_tree same_tree_refl same_tree_trans
    | unfold add_link, set_latency, link_map_set, modify; call_same_tree ].
Qed.

Lemma create_routes_same_tree datacenter cfg :
  post same_tree (create_routes datacenter cfg).
Proof.
  unfold create_routes, create_route.
  repeat first
    [ post_step same_tree same_tree_refl same_tree_trans
    | unfold zone_map_at, link_map_at, add_route, modify; call_same_tree ].
Qed.

Lemma lookup_app_new_inv {A} (l new : list A) (i : nat) (x : A) :
  (l ++ new) !! i = Some x ->
  l !! i = Some x \/ ((length l <= i)%nat /\ new !! (i - length l)%nat = Some x).
Proof.
  intros H. destruct (Nat.le_gt_cases (length l) i) as [Hle|Hgt].
  - right. rewrite lookup_app_r in H by assumption. auto.
  - left. rewrite lookup_app_l in H by assumption. exact H.
Qed.

Lemma cluster_effect_ordered (parent : nat) (f : cluster_fields) (st : state) :
  tree_ordered st -> (parent < length (zones st))%nat ->
  tree_ordered (cluster_effect parent f st).
Proof.
  intros [Hp Hh Hd] Hparent. unfold cluster_effect.
  constructor; cbn [zones hosts disks]; rewrite ?length_app, ?length_map, ?length_seq.
  - intros i z p Hz Hzp. apply lookup_app_new_inv in Hz as [Hz|[Hle Hz]]; [eauto|].
    destruct (i - length (zones st))%nat; [|discriminate Hz].
    injection Hz as <-. cbn [z_parent] in Hzp. injection Hzp as <-. lia.
  - intros h x Hx. cbn [length].
    apply lookup_app_new_inv in Hx as [Hx|[Hle Hx]].
    + apply Hh in Hx. lia.
    + apply list_lookup_fmap_Some in Hx as (i & -> & _). cbn [node_host h_zone]. lia.
  - intros d x Hx. apply lookup_app_new_inv in Hx as [Hx|[Hle Hx]].
    + apply Hd in Hx. lia.
    + apply list_elem_of_lookup_2, list_elem_of_In, in_flat_map in Hx
        as (i & Hi & Hx).
      apply in_seq in Hi. unfold node_disks in Hx.
      destruct (cf_has_storage f); [|destruct Hx].
      destruct Hx as [<-|[]]. cbn [d_host]. lia.
Qed.

Lemma storage_system_effect_ordered (parent : nat) (f : storage_fields) (st : state) :
  tree_ordered st -> (parent < length (zones st))%nat ->
  tree_ordered (storage_system_effect parent f st).
Proof.
  intros [Hp Hh Hd] Hparent. unfold storage_system_effect.
  constructor; cbn [zones hosts disks]; rewrite ?length_app; cbn [length].
  - intros i z p Hz Hzp. apply lookup_app_new_inv in Hz as [Hz|[Hle Hz]]; [eauto|].
    destruct (i - length (zones st))%nat; [|discriminate Hz].
    injection Hz as <-. cbn [z_parent] in Hzp. injection Hzp as <-. lia.
  - intros h x Hx. apply lookup_app_new_inv in Hx as [Hx|[Hle Hx]].
    + apply Hh in Hx. lia.
    + destruct (h - length (hosts st))%nat; [|discriminate Hx].
      injection Hx as <-. cbn [h_zone]. lia.
  - intros d x Hx. apply lookup_app_new_inv in Hx as [Hx|[Hle Hx]].
    + apply Hd in Hx. lia.
    + apply list_elem_of_lookup_2 in Hx. unfold storage_system_disks in Hx.
      destruct (storage_system_kind f) as [[]|].
      * apply list_elem_of_singleton in Hx as ->. cbn [d_host]. lia.
      * apply list_elem_of_fmap in Hx as (i & -> & _). cbn [jbod_disk d_host]. lia.
      * inversion Hx.
Qed.

Lemma for_each_invariant {A} (I : state -> Prop) (body : A -> M unit) :
  (forall x st st', I st -> body x st = Ok (tt, st') -> I st') ->
  forall l st st', I st -> for_each l body st = Ok (tt, st') -> I st'.
Proof.
  intros Hbody l. induction l as [|x l IH]; intros st st' Hst H.
  - injection H as <-. exact Hst.
  - cbn [for_each] in H. apply bind_inv in H as ([] & st1 & H1 & H). eauto.
Qed.

Lemma section_invariant (I : state -> Prop) (body : json -> M unit)
    (dc_config : json) (key : string) (st st' : state) (a : unit) :
  (forall x st st', I st -> body x st = Ok (tt, st') -> I st') ->
  I st ->
  (if contains dc_config key then
     let* cfgs := read_json dc_config key in for_each (items cfgs) body
   else ret tt) st = Ok (a, st') ->
  I st'.
Proof.
  intros Hbody Hst H. destruct a. destruct (contains dc_config key).
  - rewrite bind_read_json in H.
    destruct (at_key dc_config key) as [v| |]; try discriminate H.
    cbn [rbind] in H. eapply for_each_invariant; eassumption.
  - injection H as <-. exact Hst.
Qed.

Lemma load_facility_ordered (cfg : json) (st st' : state) :
  tree_ordered st -> load_facility cfg st = Ok (tt, st') -> tree_ordered st'.
Proof.
  intros Hst H. unfold load_facility in H.
  apply bind_inv in H as (d & st1 & H1 & H).
  rewrite create_facility_zone_effect in H1.
  destruct (field_string cfg "name") as [name| |]; try discriminate H1.
  destruct (field_string cfg "routing") as [r| |]; try discriminate H1.
  cbn [rbind] in H1. injection H1 as <- <-.
  match type of H with _ ?s = _ => set (st1 := s) in * end.
  set (I := fun s => tree_ordered s /\ (length (zones st) < length (zones s))%nat).
  assert (I1 : I st1).
  { destruct Hst as [Hp Hh Hd]. unfold I, st1, with_zone_map, with_zones. split.
    - constructor; cbn [zones hosts disks]; rewrite ?length_app; cbn [length].
      + intros i z p Hz Hzp. apply lookup_app_new_inv in Hz as [Hz|[Hle Hz]]; [eauto|].
        destruct (i - length (zones st))%nat; [|discriminate Hz].
        injection Hz as <-. discriminate Hzp.
      + intros h x Hx. apply Hh in Hx. lia.
      + exact Hd.
    - cbn [zones]. rewrite length_app. cbn. lia. }
  apply bind_inv in H as (? & st2 & H2 & H).
  apply bind_inv in H as (? & st3 & H3 & H).
  apply bind_inv in H as (? & st4 & H4 & H).
  apply bind_inv in H as (? & st5 & H5 & H).
  injection H as <-.
  apply (section_invariant I) in H2; [|clear; intros cfg s s' [Hs Hlt] H|exact I1].
  2:{ rewrite create_storage_system_zone_effect in H.
      destruct (storage_fields_of cfg) as [f| |]; try discriminate H.
      injection H as <-. split.
      - apply storage_system_effect_ordered; assumption.
      - unfold storage_system_effect. cbn [zones]. rewrite length_app. lia. }
  apply (section_invariant I) in H3; [|clear; intros cfg s s' [Hs Hlt] H|exact H2].
  2:{ rewrite create_cluster_zone_effect in H.
      destruct (cluster_fields_of cfg) as [f| |]; try discriminate H.
      injection H as <-. split.
      - apply cluster_effect_ordered; assumption.
      - unfold cluster_effect. cbn [zones]. rewrite length_app. lia. }
  destruct H3 as [O3 _].
  assert (S4 : same_tree st3 st4).
  { match type of H4 with ?m _ = _ => assert (P : post same_tree m) end;
      [|exact (P _ _ _ H4)].
    repeat first [ apply create_inter_zone_links_same_tree
                 | post_step same_tree same_tree_refl same_tree_trans ]. }
  assert (S5 : same_tree st4 st5).
  { match type of H5 with ?m _ = _ => assert (P : post same_tree m) end;
      [|exact (P _ _ _ H5)].
    repeat first [ apply create_routes_same_tree
                 | post_step same_tree same_tree_refl same_tree_trans ]. }
  pose proof (same_tree_ordered _ _ S5 (same_tree_ordered _ _ S4 O3)) as [Hp Hh Hd].
  unfold with_zones. constructor; cbn [zones hosts disks]; rewrite ?length_alter.
  - intros i z p Hz Hzp. destruct (decide (length (zones st) = i)) as [<-|Hne].
    + rewrite list_lookup_alter_eq in Hz.
      destruct (zones st5 !! length (zones st)) as [z0|] eqn:Hz0; [|discriminate Hz].
      injection Hz as <-. cbn [z_parent] in Hzp. eauto.
    + rewrite list_lookup_alter_ne in Hz by assumption. eauto.
  - exact Hh.
  - exact Hd.
Qed.

Lemma load_platform_ordered (fuel : nat) (src : config_source) (st st' : state) :
  tree_ordered st -> load_platform fuel src st = Ok (tt, st') -> tree_ordered st'.
Proof.
  intros Hst H. destruct src as [|config]; [discriminate H|].
  cbn [load_platform] in H. unfold compile in H.
  rewrite bind_lift in H.
  destruct (at_key_mut config "facilities") as [[facilities config']| |];
    try discriminate H.
  cbn [rbind fst snd] in H.
  apply bind_inv in H as ([] & st1 & H1 & H).
  apply (for_each_invariant tree_ordered) in H1;
    [|intros; eapply load_facility_ordered; eassumption|exact Hst].
  destruct (contains config' "filesystems").
  - rewrite bind_read_json in H.
    destruct (at_key config' "filesystems") as [fss| |]; try discriminate H.
    cbn [rbind] in H.
    apply create_filesystems_same_platform in H as [Hz Hh Hd _ _ _ _ _ _ _].
    destruct H1. constructor; rewrite ?Hz, ?Hh, ?Hd; assumption.
  - injection H as <-. exact H1.
Qed.

Lemma initial_state_ordered : tree_ordered initial_state.
Proof. constructor; intros ? ? ?; discriminate. Qed.

(** ** The platform summary *)

Section Walk.

Variable st : state.
Hypothesis ordered : tree_ordered st.

Lemma children_rank (z : zone_ref) (c : nat) :
  In c (get_children st z) -> (rank z <= c)%nat /\ (c < length (zones st))%nat.
Proof.
  unfold get_children. intros Hc. apply filter_In in Hc as [Hc Hp].
  apply in_seq in Hc. split; [|lia].
  destruct (zones st !! c) as [x|] eqn:Hx; [|discriminate Hp].
  apply bool_decide_eq_true in Hp. destruct z as [|k]; cbn [rank]; [lia|].
  pose proof (to_parents st ordered c x k Hx Hp). lia.
Qed.

Lemma enough_child (fuel : nat) (z : zone_ref) (c : nat) :
  enough (S fuel) st z -> In c (get_children st z) -> enough fuel st (ZoneAt c).
Proof.
  intros [H1 H2] Hc. apply children_rank in Hc. unfold enough. cbn [rank]. lia.
Qed.

Lemma flat_map_ext_in {A B} (g1 g2 : A -> list B) (l : list A) :
  (forall a, In a l -> g1 a = g2 a) -> flat_map g1 l = flat_map g2 l.
Proof.
  induction l as [|x l IH]; intros H; [reflexivity|].
  cbn [flat_map]. rewrite (H x) by (left; reflexivity).
  rewrite IH; [reflexivity|]. intros a Ha. apply H. right. exact Ha.
Qed.

Lemma enough_positive (fuel : nat) (z : zone_ref) :
  enough fuel st z -> exists fuel', fuel = S fuel'.
Proof. intros [H1 H2]. destruct fuel; [lia|eauto]. Qed.

Lemma walk_fuel (fuel : nat) :
  forall fuel' z, enough fuel st z -> enough fuel' st z ->
  walk fuel st z = walk fuel' st z.
Proof.
  induction fuel as [|fuel IH]; intros fuel' z H H'.
  - apply enough_positive in H as [? [=]].
  - destruct (enough_positive _ _ H') as [f' ->]. cbn [walk]. f_equal.
    apply flat_map_ext_in. intros c Hc.
    apply IH; eapply enough_child; eassumption.
Qed.

Lemma walk_S (fuel : nat) (z : zone_ref) :
  walk (S fuel) st z
  = z :: flat_map (fun c => walk fuel st (ZoneAt c)) (get_children st z).
Proof. reflexivity. Qed.

Lemma count_walk (fuel : nat) :
  forall z t, enough fuel st z ->
  count fuel st z t
  = Some (fold_left (fun t z => count_hosts st z t) (walk fuel st z) t).
Proof.
  induction fuel as [|fuel IH]; intros z t H.
  - apply enough_positive in H as [? [=]].
  - cbn [count walk fold_left].
    assert (Hcs : forall c, In c (get_children st z) -> enough fuel st (ZoneAt c))
      by (intros c; apply enough_child, H).
    generalize (count_hosts st z t). revert Hcs.
    induction (get_children st z) as [|c cs IHcs]; intros Hcs t0; [reflexivity|].
    cbn [fold_left flat_map]. rewrite fold_left_app, IH by (apply Hcs; left; reflexivity).
    apply IHcs. intros c' Hc'. apply Hcs. right. exact Hc'.
Qed.

End Walk.

Lemma filter_split {A} (p q r : A -> bool) (l : list A) :
  (forall x, In x l -> p x = q x || r x) ->
  (forall x, In x l -> q x && r x = false) ->
  List.filter p l ≡ₚ List.filter q l ++ List.filter r l.
Proof.
  induction l as [|x l IH]; intros Hp Hd; [reflexivity|].
  assert (IH' : List.filter p l ≡ₚ List.filter q l ++ List.filter r l).
  { apply IH; intros y Hy; [apply Hp|apply Hd]; right; exact Hy. }
  cbn [List.filter].
  rewrite (Hp x) by (left; reflexivity).
  pose proof (Hd x (or_introl eq_refl)) as Hx.
  destruct (q x), (r x); cbn [orb]; try discriminate Hx.
  - rewrite IH'. reflexivity.
  - rewrite IH'. cbn [app]. apply Permutation_middle.
  - exact IH'.
Qed.

Lemma filter_none {A} (p : A -> bool) (l : list A) :
  (forall x, In x l -> p x = false) -> List.filter p l = [].
Proof.
  induction l as [|x l IH]; intros H; [reflexivity|].
  cbn [List.filter]. rewrite (H x) by (left; reflexivity).
  apply IH. intros y Hy. apply H. right. exact Hy.
Qed.

Lemma filter_eqb_seq (m n : nat) :
  (m < n)%nat -> List.filter (fun c => Nat.eqb c m) (seq 0 n) = [m].
Proof.
  intros Hm. replace n with (m + S (n - S m))%nat by lia.
  rewrite seq_app, List.filter_app. cbn [seq List.filter Nat.add].
  rewrite Nat.eqb_refl, !filter_none; [reflexivity| |];
    intros c Hc; apply in_seq in Hc; apply Nat.eqb_neq; lia.
Qed.

Section Cut.

Variable st : state.
Hypothesis ordered : tree_ordered st.

Lemma children_filter (z : zone_ref) :
  get_children st z = List.filter (fun c => bool_decide (zone_parent st c = z)) (seq 0 (length (zones st))).
Proof.
  unfold get_children. apply filter_ext_in. intros c Hc. apply in_seq in Hc.
  unfold zone_parent. destruct (zones st !! c) as [x|] eqn:Hx; [reflexivity|].
  apply lookup_ge_None in Hx. lia.
Qed.

Lemma parent_lt (c p : nat) : zone_parent st c = ZoneAt p -> (p < c)%nat.
Proof.
  unfold zone_parent. destruct (zones st !! c) as [x|] eqn:Hx; [|discriminate].
  apply (to_parents st ordered c x p Hx).
Qed.

Lemma subtree_unfold (m : nat) :
  (m < length (zones st))%nat ->
  subtree st m = ZoneAt m :: flat_map (subtree st) (get_children st (ZoneAt m)).
Proof.
  intros Hm. unfold subtree.
  rewrite (walk_fuel st ordered (length (zones st)) (S (length (zones st) - 1))) by (unfold enough; cbn [rank]; lia).
  rewrite walk_S. f_equal. apply flat_map_ext_in. intros c Hc.
  pose proof (children_rank st ordered _ _ Hc) as [Hr Hlt]. cbn [rank] in Hr.
  apply (walk_fuel st ordered); unfold enough; cbn [rank]; lia.
Qed.

Lemma cut_step (m : nat) : (m < length (zones st))%nat -> cut st m ≡ₚ cut st (S m).
Proof.
  intros Hm. unfold cut.
  set (Q := fun c => Nat.ltb m c && parent_before st m c).
  set (R := fun c => bool_decide (zone_parent st c = ZoneAt m)).
  rewrite (filter_split _ (fun c => Nat.eqb c m) Q (seq 0 (length (zones st)))).
  - rewrite (filter_split (fun c => Nat.leb (S m) c && parent_before st (S m) c) Q R).
    + rewrite filter_eqb_seq by assumption.
      replace (List.filter R (seq 0 (length (zones st)))) with (get_children st (ZoneAt m))
        by apply children_filter.
      rewrite !flat_map_app. cbn [flat_map].
      rewrite app_nil_r, subtree_unfold by assumption.
      rewrite seq_S, map_app. cbn [map Nat.add].
      rewrite <- !app_assoc. apply Permutation_app_head. cbn [app].
      apply Permutation_cons; [reflexivity|]. apply Permutation_app_comm.
    + intros c _. unfold Q, R, parent_before.
      destruct (zone_parent st c) as [|p] eqn:Hp.
      * rewrite bool_decide_eq_false_2 by discriminate.
        rewrite !andb_true_r, orb_false_r. reflexivity.
      * apply parent_lt in Hp as Hlt.
        destruct (decide (p = m)) as [->|Hne].
        -- rewrite bool_decide_eq_true_2 by reflexivity.
           rewrite Nat.ltb_irrefl, andb_false_r. cbn [orb].
           rewrite (proj2 (Nat.leb_le _ _)) by lia.
           rewrite (proj2 (Nat.ltb_lt _ _)) by lia. reflexivity.
        -- rewrite bool_decide_eq_false_2 by congruence. rewrite orb_false_r.
           f_equal. destruct (Nat.ltb_spec p m), (Nat.ltb_spec p (S m)); try lia;
             reflexivity.
    + intros c _. unfold Q, R, parent_before.
      destruct (bool_decide_reflect (zone_parent st c = ZoneAt m)) as [Hp|Hp];
        [|apply andb_false_r].
      rewrite Hp, Nat.ltb_irrefl, !andb_false_r. reflexivity.
  - intros c _. unfold Q.
    destruct (Nat.eqb_spec c m) as [->|Hne].
    + rewrite Nat.leb_refl, Nat.ltb_irrefl. cbn [andb orb].
      unfold parent_before. destruct (zone_parent st m) as [|p] eqn:Hp; [reflexivity|].
      apply Nat.ltb_lt, parent_lt, Hp.
    + cbn [orb]. f_equal.
      destruct (Nat.leb_spec m c), (Nat.ltb_spec m c); try lia; reflexivity.
  - intros c _. unfold Q. destruct (Nat.eqb_spec c m) as [->|Hne]; [|reflexivity].
    rewrite Nat.ltb_irrefl. reflexivity.
Qed.

Lemma cut_all (m : nat) : (m <= length (zones st))%nat -> cut st 0 ≡ₚ cut st m.
Proof.
  induction m as [|m IH]; intros Hm; [reflexivity|].
  rewrite IH by lia. apply cut_step. lia.
Qed.

(** [count] comes to every zone once. *)
Lemma walk_all_zones :
  walk (S (length (zones st))) st RootZone ≡ₚ RootZone :: map ZoneAt (seq 0 (length (zones st))).
Proof.
  cbn [walk]. apply Permutation_cons; [reflexivity|].
  transitivity (cut st 0).
  - unfold cut. cbn [seq map app]. rewrite children_filter.
    rewrite (filter_ext_in (fun c => bool_decide (zone_parent st c = RootZone))
               (fun c => Nat.leb 0 c && parent_before st 0 c)); [reflexivity|].
    intros c _. unfold parent_before. cbn [Nat.leb andb].
    destruct (zone_parent st c); reflexivity.
  - rewrite (cut_all (length (zones st))) by lia. unfold cut.
    rewrite filter_none; [cbn [flat_map]; rewrite app_nil_r; reflexivity|].
    intros c Hc. apply in_seq in Hc.
    rewrite (proj2 (Nat.leb_gt _ _)) by lia. reflexivity.
Qed.

End Cut.

Lemma wrap_int_add (a b : Z) : wrap_int (wrap_int a + b) = wrap_int (a + b).
Proof.
  unfold wrap_int. f_equal.
  replace ((a + 2147483648) mod 4294967296 - 2147483648 + b + 2147483648)
    with ((a + 2147483648) mod 4294967296 + b) by lia.
  rewrite Z.add_mod_idemp_l by lia. f_equal. lia.
Qed.

Lemma wrap_int_idem (a : Z) : wrap_int (wrap_int a) = wrap_int a.
Proof. pose proof (wrap_int_add a 0) as H. rewrite !Z.add_0_r in H. exact H. Qed.

Lemma count_hosts_sum (st : state) (z : zone_ref) (t : totals) :
  wrap_int (total_hosts t) = total_hosts t ->
  wrap_int (total_disks t) = total_disks t ->
  count_hosts st z t
  = mk_totals
      (wrap_int (total_hosts t + Z.of_nat (length (own_hosts st z))))
      (wrap_int (total_disks t
                 + Z.of_nat (sum_list_with (fun h => length (get_disks st h))
                               (own_hosts st z)))).
Proof.
  unfold count_hosts, own_hosts, get_all_hosts.
  generalize (seq 0 (length (hosts st))). intros l. revert t.
  induction l as [|h l IH]; intros [th td] Hh Hd; cbn [total_hosts total_disks] in *.
  - cbn. rewrite !Z.add_0_r, Hh, Hd. reflexivity.
  - cbn [List.filter].
    destruct (bool_decide (get_englobing_zone st h = Some z)) eqn:Hz.
    + cbn [fold_left]. rewrite Hz, IH; cbn [total_hosts total_disks];
        [|apply wrap_int_idem..].
      rewrite !wrap_int_add. cbn [length sum_list_with]. f_equal; f_equal; lia.
    + apply IH; assumption.
Qed.

Lemma fold_count_hosts (st : state) (l : list zone_ref) :
  forall t,
    wrap_int (total_hosts t) = total_hosts t ->
    wrap_int (total_disks t) = total_disks t ->
    fold_left (fun t z => count_hosts st z t) l t
    = mk_totals
        (wrap_int (total_hosts t
                   + Z.of_nat (sum_list_with (fun z => length (own_hosts st z)) l)))
        (wrap_int (total_disks t
                   + Z.of_nat (sum_list_with
                       (fun z => sum_list_with (fun h => length (get_disks st h))
                                   (own_hosts st z)) l))).
Proof.
  induction l as [|z l IH]; intros [th td] Hh Hd; cbn [total_hosts total_disks] in *.
  - cbn. rewrite !Z.add_0_r, Hh, Hd. reflexivity.
  - cbn [fold_left]. rewrite count_hosts_sum by assumption.
    rewrite IH; cbn [total_hosts total_disks]; [|apply wrap_int_idem..].
    rewrite !wrap_int_add. cbn [sum_list_with]. f_equal; f_equal; lia.
Qed.

(** Grouping the entries of a list by a key below [n] loses none and
    counts none twice. *)
Lemma sum_by_key {A} (key : A -> nat) (g : A -> nat) (l : list A) (n : nat) :
  sum_list_with
    (fun i => sum_list_with g (List.filter (fun x => Nat.eqb (key x) i) l))
    (seq 0 n)
  = sum_list_with g (List.filter (fun x => Nat.ltb (key x) n) l).
Proof.
  induction n as [|n IH].
  - cbn. rewrite filter_none; [reflexivity|]. intros x _. reflexivity.
  - rewrite seq_S, sum_list_with_app, IH. cbn [sum_list_with Nat.add].
    rewrite Nat.add_0_r.
    assert (Hsplit : List.filter (fun x => Nat.ltb (key x) (S n)) l
                     ≡ₚ List.filter (fun x => Nat.ltb (key x) n) l
                        ++ List.filter (fun x => Nat.eqb (key x) n) l).
    { apply filter_split; intros x _.
      - destruct (Nat.ltb_spec (key x) (S n)), (Nat.ltb_spec (key x) n),
          (Nat.eqb_spec (key x) n); try lia; reflexivity.
      - destruct (Nat.ltb_spec (key x) n), (Nat.eqb_spec (key x) n);
          try lia; reflexivity. }
    rewrite (sum_list_with_Permutation_proper g _ _ Hsplit), sum_list_with_app.
    reflexivity.
Qed.

Lemma filter_all {A} (p : A -> bool) (l : list A) :
  (forall x, In x l -> p x = true) -> List.filter p l = l.
Proof.
  induction l as [|x l IH]; intros H; [reflexivity|].
  cbn [List.filter]. rewrite (H x) by (left; reflexivity). f_equal.
  apply IH. intros y Hy. apply H. right. exact Hy.
Qed.

Lemma sum_list_with_ones {A} (l : list A) : sum_list_with (fun _ => 1%nat) l = length l.
Proof. induction l as [|x l IH]; [reflexivity|]. cbn. rewrite IH. reflexivity. Qed.

Lemma sum_list_with_ext_in {A} (f g : A -> nat) (l : list A) :
  (forall x, In x l -> f x = g x) -> sum_list_with f l = sum_list_with g l.
Proof.
  induction l as [|x l IH]; intros H; [reflexivity|].
  cbn [sum_list_with]. rewrite (H x) by (left; reflexivity). f_equal.
  apply IH. intros y Hy. apply H. right. exact Hy.
Qed.

Lemma sum_list_with_map {A B} (f : B -> nat) (g : A -> B) (l : list A) :
  sum_list_with f (map g l) = sum_list_with (fun x => f (g x)) l.
Proof. induction l as [|x l IH]; [reflexivity|]. cbn. rewrite IH. reflexivity. Qed.

Lemma count_by_key {A} (key : A -> nat) (l : list A) (n : nat) :
  (forall x, In x l -> (key x < n)%nat) ->
  sum_list_with (fun i => length (List.filter (fun x => Nat.eqb (key x) i) l)) (seq 0 n)
  = length l.
Proof.
  intros Hkey.
  rewrite (sum_list_with_ext_in _
             (fun i => sum_list_with (fun _ => 1%nat)
                         (List.filter (fun x => Nat.eqb (key x) i) l)))
    by (intros; symmetry; apply sum_list_with_ones).
  rewrite sum_by_key, sum_list_with_ones, filter_all; [reflexivity|].
  intros x Hx. apply Nat.ltb_lt, Hkey, Hx.
Qed.

Section Totals.

Variable st : state.
Hypothesis ordered : tree_ordered st.

Lemma own_hosts_root : own_hosts st RootZone = [].
Proof.
  unfold own_hosts. apply filter_none. intros h _.
  apply bool_decide_eq_false. unfold get_englobing_zone.
  destruct (hosts st !! h); discriminate.
Qed.

Lemma own_hosts_zone (i : nat) :
  own_hosts st (ZoneAt i)
  = List.filter (fun h => Nat.eqb (host_key st h) i) (seq 0 (length (hosts st))).
Proof.
  unfold own_hosts. apply filter_ext_in. intros h Hh. apply in_seq in Hh.
  unfold get_englobing_zone, host_key.
  destruct (hosts st !! h) as [x|] eqn:Hx.
  - cbn. destruct (Nat.eqb_spec (h_zone x) i) as [->|Hne].
    + apply bool_decide_eq_true. reflexivity.
    + apply bool_decide_eq_false. congruence.
  - apply lookup_ge_None in Hx. lia.
Qed.

Lemma get_disks_key (h : nat) :
  get_disks st h
  = List.filter (fun d => Nat.eqb (disk_key st d) h) (seq 0 (length (disks st))).
Proof.
  unfold get_disks. apply filter_ext_in. intros d Hd. apply in_seq in Hd.
  unfold disk_key. destruct (disks st !! d) as [x|] eqn:Hx; [reflexivity|].
  apply lookup_ge_None in Hx. lia.
Qed.

Lemma host_key_valid (h : nat) :
  In h (seq 0 (length (hosts st))) -> (host_key st h < length (zones st))%nat.
Proof.
  intros Hh. apply in_seq in Hh. unfold host_key.
  destruct (hosts st !! h) as [x|] eqn:Hx.
  - apply (to_hosts st ordered h x Hx).
  - apply lookup_ge_None in Hx. lia.
Qed.

Lemma disk_key_valid (d : nat) :
  In d (seq 0 (length (disks st))) -> (disk_key st d < length (hosts st))%nat.
Proof.
  intros Hd. apply in_seq in Hd. unfold disk_key.
  destruct (disks st !! d) as [x|] eqn:Hx.
  - apply (to_disks st ordered d x Hx).
  - apply lookup_ge_None in Hx. lia.
Qed.

Lemma hosts_of_all_zones :
  sum_list_with (fun z => length (own_hosts st z))
    (RootZone :: map ZoneAt (seq 0 (length (zones st))))
  = length (hosts st).
Proof.
  cbn [sum_list_with]. rewrite own_hosts_root, sum_list_with_map. cbn [length Nat.add].
  rewrite (sum_list_with_ext_in _
             (fun i => length (List.filter (fun h => Nat.eqb (host_key st h) i)
                                 (seq 0 (length (hosts st))))))
    by (intros; rewrite own_hosts_zone; reflexivity).
  rewrite count_by_key by apply host_key_valid. apply length_seq.
Qed.

Lemma disks_of_all_zones :
  sum_list_with
    (fun z => sum_list_with (fun h => length (get_disks st h)) (own_hosts st z))
    (RootZone :: map ZoneAt (seq 0 (length (zones st))))
  = length (disks st).
Proof.
  cbn [sum_list_with]. rewrite own_hosts_root, sum_list_with_map. cbn [sum_list_with Nat.add].
  rewrite (sum_list_with_ext_in _
             (fun i => sum_list_with (fun h => length (get_disks st h))
                         (List.filter (fun h => Nat.eqb (host_key st h) i)
                            (seq 0 (length (hosts st))))))
    by (intros; rewrite own_hosts_zone; reflexivity).
  rewrite sum_by_key, filter_all
    by (intros h Hh; apply Nat.ltb_lt, host_key_valid, Hh).
  rewrite (sum_list_with_ext_in _
             (fun h => length (List.filter (fun d => Nat.eqb (disk_key st d) h)
                                 (seq 0 (length (disks st))))))
    by (intros; rewrite get_disks_key; reflexivity).
  rewrite count_by_key by apply disk_key_valid. apply length_seq.
Qed.

Lemma count_root (fuel : nat) :
  (length (zones st) < fuel)%nat ->
  summary_totals fuel st
  = Some (mk_totals (wrap_int (Z.of_nat (length (hosts st))))
            (wrap_int (Z.of_nat (length (disks st))))).
Proof.
  intros Hfuel. unfold summary_totals.
  rewrite (count_walk st ordered) by (unfold enough; cbn [rank]; lia).
  rewrite (walk_fuel st ordered fuel (S (length (zones st))))
    by (unfold enough; cbn [rank]; lia).
  rewrite fold_count_hosts by reflexivity. cbn [total_hosts total_disks].
  rewrite (sum_list_with_Permutation_proper _ _ _ (walk_all_zones st ordered)).
  rewrite (sum_list_with_Permutation_proper
             (fun z => sum_list_with _ (own_hosts st z)) _ _ (walk_all_zones st ordered)).
  rewrite hosts_of_all_zones, disks_of_all_zones. reflexivity.
Qed.

End Totals.


(** X17.  The summary of what the loader builds.  A pass of
    [load_platform] keeps the platform in this shape: every zone it adds
    comes after its parent, every host it adds is in a zone and every disk
    on a host.  So after a pass that started on such a platform (the empty
    engine is one), the summary reports all the hosts and all the disks of
    the platform. *)
Theorem summary_of_loaded_platform (fuel depth : nat) (src : config_source)
    (st st' : state) :
  tree_ordered st ->
  load_platform fuel src st = Ok (tt, st') ->
  (length (zones st') < depth)%nat ->
  tree_ordered st' /\
  summary_totals depth st'
  = Some (mk_totals (wrap_int (Z.of_nat (length (hosts st'))))
            (wrap_int (Z.of_nat (length (disks st'))))).
Proof.
  intros Hordered Hrun Hdepth.
  assert (Hst : tree_ordered st')
    by (eapply load_platform_ordered; eassumption).
  split; [exact Hst|]. apply count_root; assumption.
Qed.



Lemma summary_of_loaded_platform_witness :
  exists st',
    load_platform 1 (Parsed example_site_document) initial_state = Ok (tt, st') /\
    summary_totals 6 st' = Some (mk_totals 4 6).
Proof.
  assert (Hrun : exists st',
    load_platform 1 (Parsed example_site_document) initial_state = Ok (tt, st') /\
    length (zones st') = 5%nat /\ length (hosts st') = 4%nat /\
    length (disks st') = 6%nat)
    by (eexists; repeat split; vm_compute; reflexivity).
  destruct Hrun as (st' & Hrun & Hz & Hh & Hd).
  exists st'. split; [exact Hrun|].
  destruct (summary_of_loaded_platform 1 6 (Parsed example_site_document)
              initial_state st' initial_state_ordered Hrun)
    as [_ Htotals]; [rewrite Hz; lia|].
  rewrite Htotals, Hh, Hd. reflexivity.
Defined.

Example summary_totals_values :
  let st :=
    mk_state [mk_zone "a" Full RootZone None true; mk_zone "b" Star (ZoneAt 0) None true]
      [mk_host "h0" "1Gf" 1 1; mk_host "h1" "1Gf" 1 0; mk_host "h2" "1Gf" 1 1]
      [mk_disk "d0" "1MBps" "1MBps" 2; mk_disk "d1" "1MBps" "1MBps" 2]
      [] [] [] [] [] [] ∅ ∅ ∅ in
  (summary_totals 3 st, summary_totals 2 st, walk 3 st RootZone,
   get_children st RootZone, get_all_hosts st (ZoneAt 1), get_disks st 2)
  = (Some (mk_totals 3 2), None, [RootZone; ZoneAt 0; ZoneAt 1],
     [0%nat], [0%nat; 2%nat], [0%nat; 1%nat]).
Proof. vm_compute. reflexivity. Qed.

(** ** Names in the registries *)

Lemma names_match_app {A} (name : A -> string) (l new : list A) m :
  names_match name l m -> names_match name (l ++ new) m.
Proof.
  intros H k h Hk. destruct (H k h Hk) as (x & Hx & Hn).
  exists x. split; [|exact Hn]. apply lookup_app_l_Some, Hx.
Qed.

Lemma names_match_insert {A} (name : A -> string) (l : list A) m (k : string)
    (h : nat) (x : A) :
  names_match name l m -> l !! h = Some x -> name x = k ->
  names_match name l (<[k := Some h]> m).
Proof.
  intros H Hx Hn k' h' Hk'. destruct (decide (k = k')) as [<-|Hne].
  - rewrite lookup_insert_eq in Hk'. injection Hk' as <-. eauto.
  - rewrite lookup_insert_ne in Hk' by assumption. eauto.
Qed.

Lemma names_match_touch {A} (name : A -> string) (l : list A) m (k : string) :
  names_match name l m -> names_match name l (touch m k).
Proof. intros H k' h Hk'. apply touch_inv in Hk'. eauto. Qed.

Lemma names_match_fold_touch {A} (name : A -> string) (l : list A) (ks : list string) :
  forall m, names_match name l m -> names_match name l (fold_left touch ks m).
Proof.
  induction ks as [|k ks IH]; intros m H; [exact H|].
  cbn [fold_left]. apply IH, names_match_touch, H.
Qed.

Lemma names_match_inserts {A} (name : A -> string) (l : list A) (key : nat -> string)
    (b : nat) (idx : list nat) :
  (forall i, In i idx -> exists x, l !! (b + i)%nat = Some x /\ name x = key i) ->
  forall m, names_match name l m ->
  names_match name l (fold_left (fun m i => <[key i := Some (b + i)%nat]> m) idx m).
Proof.
  induction idx as [|i idx IH]; intros His m H; [exact H|].
  cbn [fold_left]. apply IH.
  - intros j Hj. apply His. right. exact Hj.
  - destruct (His i (or_introl eq_refl)) as (x & Hx & Hn).
    eapply names_match_insert; eassumption.
Qed.

Lemma cluster_effect_named (parent : nat) (f : cluster_fields) (st : state) :
  named st -> named (cluster_effect parent f st).
Proof.
  intros [Hz Hl Hs].
  constructor.
  - unfold cluster_effect. cbn [zones zone_map].
    eapply names_match_insert;
      [apply names_match_app, Hz|apply lookup_app_new|reflexivity].
  - unfold cluster_effect. cbn [links link_map]. apply names_match_app, Hl.
  - destruct (node_storage_kind f) as [k|] eqn:Hk.
    + unfold cluster_effect at 2. cbn [storage_map]. rewrite Hk. cbv beta iota.
      apply names_match_inserts.
      * intros i Hi. apply in_seq in Hi.
        destruct (cluster_storage_entry parent f st k i Hk) as [Hsto _]; [lia|].
        eexists. split; [exact Hsto|reflexivity].
      * unfold cluster_effect. cbn [storages]. apply names_match_app, Hs.
    + unfold cluster_effect. cbn [storages storage_map]. rewrite Hk.
      rewrite fold_left_const. apply names_match_app, Hs.
Qed.

Lemma storage_system_effect_named (parent : nat) (f : storage_fields) (st : state) :
  named st -> named (storage_system_effect parent f st).
Proof.
  intros [Hz Hl Hs]. unfold storage_system_effect.
  constructor; cbn [zones zone_map links link_map storages storage_map].
  - eapply names_match_insert;
      [apply names_match_app, Hz|apply lookup_app_new|reflexivity].
  - exact Hl.
  - unfold storage_system_storages.
    destruct (storage_system_kind f) as [[]|].
    + eapply names_match_insert;
        [apply names_match_app, Hs|apply lookup_app_new|reflexivity].
    + eapply names_match_insert;
        [apply names_match_app, Hs|apply lookup_app_new|reflexivity].
    + apply names_match_app, Hs.
Qed.

Lemma create_inter_zone_link_named datacenter cfg st st' :
  named st -> create_inter_zone_link datacenter cfg st = Ok (tt, st') -> named st'.
Proof.
  intros [Hz Hl Hs] H. rewrite create_inter_zone_link_fields in H.
  destruct (link_fields_of cfg) as [f| |]; try discriminate H.
  injection H as <-. unfold with_link_map, with_links.
  constructor; cbn [zones zone_map links link_map storages storage_map];
    [exact Hz| |exact Hs].
  eapply names_match_insert;
    [apply names_match_app, Hl|apply lookup_app_new|reflexivity].
Qed.

Lemma create_route_named datacenter cfg st st' :
  named st -> create_route datacenter cfg st = Ok (tt, st') -> named st'.
Proof.
  intros [Hz Hl Hs] H. rewrite create_route_effect in H.
  destruct (route_fields_of cfg) as [f| |]; try discriminate H.
  injection H as <-. unfold route_effect.
  constructor; cbn [zones zone_map links link_map storages storage_map];
    [|apply names_match_fold_touch, Hl|exact Hs].
  apply names_match_touch, names_match_touch, Hz.
Qed.

Lemma names_match_alter {A} (name : A -> string) (g : A -> A) (l : list A) m (i : nat) :
  (forall x, name (g x) = name x) ->
  names_match name l m -> names_match name (alter g i l) m.
Proof.
  intros Hg H k h Hk. destruct (H k h Hk) as (x & Hx & Hn).
  destruct (decide (i = h)) as [->|Hne].
  - exists (g x). rewrite list_lookup_alter_eq, Hx. split; [reflexivity|].
    rewrite Hg. exact Hn.
  - exists x. rewrite list_lookup_alter_ne by assumption. auto.
Qed.

Lemma load_facility_named (cfg : json) (st st' : state) :
  named st -> load_facility cfg st = Ok (tt, st') -> named st'.
Proof.
  intros Hst H. unfold load_facility in H.
  apply bind_inv in H as (d & st1 & H1 & H).
  rewrite create_facility_zone_effect in H1.
  destruct (field_string cfg "name") as [name| |]; try discriminate H1.
  destruct (field_string cfg "routing") as [r| |]; try discriminate H1.
  cbn [rbind] in H1. injection H1 as <- <-.
  match type of H with _ ?s = _ => set (st1 := s) in * end.
  assert (N1 : named st1).
  { destruct Hst as [Hz Hl Hs]. unfold st1, with_zone_map, with_zones.
    constructor; cbn [zones zone_map links link_map storages storage_map];
      [|exact Hl|exact Hs].
    eapply names_match_insert;
      [apply names_match_app, Hz|apply lookup_app_new|reflexivity]. }
  apply bind_inv in H as (? & st2 & H2 & H).
  apply bind_inv in H as (? & st3 & H3 & H).
  apply bind_inv in H as (? & st4 & H4 & H).
  apply bind_inv in H as (? & st5 & H5 & H).
  injection H as <-.
  apply (section_invariant named) in H2; [|clear; intros cfg s s' Hs H|exact N1].
  2:{ rewrite create_storage_system_zone_effect in H.
      destruct (storage_fields_of cfg) as [f| |]; try discriminate H.
      injection H as <-. apply storage_system_effect_named, Hs. }
  apply (section_invariant named) in H3; [|clear; intros cfg s s' Hs H|exact H2].
  2:{ rewrite create_cluster_zone_effect in H.
      destruct (cluster_fields_of cfg) as [f| |]; try discriminate H.
      injection H as <-. apply cluster_effect_named, Hs. }
  assert (H4' : (if contains cfg "links" then
                   let* cfgs := read_json cfg "links" in
                   for_each (items cfgs) (create_inter_zone_link (length (zones st)))
                 else ret tt) st3 = Ok (x1, st4)) by exact H4.
  apply (section_invariant named) in H4';
    [|intros; eapply create_inter_zone_link_named; eassumption|exact H3].
  assert (H5' : (if contains cfg "routes" then
                   let* cfgs := read_json cfg "routes" in
                   for_each (items cfgs) (create_route (length (zones st)))
                 else ret tt) st4 = Ok (x2, st5)) by exact H5.
  apply (section_invariant named) in H5';
    [|intros; eapply create_route_named; eassumption|exact H4'].
  destruct H5' as [Hz Hl Hs]. unfold with_zones.
  constructor; cbn [zones zone_map links link_map storages storage_map];
    [|exact Hl|exact Hs].
  apply names_match_alter; [reflexivity|exact Hz].
Qed.

Lemma create_filesystems_named fuel fss cfg st st' :
  named st -> create_filesystems fuel fss cfg st = Ok (tt, st') -> named st'.
Proof.
  intros [Hz Hl Hs] H.
  apply create_filesystems_same_platform in H as [Ez _ _ El _ _ Es Elm Hzm Hsm].
  constructor; rewrite ?Ez, ?El, ?Es, ?Elm.
  - intros k h Hk. apply Hzm in Hk. eauto.
  - exact Hl.
  - intros k h Hk. apply Hsm in Hk. eauto.
Qed.

(** X18.  The registries name what they point to.  When every name that
    a registry binds to an entity binds it to a zone, a link or a storage
    device of that name, the same holds after a pass of [load_platform],
    whatever the document: a name declared twice is bound to the entity
    declared last, and never to an entity of another name. *)
Theorem registries_name_their_entities (fuel : nat) (src : config_source)
    (st st' : state) :
  named st ->
  load_platform fuel src st = Ok (tt, st') ->
  (forall k h, zone_map st' !! k = Some (Some h) ->
     exists z, zones st' !! h = Some z /\ z_name z = k) /\
  (forall k h, link_map st' !! k = Some (Some h) ->
     exists l, links st' !! h = Some l /\ l_name l = k) /\
  (forall k h, storage_map st' !! k = Some (Some h) ->
     exists s, storages st' !! h = Some s /\ s_name s = k).
Proof.
  intros Hst H. destruct src as [|config]; [discriminate H|].
  cbn [load_platform] in H. unfold compile in H.
  rewrite bind_lift in H.
  destruct (at_key_mut config "facilities") as [[facilities config']| |];
    try discriminate H.
  cbn [rbind fst snd] in H.
  apply bind_inv in H as ([] & st1 & H1 & H).
  apply (for_each_invariant named) in H1;
    [|intros; eapply load_facility_named; eassumption|exact Hst].
  assert (Hnamed : named st').
  { destruct (contains config' "filesystems").
    - rewrite bind_read_json in H.
      destruct (at_key config' "filesystems") as [fss| |]; try discriminate H.
      cbn [rbind] in H. eapply create_filesystems_named; eassumption.
    - injection H as <-. exact H1. }
  destruct Hnamed as [Hz Hl Hs]. repeat split; assumption.
Qed.

Lemma initial_state_named : named initial_state.
Proof.
  constructor; intros k h Hk; unfold initial_state in Hk;
    cbn [zone_map link_map storage_map] in Hk; rewrite lookup_empty in Hk;
    discriminate Hk.
Qed.

Lemma registries_name_their_entities_witness :
  exists st',
    load_platform 1 (Parsed example_site_document) initial_state = Ok (tt, st') /\
    zone_map st' !! "c0" = Some (Some 4%nat) /\
    exists z, zones st' !! 4%nat = Some z /\ z_name z = "c0".
Proof.
  assert (Hrun : exists st',
    load_platform 1 (Parsed example_site_document) initial_state = Ok (tt, st') /\
    zone_map st' !! "c0" = Some (Some 4%nat))
    by (eexists; split; vm_compute; reflexivity).
  destruct Hrun as (st' & Hrun & Hc0).
  exists st'. split; [exact Hrun|]. split; [exact Hc0|].
  destruct (registries_name_their_entities 1 (Parsed example_site_document)
              initial_state st' initial_state_named Hrun) as (Hz & _ & _).
  apply Hz, Hc0.
Defined.

(** ** Documents without facilities *)

(** X19.  Documents without facilities.  [load_platform] reads the
    ["facilities"] member of a document that is not const, which adds
    the member when it is absent: a null document and an object without
    the member raise no error and build no zone, host, disk, link, router,
    route or storage device; without file systems the pass changes
    nothing at all.  A document that is an array, a string, a number or a
    boolean fails with type error 305. *)
Theorem document_without_facilities (fuel : nat) (config : json) (st : state) :
  (config = JNull \/
   (exists members, config = JObj members /\ assoc "facilities" members = None) ->
   (forall st', load_platform fuel (Parsed config) st = Ok (tt, st') ->
      zones st' = zones st /\ hosts st' = hosts st /\ disks st' = disks st /\
      links st' = links st /\ routers st' = routers st /\ routes st' = routes st /\
      storages st' = storages st) /\
   (contains config "filesystems" = false ->
    load_platform fuel (Parsed config) st = Ok (tt, st))) /\
  ((forall members, config <> JObj members) -> config <> JNull ->
   load_platform fuel (Parsed config) st = Err type_error_305).
Proof.
  split.
  - intros Hconfig.
    assert (Hrun : exists config',
              load_platform fuel (Parsed config) st
              = (if contains config' "filesystems" then
                   let* fss := read_json config' "filesystems" in
                   create_filesystems fuel fss config'
                 else ret tt) st /\
              contains config' "filesystems" = contains config "filesystems").
    { destruct Hconfig as [->|(members & -> & Hnone)].
      - exists (JObj [("facilities", JNull)]). split; [|reflexivity].
        cbn [load_platform]. unfold compile. rewrite bind_lift.
        cbn [at_key_mut rbind fst snd items for_each]. reflexivity.
      - exists (JObj (members ++ [("facilities", JNull)])). split.
        + cbn [load_platform]. unfold compile. rewrite bind_lift.
          unfold at_key_mut. rewrite Hnone.
          cbn [rbind fst snd items for_each]. reflexivity.
        + unfold contains. clear Hnone.
          induction members as [|[k v] members IH]; [reflexivity|].
          cbn [app assoc]. destruct (String.eqb k "filesystems"); [reflexivity|exact IH]. }
    destruct Hrun as (config' & Hrun & Hc). rewrite Hrun. split.
    + intros st' H. destruct (contains config' "filesystems").
      * rewrite bind_read_json in H.
        destruct (at_key config' "filesystems") as [fss| |]; try discriminate H.
        cbn [rbind] in H.
        apply create_filesystems_same_platform in H as [? ? ? ? ? ? ? _ _ _].
        repeat split; assumption.
      * injection H as <-. repeat split.
    + intros Hno. rewrite Hc, Hno. reflexivity.
  - intros Hobj Hnull. destruct config; try reflexivity.
    + contradiction Hnull. reflexivity.
    + destruct (Hobj members eq_refl).
Qed.

Lemma document_without_facilities_witness :
  (exists st',
     load_platform 0 (Parsed example_no_facilities) busy_state = Ok (tt, st') /\
     zones st' = zones busy_state /\ hosts st' = hosts busy_state /\
     length (filesystems st') = 2%nat) /\
  load_platform 0 (Parsed JNull) busy_state = Ok (tt, busy_state) /\
  load_platform 0 (Parsed (JArr [])) busy_state = Err type_error_305.
Proof.
  split; [|split].
  - assert (Hrun : exists st',
      load_platform 0 (Parsed example_no_facilities) busy_state = Ok (tt, st') /\
      length (filesystems st') = 2%nat)
      by (eexists; split; vm_compute; reflexivity).
    destruct Hrun as (st' & Hrun & Hlen).
    exists st'. split; [exact Hrun|].
    destruct (proj1 (document_without_facilities 0 example_no_facilities busy_state))
      as [Hframe _].
    + right. eexists. split; reflexivity.
    + destruct (Hframe st' Hrun) as (Hz & Hh & _). repeat split; assumption.
  - apply (proj1 (document_without_facilities 0 JNull busy_state)).
    + left. reflexivity.
    + reflexivity.
  - apply (proj2 (document_without_facilities 0 (JArr []) busy_state)); discriminate.
Defined.

(** ** File systems on clusters *)

Lemma cluster_filesystem_mounts_witness :
  exists st',
    create_filesystem 1 example_scratch_document example_scratch_filesystem initial_state
    = Ok (tt, st') /\
    map (fun x => map p_mount_point (fs_partitions x)) (filesystems st')
      = [["/n0/scratch/"; "/n1/scratch/"; "/n2/scratch/"]] /\
    length (registered st') = 1%nat.
Proof.
  destruct (cluster_filesystem_mounts 1 example_scratch_document
              example_scratch_filesystem
              (mk_mount_fields "scratch" "/{hostname}/scratch/" "1TB" "c0"
                 (mk_cluster_info "n" "" "ssd" 3))
              initial_state)
    as (st' & Hrun & Hfs & Hreg); try reflexivity.
  exists st'. split; [exact Hrun|]. split.
  - rewrite Hfs. reflexivity.
  - rewrite Hreg. reflexivity.
Defined.

(** ** Builders and the file systems on what they build *)

(** X21.  A file system on a storage system of a type the loader does not
    know.  The storage system builder registers the zone and no storage
    device, and a file system entry that names the system then raises no
    error: its one partition is mounted on a null storage device, and the
    file system is registered against the zone of the system. *)
Theorem filesystem_on_unsupported_storage (parent fuel : nat)
    (storage_config platform_config fs_cfg : json) (f : storage_fields)
    (name pattern size : string) (st : state) :
  storage_fields_of storage_config = Ok f ->
  sf_type f <> "OneDisk" ->
  sf_type f <> "JBOD" ->
  storage_map st !! (sf_name f +:+ "_storage") = None ->
  field_string fs_cfg "name" = Ok name ->
  field_string fs_cfg "mount_point" = Ok pattern ->
  field_string fs_cfg "size" = Ok size ->
  field_string fs_cfg "storage_system" = Ok (sf_name f) ->
  exists st1 st2,
    create_storage_system_zone parent storage_config st = Ok (tt, st1) /\
    create_filesystem fuel platform_config fs_cfg st1 = Ok (tt, st2) /\
    filesystems st2 = filesystems st ++
      [mk_filesystem name 100000000 [mk_partition pattern None size]] /\
    registered st2 = registered st ++
      [(Some (length (zones st)), length (filesystems st))] /\
    storage_map st2 !! (sf_name f +:+ "_storage") = Some None.
Proof.
  intros Hf H1 H2 Hnone Hname Hpattern Hsize Hsystem.
  assert (Hkind : storage_system_kind f = None).
  { unfold storage_system_kind.
    destruct (String.eqb_spec (sf_type f) "JBOD"); [contradiction|].
    destruct (String.eqb_spec (sf_type f) "OneDisk"); [contradiction|].
    reflexivity. }
  eexists _, _. split.
  { rewrite create_storage_system_zone_effect, Hf. reflexivity. }
  rewrite create_filesystem_system_effect by (eapply contains_field_string; eassumption).
  rewrite Hname, Hpattern, Hsize, Hsystem. cbn [rbind]. split; [reflexivity|].
  unfold system_mount_effect, storage_system_effect.
  cbn [filesystems registered storage_map zone_map]. rewrite Hkind.
  rewrite !resolve_default, Hnone, lookup_insert_eq. cbn [default].
  split; [reflexivity|]. split; [reflexivity|].
  rewrite touch_lookup, resolve_default, Hnone. reflexivity.
Qed.

Lemma filesystem_on_unsupported_storage_witness :
  exists st1 st2,
    create_storage_system_zone 0 example_tape_system busy_state = Ok (tt, st1) /\
    create_filesystem 0 JNull example_archive_filesystem st1 = Ok (tt, st2) /\
    filesystems st2 = [mk_filesystem "backup" 100000000
                         [mk_partition "/archive/" None "1PB"]] /\
    registered st2 = [(Some 1%nat, 0%nat)].
Proof.
  destruct (filesystem_on_unsupported_storage 0 0 example_tape_system JNull
              example_archive_filesystem
              (mk_storage_fields "archive" "1Gf" "Tape" 4 "100MBps" "50MBps")
              "backup" "/archive/" "1PB" busy_state)
    as (st1 & st2 & Hrun1 & Hrun2 & Hfs & Hreg & _);
    try reflexivity; try discriminate.
  exists st1, st2. repeat split; assumption.
Defined.

(** X22.  A file system on the cluster that was just built.  After
    [create_cluster_zone] on a cluster with node storage of type OneDisk
    or JBOD, a file system entry on this cluster (found by the search with
    the prefix, suffix, storage name and count of this cluster, and no
    brace in the prefix or the suffix) mounts partition [i] on the storage
    device of node [i], for every node, and is registered against the
    zone of the cluster. *)
Theorem cluster_filesystem_on_node_storage (parent fuel : nat)
    (cluster_config platform_config fs_cfg : json) (f : cluster_fields)
    (mf : mount_fields) (st : state) :
  cluster_fields_of cluster_config = Ok f ->
  cf_has_storage f = true ->
  cf_storage_type f = "OneDisk" \/ cf_storage_type f = "JBOD" ->
  contains fs_cfg "storage_system" = false ->
  contains fs_cfg "cluster" = true ->
  mount_fields_of platform_config fs_cfg = Ok mf ->
  mf_cluster mf = cf_name f ->
  mf_info mf = mk_cluster_info (cf_prefix f) (cf_suffix f) (cf_storage_base_name f)
                 (cf_count f) ->
  count_char "{" (cf_prefix f) = 0%nat -> count_char "}" (cf_prefix f) = 0%nat ->
  count_char "{" (cf_suffix f) = 0%nat -> count_char "}" (cf_suffix f) = 0%nat ->
  (count_char "{" (mf_pattern mf) <= fuel)%nat ->
  exists st1 st2,
    create_cluster_zone parent cluster_config st = Ok (tt, st1) /\
    create_filesystem fuel platform_config fs_cfg st1 = Ok (tt, st2) /\
    filesystems st2 = filesystems st ++
      [mk_filesystem (mf_name mf) 100000000
         (map (fun i =>
            mk_partition
              (replace_every_occurrence placeholder
                 (hostname (cf_prefix f) (cf_suffix f) i) (mf_pattern mf))
              (Some (length (storages st) + i)%nat)
              (mf_size mf))
            (seq 0 (Z.to_nat (cf_count f))))] /\
    registered st2 = registered st ++
      [(Some (length (zones st)), length (filesystems st))] /\
    forall i, (i < Z.to_nat (cf_count f))%nat ->
      exists s, storages st2 !! (length (storages st) + i)%nat = Some s /\
                s_name s = (hostname (cf_prefix f) (cf_suffix f) i +:+ "_")
                           +:+ cf_storage_base_name f.
Proof.
  intros Hf Hhas Htype Hsys Hcluster Hmf Hname Hinfo Hp1 Hp2 Hs1 Hs2 Hfuel.
  set (k := if String.eqb (cf_storage_type f) "OneDisk" then OneDisk else JBOD).
  assert (Hkind : node_storage_kind f = Some k).
  { unfold node_storage_kind, k. rewrite Hhas.
    destruct Htype as [-> | ->]; reflexivity. }
  eexists _, _. split.
  { rewrite create_cluster_zone_effect, Hf. reflexivity. }
  rewrite create_filesystem_cluster_effect, Hmf by assumption. cbn [rbind].
  rewrite node_partitions_replaces by (rewrite ?Hinfo; assumption).
  split; [reflexivity|].
  unfold cluster_mount_effect. cbn [filesystems registered storages].
  rewrite Hinfo, Hname. cbn [ci_prefix ci_suffix ci_count ci_storage_base_name].
  split; [|split].
  - unfold cluster_effect at 1 2. cbn [filesystems]. do 3 f_equal.
    unfold range. apply map_ext_in. intros i Hi. apply in_seq in Hi. f_equal.
    rewrite resolve_default.
    change (mount_storage_name _ i) with (node_storage_name f i).
    unfold cluster_effect. cbn [storage_map]. rewrite Hkind. cbv beta iota.
    rewrite (fold_insert_lookup (node_storage_name f));
      [reflexivity|apply node_storage_name_inj|apply NoDup_seq|apply elem_of_seq; lia].
  - unfold cluster_effect. cbn [registered zone_map filesystems].
    rewrite resolve_default, lookup_insert_eq. reflexivity.
  - intros i Hi.
    destruct (cluster_storage_entry parent f st k i Hkind Hi) as [Hsto _].
    eexists. split; [exact Hsto|reflexivity].
Qed.

Lemma cluster_filesystem_on_node_storage_witness :
  exists st1 st2,
    create_cluster_zone 0 example_storage_cluster busy_state = Ok (tt, st1) /\
    create_filesystem 1 example_scratch_document example_scratch_filesystem st1
    = Ok (tt, st2) /\
    filesystems st2
      = [mk_filesystem "scratch" 100000000
           [mk_partition "/n0/scratch/" (Some 0%nat) "1TB";
            mk_partition "/n1/scratch/" (Some 1%nat) "1TB";
            mk_partition "/n2/scratch/" (Some 2%nat) "1TB"]] /\
    registered st2 = [(Some 1%nat, 0%nat)].
Proof.
  destruct (cluster_filesystem_on_node_storage 0 1 example_storage_cluster
              example_scratch_document example_scratch_filesystem
              example_storage_cluster_fields
              (mk_mount_fields "scratch" "/{hostname}/scratch/" "1TB" "c0"
                 (mk_cluster_info "n" "" "ssd" 3))
              busy_state)
    as (st1 & st2 & Hrun1 & Hrun2 & Hfs & Hreg & _);
    try reflexivity; [left; reflexivity|].
  exists st1, st2. split; [exact Hrun1|]. split; [exact Hrun2|].
  split; [rewrite Hfs; reflexivity|exact Hreg].
Defined.

(** ** The two levels of zones *)

Lemma children_of_refl d (st : state) : children_of d st st.
Proof.
  constructor; [reflexivity|].
  intros i z Hz Hi. apply lookup_lt_Some in Hz. lia.
Qed.

Lemma children_of_trans d (st1 st2 st3 : state) :
  children_of d st1 st2 -> children_of d st2 st3 -> children_of d st1 st3.
Proof.
  intros [P1 N1] [P2 N2]. constructor; [etransitivity; eassumption|].
  intros i z Hz Hi.
  destruct (Nat.le_gt_cases (length (zones st2)) i) as [Hle|Hgt]; [eauto|].
  apply (N1 i); [|exact Hi].
  destruct P2 as [k Hk]. rewrite Hk, lookup_app_l in Hz by assumption. exact Hz.
Qed.

Lemma same_tree_children_of d (st st' : state) : same_tree st st' -> children_of d st st'.
Proof.
  intros [Hz _ _]. constructor; rewrite Hz; [reflexivity|].
  intros i z Hi Hle. apply lookup_lt_Some in Hi. lia.
Qed.

Lemma new_zone_child (l : list zone) (x : zone) (d : nat) :
  z_parent x = ZoneAt d -> z_routing x = Star \/ z_routing x = Empty ->
  forall i z, (l ++ [x]) !! i = Some z -> (length l <= i)%nat ->
    z_parent z = ZoneAt d /\ (z_routing z = Star \/ z_routing z = Empty).
Proof.
  intros Hp Hr i z Hz Hi. rewrite lookup_app_r in Hz by assumption.
  destruct (i - length l)%nat; [|discriminate Hz]. injection Hz as <-. auto.
Qed.

Lemma create_cluster_zone_children d cfg : post (children_of d) (create_cluster_zone d cfg).
Proof.
  intros st a st' H. rewrite create_cluster_zone_effect in H.
  destruct (cluster_fields_of cfg) as [f| |]; try discriminate H.
  injection H as _ <-. unfold cluster_effect. constructor; cbn [zones].
  - apply prefix_of_app.
  - apply new_zone_child; [reflexivity|left; reflexivity].
Qed.

Lemma create_storage_system_zone_children d cfg :
  post (children_of d) (create_storage_system_zone d cfg).
Proof.
  intros st a st' H. rewrite create_storage_system_zone_effect in H.
  destruct (storage_fields_of cfg) as [f| |]; try discriminate H.
  injection H as _ <-. unfold storage_system_effect. constructor; cbn [zones].
  - apply prefix_of_app.
  - apply new_zone_child; [reflexivity|right; reflexivity].
Qed.

Lemma two_levels_refl (st : state) : two_levels st st.
Proof.
  constructor; [reflexivity|].
  intros i z Hz Hi. apply lookup_lt_Some in Hz. lia.
Qed.

Lemma two_levels_trans (st1 st2 st3 : state) :
  two_levels st1 st2 -> two_levels st2 st3 -> two_levels st1 st3.
Proof.
  intros [P1 N1] [P2 N2]. constructor; [etransitivity; eassumption|].
  intros i z Hz Hi.
  assert (Hlen : (length (zones st1) <= length (zones st2))%nat)
    by (apply prefix_length, P1).
  destruct (Nat.le_gt_cases (length (zones st2)) i) as [Hle|Hgt].
  - destruct (N2 i z Hz Hle) as [H|(p & zp & Hp & Hlo & Hhi & Hzp & Hfirst & Hr)];
      [left; exact H|].
    right.
    refine (ex_intro _ p (ex_intro _ zp
              (conj Hp (conj _ (conj Hhi (conj Hzp (conj Hfirst Hr))))))).
    lia.
  - assert (Hz2 : zones st2 !! i = Some z).
    { destruct P2 as [k Hk]. rewrite Hk, lookup_app_l in Hz by assumption. exact Hz. }
    destruct (N1 i z Hz2 Hi) as [H|(p & zp & Hp & Hlo & Hhi & Hzp & Hfirst & Hr)];
      [left; exact H|].
    right.
    refine (ex_intro _ p (ex_intro _ zp
              (conj Hp (conj Hlo (conj Hhi (conj _ (conj Hfirst Hr))))))).
    eapply prefix_lookup_Some; eassumption.
Qed.

Lemma load_facility_two_levels cfg : post two_levels (load_facility cfg).
Proof.
  intros st a st' H. unfold load_facility in H.
  apply bind_inv in H as (d & st1 & H1 & H).
  rewrite create_facility_zone_effect in H1.
  destruct (field_string cfg "name") as [name| |]; try discriminate H1.
  destruct (field_string cfg "routing") as [r| |]; try discriminate H1.
  cbn [rbind] in H1. injection H1 as <- <-.
  match type of H with _ ?s = _ => set (st1 := s) in * end.
  apply bind_inv in H as (? & st2 & H2 & H).
  apply bind_inv in H as (? & st3 & H3 & H).
  apply bind_inv in H as (? & st4 & H4 & H).
  apply bind_inv in H as (? & st5 & H5 & H).
  injection H as _ <-.
  set (d := length (zones st)) in *.
  assert (B2 : children_of d st1 st2).
  { match type of H2 with ?m _ = _ => assert (P : post (children_of d) m) end;
      [|exact (P _ _ _ H2)].
    repeat first [ apply create_storage_system_zone_children
                 | post_step (children_of d) (children_of_refl d) (children_of_trans d) ]. }
  assert (B3 : children_of d st2 st3).
  { match type of H3 with ?m _ = _ => assert (P : post (children_of d) m) end;
      [|exact (P _ _ _ H3)].
    repeat first [ apply create_cluster_zone_children
                 | post_step (children_of d) (children_of_refl d) (children_of_trans d) ]. }
  assert (B4 : children_of d st3 st4).
  { apply same_tree_children_of.
    match type of H4 with ?m _ = _ => assert (P : post same_tree m) end;
      [|exact (P _ _ _ H4)].
    repeat first [ apply create_inter_zone_links_same_tree
                 | post_step same_tree same_tree_refl same_tree_trans ]. }
  assert (B5 : children_of d st4 st5).
  { apply same_tree_children_of.
    match type of H5 with ?m _ = _ => assert (P : post same_tree m) end;
      [|exact (P _ _ _ H5)].
    repeat first [ apply create_routes_same_tree
                 | post_step same_tree same_tree_refl same_tree_trans ]. }
  pose proof (children_of_trans d _ _ _ B2
                (children_of_trans d _ _ _ B3 (children_of_trans d _ _ _ B4 B5)))
    as [[kids Hkids] Hnew].
  assert (Hz1 : zones st1 = zones st ++ [mk_zone name (facility_routing r) RootZone None false])
    by reflexivity.
  rewrite Hz1 in Hkids, Hnew.
  assert (Hzones : alter (fun zn =>
             mk_zone (z_name zn) (z_routing zn) (z_parent zn) (z_gateway zn) true)
             d (zones st5)
           = zones st ++ mk_zone name (facility_routing r) RootZone None true :: kids).
  { rewrite Hkids, alter_app_l by (rewrite length_app; cbn; unfold d; lia).
    unfold d. rewrite alter_last, <- app_assoc. reflexivity. }
  assert (Hfirst : first_level (mk_zone name (facility_routing r) RootZone None true)).
  { split; [reflexivity|]. cbn [z_routing]. unfold facility_routing.
    destruct (String.eqb r "full"); [left; reflexivity|].
    destruct (String.eqb r "floyd"); [right|left]; reflexivity. }
  unfold with_zones. constructor; unfold second_level; cbn [zones]; rewrite Hzones.
  - apply prefix_of_app.
  - intros i z Hi Hle. rewrite lookup_app_r in Hi by assumption.
    destruct (i - length (zones st))%nat as [|j] eqn:Hj.
    + injection Hi as <-. left. exact Hfirst.
    + cbn in Hi. right.
      destruct (Hnew i z) as [Hp Hr].
      * rewrite Hkids, lookup_app_r by (rewrite length_app; cbn; lia).
        rewrite length_app. cbn [length].
        replace (i - (length (zones st) + 1))%nat with j by lia. exact Hi.
      * rewrite length_app. cbn. lia.
      * refine (ex_intro _ d (ex_intro _
                  (mk_zone name (facility_routing r) RootZone None true)
                  (conj Hp (conj _ (conj _ (conj _ (conj Hfirst Hr)))))));
          unfold d; try lia.
        rewrite lookup_app_r, Nat.sub_diag by lia. reflexivity.
Qed.

Lemma same_platform_two_levels (st st' : state) : same_platform st st' -> two_levels st st'.
Proof.
  intros [Hz _ _ _ _ _ _ _ _ _]. constructor; rewrite Hz; [reflexivity|].
  intros i z Hi Hle. apply lookup_lt_Some in Hi. lia.
Qed.

(** X23.  The zones of a pass are in two levels.  Every zone that
    [load_platform] adds is either a facility zone, which hangs from the
    root and has full or Floyd routing, or a cluster or storage system
    zone, which has star or empty routing and hangs from a facility zone
    that the same pass added before it. *)
Theorem loaded_zones_two_levels (fuel : nat) (src : config_source) (st st' : state)
    (i : nat) (z : zone) :
  load_platform fuel src st = Ok (tt, st') ->
  zones st' !! i = Some z ->
  (length (zones st) <= i)%nat ->
  (z_parent z = RootZone /\ (z_routing z = Full \/ z_routing z = Floyd)) \/
  (exists p zp,
     z_parent z = ZoneAt p /\ (length (zones st) <= p)%nat /\ (p < i)%nat /\
     zones st' !! p = Some zp /\
     (z_parent zp = RootZone /\ (z_routing zp = Full \/ z_routing zp = Floyd)) /\
     (z_routing z = Star \/ z_routing z = Empty)).
Proof.
  intros H Hz Hi.
  assert (Hlevels : two_levels st st').
  { destruct src as [|config]; [discriminate H|].
    cbn [load_platform] in H. unfold compile in H.
    rewrite bind_lift in H.
    destruct (at_key_mut config "facilities") as [[facilities config']| |];
      try discriminate H.
    cbn [rbind fst snd] in H.
    apply bind_inv in H as ([] & st1 & H1 & H).
    apply (post_for_each two_levels two_levels_refl two_levels_trans) in H1;
      [|intro; apply load_facility_two_levels].
    eapply two_levels_trans; [exact H1|].
    destruct (contains config' "filesystems").
    - rewrite bind_read_json in H.
      destruct (at_key config' "filesystems") as [fss| |]; try discriminate H.
      cbn [rbind] in H. apply same_platform_two_levels.
      eapply create_filesystems_same_platform, H.
    - injection H as <-. apply two_levels_refl. }
  exact (tl_new _ _ Hlevels i z Hz Hi).
Qed.

Lemma loaded_zones_two_levels_witness :
  exists st',
    load_platform 1 (Parsed example_site_document) busy_state = Ok (tt, st') /\
    zones st' !! 3%nat = Some (mk_zone "c0" Star (ZoneAt 1) (Some 0%nat) true) /\
    exists p zp,
      ZoneAt 1 = ZoneAt p /\ (1 <= p)%nat /\ (p < 3)%nat /\
      zones st' !! p = Some zp /\
      (z_parent zp = RootZone /\ (z_routing zp = Full \/ z_routing zp = Floyd)) /\
      (Star = Star \/ Star = Empty).
Proof.
  assert (Hrun : exists st',
    load_platform 1 (Parsed example_site_document) busy_state = Ok (tt, st') /\
    zones st' !! 3%nat = Some (mk_zone "c0" Star (ZoneAt 1) (Some 0%nat) true))
    by (eexists; split; vm_compute; reflexivity).
  destruct Hrun as (st' & Hrun & Hz).
  exists st'. split; [exact Hrun|]. split; [exact Hz|].
  destruct (loaded_zones_two_levels 1 (Parsed example_site_document) busy_state st'
              3 _ Hrun Hz) as [[Hroot _]|Hsecond]; [cbn; lia|discriminate Hroot|].
  exact Hsecond.
Defined.
